(** * vulkan_minimal_compute: a shallow embedding of [src/jp_main.cpp]

    The program is a single class [ComputeApplication] whose [Run] method
    performs one compute dispatch and saves the result as a PNG, and a [main]
    that wraps [Run] in a [try]/[catch] for [std::runtime_error].

    The embedding keeps the shape of the source:
    - the Vulkan driver, the file system and the PNG encoder are the
      [World] the program runs in: every answer they give is a field of it.
      The program takes no input, so the arguments of every call are
      determined by the world, and one answer per entry point is enough;
    - member functions are computations in a small state-and-outcome monad
      [M]; the state [App] holds the member variables that are not opaque
      handles, the text written with [printf] and the sequence of Vulkan
      entry points called;
    - a computation returns, throws a [std::runtime_error], aborts (a failed
      [assert]) or has undefined behaviour (a null [FILE*], a null mapping, a
      floating-integral conversion out of range);
    - [float] is IEEE-754 binary32 and [double] binary64, through the
      Standard Library's executable specification [SpecFloat];
    - [uint32_t] values are [Z] with the wrap-around written out.

    Not modelled: the standard error stream, exceptions other than
    [std::runtime_error], and what a driver does with the handle of an
    object whose creation failed (the world answers every call). *)

From Stdlib Require Import ZArith List String Bool Lia.
From Stdlib Require Import Floats.SpecFloat.
Import ListNotations.
Open Scope string_scope.
Open Scope list_scope.
Open Scope Z_scope.

(** ** Machine integers *)

(** Conversion to [uint32_t]: reduction modulo [2^32]. *)
Definition uint32 (z : Z) : Z := z mod 2 ^ 32.

Definition UINT32_MAX : Z := 2 ^ 32 - 1.

(** ** IEEE-754 binary32 and binary64

    [float] and [double] as [spec_float]; the operations are the Standard
    Library's, instantiated at the two formats. *)

Module F32.
Definition prec : Z := 24.
Definition emax : Z := 128.

(** [float(n)] for an integer [n]: round to nearest, ties to even. *)
Definition of_Z (n : Z) : spec_float := binary_normalize prec emax n 0 false.
Definition mul : spec_float -> spec_float -> spec_float := SFmul prec emax.
Definition div : spec_float -> spec_float -> spec_float := SFdiv prec emax.
End F32.

Module F64.
Definition prec : Z := 53.
Definition emax : Z := 1024.

Definition of_Z (n : Z) : spec_float := binary_normalize prec emax n 0 false.
Definition div : spec_float -> spec_float -> spec_float := SFdiv prec emax.
End F64.

(** The integer [floor] of the real number [(-1)^s * m * 2^e]:
    [Z.shiftl] by a negative amount is the flooring right shift. *)
Definition SFfloorZ (s : bool) (m : positive) (e : Z) : Z :=
  Z.shiftl (cond_Zopp s (Zpos m)) e.

(** The integer [ceil] of [(-1)^s * m * 2^e], as [- floor (- x)]. *)
Definition SFceilZ (s : bool) (m : positive) (e : Z) : Z :=
  - SFfloorZ (negb s) m e.

(** Truncation toward zero of [(-1)^s * m * 2^e]. *)
Definition SFtruncZ (s : bool) (m : positive) (e : Z) : Z :=
  cond_Zopp s (Z.shiftl (Zpos m) e).

(** [ceil(x)] of <cmath>, in the format [prec], [emax]: the result is again a
    floating-point number; zeros, infinities and NaN are returned as they
    are, and a negative argument above [-1] gives the negative zero. *)
Definition SFceil (prec emax : Z) (x : spec_float) : spec_float :=
  match x with
  | S754_finite s m e => binary_normalize prec emax (SFceilZ s m e) 0 s
  | _ => x
  end.

(** A floating-integral conversion [(T)x] to an integer type with range
    [lo .. hi]: the value is truncated toward zero; the behaviour is
    undefined ([None]) when the truncated value is not representable, and for
    infinities and NaN. *)
Definition SFto_int (lo hi : Z) (x : spec_float) : option Z :=
  match x with
  | S754_zero _ => Some 0
  | S754_finite s m e =>
      let z := SFtruncZ s m e in
      if (lo <=? z) && (z <=? hi) then Some z else None
  | _ => None
  end.

Definition to_uint32 : spec_float -> option Z := SFto_int 0 UINT32_MAX.
Definition to_uchar : spec_float -> option Z := SFto_int 0 255.
Definition to_long : spec_float -> option Z := SFto_int (- 2 ^ 63) (2 ^ 63 - 1).

(** ** Constants of the program (lines 11-19) *)

Definition kWidth : Z := 3200.
Definition kHeight : Z := 2400.
Definition kWorkgroupeSize : Z := 32.

Definition EXIT_SUCCESS : Z := 0.
Definition EXIT_FAILURE : Z := 1.

(** ** The part of <vulkan/vulkan.h> the program uses *)

Definition VK_SUCCESS : Z := 0.
Definition VK_TIMEOUT : Z := 2.
Definition VK_ERROR_OUT_OF_DEVICE_MEMORY : Z := -2.
Definition VK_QUEUE_GRAPHICS_BIT : Z := 1.
Definition VK_QUEUE_COMPUTE_BIT : Z := 2.
Definition VK_QUEUE_TRANSFER_BIT : Z := 4.
Definition VK_MEMORY_PROPERTY_DEVICE_LOCAL_BIT : Z := 1.
Definition VK_MEMORY_PROPERTY_HOST_VISIBLE_BIT : Z := 2.
Definition VK_MEMORY_PROPERTY_HOST_COHERENT_BIT : Z := 4.
Definition VK_MAX_MEMORY_TYPES : Z := 32.
Definition VK_EXT_DEBUG_REPORT_EXTENSION_NAME : string := "VK_EXT_debug_report".

Record VkQueueFamilyProperties := {
  queueFlags : Z;
  queueCount : Z
}.

Record VkMemoryType := {
  propertyFlags : Z;
  heapIndex : Z
}.

(** [memoryTypes] is an array of [VK_MAX_MEMORY_TYPES] entries of which the
    first [memoryTypeCount] are meaningful. *)
Record VkPhysicalDeviceMemoryProperties := {
  memoryTypeCount : Z;
  memoryTypes : list VkMemoryType
}.

Record VkMemoryRequirements := {
  size : Z;
  alignment : Z;
  memoryTypeBits : Z
}.

(** What the driver answers about one physical device. *)
Record VkPhysicalDevice := {
  queue_family_properties : list VkQueueFamilyProperties;
  memory_properties : VkPhysicalDeviceMemoryProperties
}.

(** The Vulkan entry points with an effect that the program calls. *)
Inductive VkFn :=
| vkCreateInstance
| vkCreateDebugReportCallbackEXT
| vkCreateDevice
| vkGetDeviceQueue
| vkCreateBuffer
| vkAllocateMemory
| vkBindBufferMemory
| vkCreateDescriptorSetLayout
| vkCreateDescriptorPool
| vkAllocateDescriptorSets
| vkUpdateDescriptorSets
| vkCreateShaderModule
| vkCreatePipelineLayout
| vkCreateComputePipelines
| vkCreateCommandPool
| vkAllocateCommandBuffers
| vkBeginCommandBuffer
| vkCmdBindPipeline
| vkCmdBindDescriptorSets
| vkCmdDispatch
| vkEndCommandBuffer
| vkCreateFence
| vkQueueSubmit
| vkWaitForFences
| vkDestroyFence
| vkMapMemory
| vkUnmapMemory
| vkDestroyDebugReportCallbackEXT
| vkFreeMemory
| vkDestroyBuffer
| vkDestroyShaderModule
| vkDestroyDescriptorPool
| vkDestroyDescriptorSetLayout
| vkDestroyPipelineLayout
| vkDestroyPipeline
| vkDestroyCommandPool
| vkDestroyDevice
| vkDestroyInstance.

(** The objects the application owns (its handle-valued members, and the
    fence local to [RunCommandBuffer]). *)
Inductive Resource :=
| instance
| debug_report_callback
| device
| buffer
| buffer_memory
| descriptor_set_layout
| descriptor_pool
| descriptor_set
| compute_shader_module
| pipeline_layout
| pipeline
| command_pool
| command_buffer
| fence.

Definition Resource_eqb (a b : Resource) : bool :=
  match a, b with
  | instance, instance | debug_report_callback, debug_report_callback
  | device, device | buffer, buffer | buffer_memory, buffer_memory
  | descriptor_set_layout, descriptor_set_layout
  | descriptor_pool, descriptor_pool | descriptor_set, descriptor_set
  | compute_shader_module, compute_shader_module
  | pipeline_layout, pipeline_layout | pipeline, pipeline
  | command_pool, command_pool | command_buffer, command_buffer
  | fence, fence => true
  | _, _ => false
  end.

(** The object an entry point creates: the handle it writes. *)
Definition creates (f : VkFn) : option Resource :=
  match f with
  | vkCreateInstance => Some instance
  | vkCreateDebugReportCallbackEXT => Some debug_report_callback
  | vkCreateDevice => Some device
  | vkCreateBuffer => Some buffer
  | vkAllocateMemory => Some buffer_memory
  | vkCreateDescriptorSetLayout => Some descriptor_set_layout
  | vkCreateDescriptorPool => Some descriptor_pool
  | vkAllocateDescriptorSets => Some descriptor_set
  | vkCreateShaderModule => Some compute_shader_module
  | vkCreatePipelineLayout => Some pipeline_layout
  | vkCreateComputePipelines => Some pipeline
  | vkCreateCommandPool => Some command_pool
  | vkAllocateCommandBuffers => Some command_buffer
  | vkCreateFence => Some fence
  | _ => None
  end.

(** The object an entry point destroys: the handle passed to it. *)
Definition destroys (f : VkFn) : option Resource :=
  match f with
  | vkDestroyDebugReportCallbackEXT => Some debug_report_callback
  | vkFreeMemory => Some buffer_memory
  | vkDestroyBuffer => Some buffer
  | vkDestroyShaderModule => Some compute_shader_module
  | vkDestroyDescriptorPool => Some descriptor_pool
  | vkDestroyDescriptorSetLayout => Some descriptor_set_layout
  | vkDestroyPipelineLayout => Some pipeline_layout
  | vkDestroyPipeline => Some pipeline
  | vkDestroyCommandPool => Some command_pool
  | vkDestroyDevice => Some device
  | vkDestroyInstance => Some instance
  | vkDestroyFence => Some fence
  | _ => None
  end.

(** The handles an object is created from, read off the arguments and
    create-info structures at its creation site: [uses child parent] when
    [parent]'s handle is given to the call that creates [child]. *)
Definition uses (child parent : Resource) : bool :=
  match child, parent with
  | debug_report_callback, instance                       (* line 269 *)
  | device, instance                                      (* line 346, through physical_device *)
  | buffer, device                                        (* line 365 *)
  | buffer_memory, device                                 (* line 400 *)
  | descriptor_set_layout, device                         (* line 436 *)
  | descriptor_pool, device                               (* line 459 *)
  | descriptor_set, device                                (* line 472 *)
  | descriptor_set, descriptor_pool                       (* line 466 *)
  | descriptor_set, descriptor_set_layout                 (* line 468 *)
  | compute_shader_module, device                         (* line 520 *)
  | pipeline_layout, device                               (* line 545 *)
  | pipeline_layout, descriptor_set_layout                (* line 544 *)
  | pipeline, device                                      (* line 555 *)
  | pipeline, compute_shader_module                       (* line 534 *)
  | pipeline, pipeline_layout                             (* line 550 *)
  | command_pool, device                                  (* line 577 *)
  | command_buffer, device                                (* line 593 *)
  | command_buffer, command_pool                          (* line 584 *)
  | fence, device => true                                 (* line 638 *)
  | _, _ => false
  end.

(** ** The world the program runs in *)

Record Pixel := {
  r : spec_float;
  g : spec_float;
  b : spec_float;
  a : spec_float
}.

Record World := {
  (** the build: [NDEBUG] defined (release) or not (debug) *)
  NDEBUG : bool;
  (** [vkEnumerateInstanceLayerProperties]: the layer names *)
  layer_properties : list string;
  (** [vkEnumerateInstanceExtensionProperties]: the extension names *)
  extension_properties : list string;
  (** [vkGetInstanceProcAddr] finds the named entry point *)
  proc_addr : VkFn -> bool;
  (** [vkEnumeratePhysicalDevices] *)
  physical_devices : list VkPhysicalDevice;
  (** the [VkResult] of each entry point that returns one *)
  vk_result : VkFn -> Z;
  (** [vkGetBufferMemoryRequirements] for the storage buffer *)
  buffer_memory_requirements : VkMemoryRequirements;
  (** [fopen(filename, "rb")]: the bytes of the file, when it can be opened *)
  fopen : string -> option (list Z);
  (** the buffer memory as [vkMapMemory] shows it, when the mapping
      succeeds: the pixel at each index *)
  mapped_memory : option (Z -> Pixel);
  (** the status [lodepng::encode] returns *)
  lodepng_encode : Z
}.

(** ** Program state and outcomes *)

Inductive PrintfArg :=
| ArgInt (z : Z)
| ArgStr (s : string)
| ArgFILE                        (* __FILE__ *)
| ArgLINE (f : VkFn)             (* __LINE__ at the VK_CHECK_RESULT around [f] *)
| ArgLodepngErrorText (e : Z).   (* lodepng_error_text(e) *)

(** One call of [printf]: the format and its arguments. *)
Record Printf := printf_call {
  format : string;
  args : list PrintfArg
}.

(** One call of a Vulkan entry point, with the arguments of interest. *)
Record Call := vk_call {
  fn : VkFn;
  fn_args : list Z
}.

(** The member variables that are not opaque handles, the standard output
    and the calls made so far (both oldest first). *)
Record App := {
  physical_device : option VkPhysicalDevice;
  queue_family_index : Z;
  buffer_size : Z;
  enabled_layers : list string;
  stdout : list Printf;
  calls : list Call;
  (** the image handed to the encoder, with its width and height *)
  encoded : option (list Z * Z * Z)
}.

Definition initial : App := {|
  physical_device := None;
  queue_family_index := 0;
  buffer_size := 0;
  enabled_layers := [];
  stdout := [];
  calls := [];
  encoded := None
|}.

(** How a computation ends: it returns, it throws a [std::runtime_error], a
    failed [assert] calls [abort], or its behaviour is undefined. *)
Inductive Outcome (A : Type) :=
| Ret (x : A)
| Throw (what : string)
| Abort
| Undefined.
Arguments Ret {A} x.
Arguments Throw {A} what.
Arguments Abort {A}.
Arguments Undefined {A}.

Definition M (A : Type) : Type := App -> Outcome A * App.

Definition ret {A} (x : A) : M A := fun s => (Ret x, s).

Definition bind {A B} (m : M A) (k : A -> M B) : M B :=
  fun s =>
    match m s with
    | (Ret x, s') => k x s'
    | (Throw what, s') => (Throw what, s')
    | (Abort, s') => (Abort, s')
    | (Undefined, s') => (Undefined, s')
    end.

Definition throw {A} (what : string) : M A := fun s => (Throw what, s).
Definition abort {A} : M A := fun s => (Abort, s).
Definition undefined {A} : M A := fun s => (Undefined, s).

Definition get : M App := fun s => (Ret s, s).
Definition modify (f : App -> App) : M unit := fun s => (Ret tt, f s).

Declare Scope app_scope.
Delimit Scope app_scope with app.
Notation "x <- m ;; k" := (bind m (fun x => k))
  (at level 61, m at next level, right associativity) : app_scope.
Notation "m ;; k" := (bind m (fun _ => k))
  (at level 61, right associativity) : app_scope.
Open Scope app_scope.

Definition when (c : bool) (m : M unit) : M unit := if c then m else ret tt.

Definition set_physical_device (d : VkPhysicalDevice) (s : App) : App :=
  {| physical_device := Some d; queue_family_index := queue_family_index s;
     buffer_size := buffer_size s; enabled_layers := enabled_layers s;
     stdout := stdout s; calls := calls s; encoded := encoded s |}.

Definition set_queue_family_index (i : Z) (s : App) : App :=
  {| physical_device := physical_device s; queue_family_index := i;
     buffer_size := buffer_size s; enabled_layers := enabled_layers s;
     stdout := stdout s; calls := calls s; encoded := encoded s |}.

Definition set_buffer_size (n : Z) (s : App) : App :=
  {| physical_device := physical_device s;
     queue_family_index := queue_family_index s;
     buffer_size := n; enabled_layers := enabled_layers s;
     stdout := stdout s; calls := calls s; encoded := encoded s |}.

Definition push_enabled_layer (l : string) (s : App) : App :=
  {| physical_device := physical_device s;
     queue_family_index := queue_family_index s;
     buffer_size := buffer_size s; enabled_layers := enabled_layers s ++ [l];
     stdout := stdout s; calls := calls s; encoded := encoded s |}.

Definition push_stdout (p : Printf) (s : App) : App :=
  {| physical_device := physical_device s;
     queue_family_index := queue_family_index s;
     buffer_size := buffer_size s; enabled_layers := enabled_layers s;
     stdout := stdout s ++ [p]; calls := calls s; encoded := encoded s |}.

Definition push_call (c : Call) (s : App) : App :=
  {| physical_device := physical_device s;
     queue_family_index := queue_family_index s;
     buffer_size := buffer_size s; enabled_layers := enabled_layers s;
     stdout := stdout s; calls := calls s ++ [c]; encoded := encoded s |}.

Definition set_encoded (image : list Z) (width height : Z) (s : App) : App :=
  {| physical_device := physical_device s;
     queue_family_index := queue_family_index s;
     buffer_size := buffer_size s; enabled_layers := enabled_layers s;
     stdout := stdout s; calls := calls s;
     encoded := Some (image, width, height) |}.

Definition printf (fmt : string) (xs : list PrintfArg) : M unit :=
  modify (push_stdout (printf_call fmt xs)).

(** An entry point called for its effect only. *)
Definition vk (f : VkFn) (xs : list Z) : M unit :=
  modify (push_call (vk_call f xs)).

(** ** The class [ComputeApplication] *)

Section ComputeApplication.
Variable w : World.

(** Lines 15-19. *)
Definition kEnableValidationLayers : bool := negb (NDEBUG w).

(** [assert(c)] of <assert.h>: expands to nothing when [NDEBUG] is
    defined, and otherwise calls [abort] when [c] is false. *)
Definition assert (c : bool) : M unit :=
  if NDEBUG w then ret tt else if c then ret tt else abort.

(** The macro of lines 22-28 around a call of [f]. *)
Definition VK_CHECK_RESULT (f : VkFn) (xs : list Z) : M unit :=
  vk f xs ;;
  let res := vk_result w f in
  if negb (res =? VK_SUCCESS) then
    printf "Fatal : VkResult is %d in %s at line %d\n"
           [ArgInt res; ArgFILE; ArgLINE f] ;;
    assert (res =? VK_SUCCESS)
  else ret tt.

(** Lines 146-272. *)
Definition CreateInstance : M unit :=
  when kEnableValidationLayers (
    let found_layer :=
      fold_left
        (fun found prop =>
           if String.eqb "VK_LAYER_LUNARG_standard_validation" prop
           then true else found)
        (layer_properties w) false in
    when (negb found_layer)
      (throw "Layer VK_LAYER_LUNARG_standard_validation not supported\n") ;;
    modify (push_enabled_layer "VK_LAYER_LUNARG_standard_validation") ;;
    let found_extension :=
      existsb (String.eqb VK_EXT_DEBUG_REPORT_EXTENSION_NAME)
              (extension_properties w) in
    when (negb found_extension)
      (throw "Extension VK_EXT_DEBUG_REPORT_EXTENSION_NAME not supported\n")) ;;
  s <- get ;;
  VK_CHECK_RESULT vkCreateInstance [Z.of_nat (List.length (enabled_layers s))] ;;
  when kEnableValidationLayers (
    when (negb (proc_addr w vkCreateDebugReportCallbackEXT))
      (throw "Could not load vkCreateDebugReportCallbackEXT") ;;
    VK_CHECK_RESULT vkCreateDebugReportCallbackEXT []).

(** Lines 274-313: the loop of lines 307-312 stops at its first
    iteration. *)
Definition FindPhysicalDevice : M unit :=
  let devices := physical_devices w in
  let device_count := Z.of_nat (List.length devices) in
  when (device_count =? 0)
    (throw "could not find a device with vulkan support") ;;
  match devices with
  | d :: _ => modify (set_physical_device d)
  | [] => ret tt
  end.

(** The loop of lines 734-742: the value of [i] when it ends. *)
Fixpoint GetComputeQueueFamilyIndex_loop
         (queue_families : list VkQueueFamilyProperties) (i : Z) : Z :=
  match queue_families with
  | [] => i
  | props :: rest =>
      if (0 <? queueCount props)
         && negb (Z.land (queueFlags props) VK_QUEUE_COMPUTE_BIT =? 0)
      then i
      else GetComputeQueueFamilyIndex_loop rest (i + 1)
  end.

(** Lines 724-749. *)
Definition GetComputeQueueFamilyIndex : M Z :=
  s <- get ;;
  match physical_device s with
  | None => undefined
  | Some pd =>
      let queue_families := queue_family_properties pd in
      let i := GetComputeQueueFamilyIndex_loop queue_families 0 in
      if i =? Z.of_nat (List.length queue_families) then
        throw "could not find a queue family that supports operations"
      else ret i
  end.

(** The loop of lines 762-766 from index [i] with [n] iterations left, and
    the [return -1] of line 767 converted to [uint32_t]. [1 << i] is an
    [int], converted to [uint32_t] for the [&]. *)
Fixpoint FindMemoryType_loop (memory_properties : VkPhysicalDeviceMemoryProperties)
         (memory_type_bits properties : Z) (n : nat) (i : Z) : Z :=
  match n with
  | O => uint32 (-1)
  | S n' =>
      let memory_type :=
        nth (Z.to_nat i) (memoryTypes memory_properties)
            {| propertyFlags := 0; heapIndex := 0 |} in
      if negb (Z.land memory_type_bits (uint32 (Z.shiftl 1 i)) =? 0)
         && (Z.land (propertyFlags memory_type) properties =? properties)
      then i
      else FindMemoryType_loop memory_properties memory_type_bits properties
                               n' (i + 1)
  end.

(** Lines 753-768. *)
Definition FindMemoryType (memory_type_bits properties : Z) : M Z :=
  s <- get ;;
  match physical_device s with
  | None => undefined
  | Some pd =>
      let memory_properties := memory_properties pd in
      ret (FindMemoryType_loop memory_properties memory_type_bits properties
             (Z.to_nat (memoryTypeCount memory_properties)) 0)
  end.

(** Lines 777-803. When [fopen] fails the message is printed and the
    function goes on to [fseek] on the null [FILE*]. The padded size is
    computed in [double]. *)
Definition ReadFile (filename : string) : M (Z * list Z) :=
  match fopen w filename with
  | None =>
      printf "Could not find or open file: %s\n" [ArgStr filename] ;;
      undefined
  | Some bytes =>
      let filesize := Z.of_nat (List.length bytes) in
      match to_long (SFceil F64.prec F64.emax
                       (F64.div (F64.of_Z filesize) (F64.of_Z 4))) with
      | None => undefined
      | Some q =>
          let filesizepadded := q * 4 in
          ret (uint32 filesizepadded,
               bytes ++ repeat 0 (Z.to_nat (filesizepadded - filesize)))
      end
  end.

(** Lines 315-351. *)
Definition CreateDevice : M unit :=
  i <- GetComputeQueueFamilyIndex ;;
  modify (set_queue_family_index i) ;;
  VK_CHECK_RESULT vkCreateDevice [i] ;;
  vk vkGetDeviceQueue [i; 0].

(** Lines 353-407. *)
Definition CreateBuffer : M unit :=
  s <- get ;;
  VK_CHECK_RESULT vkCreateBuffer [buffer_size s] ;;
  let memory_requirements := buffer_memory_requirements w in
  memoryTypeIndex <-
    FindMemoryType (memoryTypeBits memory_requirements)
      (Z.lor VK_MEMORY_PROPERTY_HOST_COHERENT_BIT
             VK_MEMORY_PROPERTY_HOST_VISIBLE_BIT) ;;
  VK_CHECK_RESULT vkAllocateMemory
    [size memory_requirements; memoryTypeIndex] ;;
  VK_CHECK_RESULT vkBindBufferMemory [0].

(** Lines 409-437. *)
Definition CreateDescriptorSetLayout : M unit :=
  VK_CHECK_RESULT vkCreateDescriptorSetLayout [0].

(** Lines 439-496. *)
Definition CreateDescriptorSet : M unit :=
  VK_CHECK_RESULT vkCreateDescriptorPool [1] ;;
  VK_CHECK_RESULT vkAllocateDescriptorSets [1] ;;
  s <- get ;;
  vk vkUpdateDescriptorSets [0; 0; buffer_size s].

(** Lines 498-559. *)
Definition CreateComputePipeline : M unit :=
  file <- ReadFile "shaders/comp.spv" ;;
  VK_CHECK_RESULT vkCreateShaderModule [fst file] ;;
  VK_CHECK_RESULT vkCreatePipelineLayout [] ;;
  VK_CHECK_RESULT vkCreateComputePipelines [].

(** One argument of the dispatch of line 617:
    [(uint32_t)ceil(extent / float(group_size))], the division and the
    [ceil] in [float]. *)
Definition group_count (extent group_size : Z) : option Z :=
  to_uint32 (SFceil F32.prec F32.emax
               (F32.div (F32.of_Z extent) (F32.of_Z group_size))).

(** Lines 561-620. *)
Definition CreateCommandBuffer : M unit :=
  s <- get ;;
  VK_CHECK_RESULT vkCreateCommandPool [queue_family_index s] ;;
  VK_CHECK_RESULT vkAllocateCommandBuffers [1] ;;
  VK_CHECK_RESULT vkBeginCommandBuffer [] ;;
  vk vkCmdBindPipeline [] ;;
  vk vkCmdBindDescriptorSets [] ;;
  match group_count kWidth kWorkgroupeSize,
        group_count kHeight kWorkgroupeSize with
  | Some groupsX, Some groupsY =>
      vk vkCmdDispatch [groupsX; groupsY; 1]
  | _, _ => undefined
  end ;;
  VK_CHECK_RESULT vkEndCommandBuffer [].

(** Lines 622-654. *)
Definition RunCommandBuffer : M unit :=
  VK_CHECK_RESULT vkCreateFence [] ;;
  VK_CHECK_RESULT vkQueueSubmit [] ;;
  VK_CHECK_RESULT vkWaitForFences [100000000000] ;;
  vk vkDestroyFence [].

(** The conversion of lines 670-673: [(unsigned char)(255.0f * value)]. *)
Definition channel_to_byte (value : spec_float) : option Z :=
  to_uchar (F32.mul (F32.of_Z 255) value).

(** The loop of lines 669-674 from index [i] with [n] iterations left. *)
Fixpoint SaveRenderedImage_loop (pmapped_memory : Z -> Pixel)
         (n : nat) (i : Z) (image : list Z) : option (list Z) :=
  match n with
  | O => Some image
  | S n' =>
      let p := pmapped_memory i in
      match channel_to_byte (r p), channel_to_byte (g p),
            channel_to_byte (b p), channel_to_byte (a p) with
      | Some cr, Some cg, Some cb, Some ca =>
          SaveRenderedImage_loop pmapped_memory n' (i + 1)
                                 (image ++ [cr; cg; cb; ca])
      | _, _, _, _ => None
      end
  end.

(** Lines 657-681. The result of [vkMapMemory] is not looked at: when the
    mapping fails the loop reads through a null pointer. *)
Definition SaveRenderedImage : M unit :=
  s <- get ;;
  vk vkMapMemory [0; buffer_size s] ;;
  match mapped_memory w with
  | None => undefined
  | Some pmapped_memory =>
      match SaveRenderedImage_loop pmapped_memory
              (Z.to_nat (kWidth * kHeight)) 0 [] with
      | None => undefined
      | Some image =>
          vk vkUnmapMemory [] ;;
          modify (set_encoded image kWidth kHeight) ;;
          let error := lodepng_encode w in
          when (negb (error =? 0))
            (printf "encoder error %d: %s"
                    [ArgInt error; ArgLodepngErrorText error])
      end
  end.

(** Lines 683-707. *)
Definition CleanUp : M unit :=
  when kEnableValidationLayers (
    when (negb (proc_addr w vkDestroyDebugReportCallbackEXT))
      (throw "Could not load vkDestroyDebugReportCallbackEXT") ;;
    vk vkDestroyDebugReportCallbackEXT []) ;;
  vk vkFreeMemory [] ;;
  vk vkDestroyBuffer [] ;;
  vk vkDestroyShaderModule [] ;;
  vk vkDestroyDescriptorPool [] ;;
  vk vkDestroyDescriptorSetLayout [] ;;
  vk vkDestroyPipelineLayout [] ;;
  vk vkDestroyPipeline [] ;;
  vk vkDestroyCommandPool [] ;;
  vk vkDestroyDevice [] ;;
  vk vkDestroyInstance [].

(** Lines 119-144. [sizeof(Pixel)] is 16. *)
Definition Run : M unit :=
  modify (set_buffer_size (uint32 (16 * kWidth * kHeight))) ;;
  CreateInstance ;;
  FindPhysicalDevice ;;
  CreateDevice ;;
  CreateBuffer ;;
  CreateDescriptorSetLayout ;;
  CreateDescriptorSet ;;
  CreateComputePipeline ;;
  CreateCommandBuffer ;;
  RunCommandBuffer ;;
  SaveRenderedImage ;;
  CleanUp.

End ComputeApplication.

(** How the process ends. *)
Inductive Termination :=
| Exit (code : Z)
| Aborted
| UndefinedBehaviour.

(** Lines 806-818. *)
Definition main (w : World) : Termination * App :=
  match Run w initial with
  | (Ret _, s) => (Exit EXIT_SUCCESS, s)
  | (Throw what, s) =>
      (Exit EXIT_FAILURE, push_stdout (printf_call "%s\n" [ArgStr what]) s)
  | (Abort, s) => (Aborted, s)
  | (Undefined, s) => (UndefinedBehaviour, s)
  end.

(** ** Vocabulary of the specification *)

(** A queue family the search of [GetComputeQueueFamilyIndex] accepts: it has
    a queue and its capability flags include compute (bit 1). *)
Definition usable_compute (q : VkQueueFamilyProperties) : Prop :=
  0 < queueCount q /\ Z.testbit (queueFlags q) 1 = true.

(** Capability flags that include compute, whatever the number of queues. *)
Definition compute_capable (q : VkQueueFamilyProperties) : Prop :=
  Z.testbit (queueFlags q) 1 = true.

(** Memory type [i] is allowed by the bitmask [memory_type_bits]. *)
Definition type_allowed (memory_type_bits i : Z) : Prop :=
  Z.testbit memory_type_bits i = true.

(** The property flags of memory type [i] include every flag of
    [properties]. *)
Definition has_properties (mp : VkPhysicalDeviceMemoryProperties)
           (properties i : Z) : Prop :=
  forall k, Z.testbit properties k = true ->
    Z.testbit (propertyFlags (nth (Z.to_nat i) (memoryTypes mp)
                                  {| propertyFlags := 0; heapIndex := 0 |})) k
    = true.

(** Memory type [i] of the device satisfies both conditions. *)
Definition suitable (mp : VkPhysicalDeviceMemoryProperties)
           (memory_type_bits properties i : Z) : Prop :=
  0 <= i < memoryTypeCount mp /\
  type_allowed memory_type_bits i /\
  has_properties mp properties i.

(** An outcome that makes a failure known: an exception or an abort. *)
Definition signals_failure {A} (o : Outcome A) : Prop :=
  match o with
  | Throw _ | Abort => True
  | Ret _ | Undefined => False
  end.

(** The computation [m] returns normally from state [s]. *)
Definition returns {A} (m : M A) (s : App) : Prop :=
  exists x s', m s = (Ret x, s').


(** *** Worlds *)

Definition VkFn_eq_dec (f g : VkFn) : {f = g} + {f <> g}.
Proof. decide equality. Defined.

Definition VkFn_eqb (f g : VkFn) : bool :=
  if VkFn_eq_dec f g then true else false.

(** The same world in the other build. *)
Definition with_NDEBUG (ndebug : bool) (w : World) : World :=
  {| NDEBUG := ndebug;
     layer_properties := layer_properties w;
     extension_properties := extension_properties w;
     proc_addr := proc_addr w;
     physical_devices := physical_devices w;
     vk_result := vk_result w;
     buffer_memory_requirements := buffer_memory_requirements w;
     fopen := fopen w;
     mapped_memory := mapped_memory w;
     lodepng_encode := lodepng_encode w |}.

(** The same world where the entry point [f] returns [res]. *)
Definition with_vk_result (f : VkFn) (res : Z) (w : World) : World :=
  {| NDEBUG := NDEBUG w;
     layer_properties := layer_properties w;
     extension_properties := extension_properties w;
     proc_addr := proc_addr w;
     physical_devices := physical_devices w;
     vk_result := fun g => if VkFn_eqb g f then res else vk_result w g;
     buffer_memory_requirements := buffer_memory_requirements w;
     fopen := fopen w;
     mapped_memory := mapped_memory w;
     lodepng_encode := lodepng_encode w |}.

(** The same world with other physical devices. *)
Definition with_physical_devices (ds : list VkPhysicalDevice) (w : World)
  : World :=
  {| NDEBUG := NDEBUG w;
     layer_properties := layer_properties w;
     extension_properties := extension_properties w;
     proc_addr := proc_addr w;
     physical_devices := ds;
     vk_result := vk_result w;
     buffer_memory_requirements := buffer_memory_requirements w;
     fopen := fopen w;
     mapped_memory := mapped_memory w;
     lodepng_encode := lodepng_encode w |}.

(** The same world with another file system. *)
Definition with_fopen (fs : string -> option (list Z)) (w : World) : World :=
  {| NDEBUG := NDEBUG w;
     layer_properties := layer_properties w;
     extension_properties := extension_properties w;
     proc_addr := proc_addr w;
     physical_devices := physical_devices w;
     vk_result := vk_result w;
     buffer_memory_requirements := buffer_memory_requirements w;
     fopen := fs;
     mapped_memory := mapped_memory w;
     lodepng_encode := lodepng_encode w |}.

(** The same world where the encoder returns [e]. *)
Definition with_lodepng_encode (e : Z) (w : World) : World :=
  {| NDEBUG := NDEBUG w;
     layer_properties := layer_properties w;
     extension_properties := extension_properties w;
     proc_addr := proc_addr w;
     physical_devices := physical_devices w;
     vk_result := vk_result w;
     buffer_memory_requirements := buffer_memory_requirements w;
     fopen := fopen w;
     mapped_memory := mapped_memory w;
     lodepng_encode := e |}.

(** A device with a graphics-only family and a family for everything, and
    with a device-local and a host-visible, host-coherent memory type. *)
Definition sample_device : VkPhysicalDevice :=
  {| queue_family_properties :=
       [ {| queueFlags := VK_QUEUE_GRAPHICS_BIT; queueCount := 1 |};
         {| queueFlags := Z.lor VK_QUEUE_GRAPHICS_BIT
                                (Z.lor VK_QUEUE_COMPUTE_BIT
                                       VK_QUEUE_TRANSFER_BIT);
            queueCount := 16 |} ];
     memory_properties :=
       {| memoryTypeCount := 2;
          memoryTypes :=
            [ {| propertyFlags := VK_MEMORY_PROPERTY_DEVICE_LOCAL_BIT;
                 heapIndex := 0 |};
              {| propertyFlags := Z.lor VK_MEMORY_PROPERTY_HOST_VISIBLE_BIT
                                        VK_MEMORY_PROPERTY_HOST_COHERENT_BIT;
                 heapIndex := 1 |} ] |} |}.

(** A device none of whose memory types is both allowed for the sample
    buffer (mask 3) and host-visible and host-coherent: types 0 and 1 are
    device-local only, type 2 is not in the mask. *)
Definition device_without_host_memory : VkPhysicalDevice :=
  {| queue_family_properties := queue_family_properties sample_device;
     memory_properties :=
       {| memoryTypeCount := 3;
          memoryTypes :=
            [ {| propertyFlags := VK_MEMORY_PROPERTY_DEVICE_LOCAL_BIT;
                 heapIndex := 0 |};
              {| propertyFlags := VK_MEMORY_PROPERTY_DEVICE_LOCAL_BIT;
                 heapIndex := 0 |};
              {| propertyFlags := Z.lor VK_MEMORY_PROPERTY_HOST_VISIBLE_BIT
                                        VK_MEMORY_PROPERTY_HOST_COHERENT_BIT;
                 heapIndex := 1 |} ] |} |}.

(** Opaque black: the channels 0.0, 0.0, 0.0 and 1.0. *)
Definition black : Pixel :=
  {| r := S754_zero false; g := S754_zero false; b := S754_zero false;
     a := S754_finite false 8388608 (-23) |}.

(** A release-build world in which everything works: the validation layer
    and the debug-report extension are there, every Vulkan call succeeds,
    the kernel blob is a four-byte file and the buffer is all black. *)
Definition sample_world : World :=
  {| NDEBUG := true;
     layer_properties := ["VK_LAYER_LUNARG_standard_validation"];
     extension_properties := ["VK_KHR_surface"; "VK_EXT_debug_report"];
     proc_addr := fun _ => true;
     physical_devices := [sample_device];
     vk_result := fun _ => VK_SUCCESS;
     buffer_memory_requirements :=
       {| size := 122880000; alignment := 256; memoryTypeBits := 3 |};
     fopen := fun _ => Some [3; 2; 35; 7];
     mapped_memory := Some (fun _ => black);
     lodepng_encode := 0 |}.

(** *** What the runs below are compared with *)

(** The state in which [Run] calls [CreateInstance] (line 121 done). *)
Definition start : App := set_buffer_size (uint32 (16 * kWidth * kHeight)) initial.

(** The line [VK_CHECK_RESULT] prints for a failed call of [f]. *)
Definition diagnostic (w : World) (f : VkFn) : Printf :=
  printf_call "Fatal : VkResult is %d in %s at line %d\n"
              [ArgInt (vk_result w f); ArgFILE; ArgLINE f].

(** The state [VK_CHECK_RESULT] leaves: the call is made, and the diagnostic
    printed when the call failed. *)
Definition checked (w : World) (f : VkFn) (xs : list Z) (s : App) : App :=
  if vk_result w f =? VK_SUCCESS then push_call (vk_call f xs) s
  else push_stdout (diagnostic w f) (push_call (vk_call f xs) s).

(** The line [SaveRenderedImage] prints for the encoder status [e]. *)
Definition encoder_error (e : Z) : Printf :=
  printf_call "encoder error %d: %s" [ArgInt e; ArgLodepngErrorText e].

(** The line [main] prints for a caught exception. *)
Definition caught (what : string) : Printf :=
  printf_call "%s\n" [ArgStr what].

(** No [VK_CHECK_RESULT] aborts: the build is a release build, or every
    Vulkan call succeeds. *)
Definition checks_pass (w : World) : Prop :=
  NDEBUG w = true \/ forall f, vk_result w f = VK_SUCCESS.

(** What a debug build asks of the instance: the validation layer, the
    debug-report extension and its two entry points. *)
Definition validation_available (w : World) : Prop :=
  NDEBUG w = false ->
  In "VK_LAYER_LUNARG_standard_validation" (layer_properties w) /\
  In VK_EXT_DEBUG_REPORT_EXTENSION_NAME (extension_properties w) /\
  proc_addr w vkCreateDebugReportCallbackEXT = true /\
  proc_addr w vkDestroyDebugReportCallbackEXT = true.

(** There is a physical device, and the first one has a queue family the
    search accepts. *)
Definition compute_device_present (w : World) : Prop :=
  exists d ds, physical_devices w = d :: ds /\
    exists q, In q (queue_family_properties d) /\ usable_compute q.

(** The kernel blob is read. *)
Definition kernel_readable (w : World) : Prop :=
  returns (ReadFile w "shaders/comp.spv") initial.

(** Every channel of the pixel has a defined conversion to a byte. *)
Definition convertible (p : Pixel) : Prop :=
  channel_to_byte (r p) <> None /\ channel_to_byte (g p) <> None /\
  channel_to_byte (b p) <> None /\ channel_to_byte (a p) <> None.

(** The buffer memory is mapped and every pixel read has defined
    conversions. *)
Definition memory_readable (w : World) : Prop :=
  exists pmapped_memory, mapped_memory w = Some pmapped_memory /\
    forall i, 0 <= i < kWidth * kHeight -> convertible (pmapped_memory i).

(** A world in which no step of [Run] throws or has undefined behaviour. *)
Definition cooperative (w : World) : Prop :=
  validation_available w /\ compute_device_present w /\
  kernel_readable w /\ memory_readable w.

(** A fully successful run: a cooperative world where every Vulkan call
    returns [VK_SUCCESS]. *)
Definition fully_successful (w : World) : Prop :=
  cooperative w /\ forall f, vk_result w f = VK_SUCCESS.

(** The entry points inside [VK_CHECK_RESULT], in the order of a run. *)
Definition checked_calls (ndebug : bool) : list VkFn :=
  [vkCreateInstance]
  ++ (if ndebug then [] else [vkCreateDebugReportCallbackEXT])
  ++ [vkCreateDevice; vkCreateBuffer; vkAllocateMemory; vkBindBufferMemory;
      vkCreateDescriptorSetLayout; vkCreateDescriptorPool;
      vkAllocateDescriptorSets; vkCreateShaderModule; vkCreatePipelineLayout;
      vkCreateComputePipelines; vkCreateCommandPool; vkAllocateCommandBuffers;
      vkBeginCommandBuffer; vkEndCommandBuffer; vkCreateFence; vkQueueSubmit;
      vkWaitForFences].

(** The entry points of a whole run, in order: setup, dispatch, wait,
    readback. *)
Definition setup_calls (ndebug : bool) : list VkFn :=
  [vkCreateInstance]
  ++ (if ndebug then [] else [vkCreateDebugReportCallbackEXT])
  ++ [vkCreateDevice; vkGetDeviceQueue;
      vkCreateBuffer; vkAllocateMemory; vkBindBufferMemory;
      vkCreateDescriptorSetLayout;
      vkCreateDescriptorPool; vkAllocateDescriptorSets; vkUpdateDescriptorSets;
      vkCreateShaderModule; vkCreatePipelineLayout; vkCreateComputePipelines;
      vkCreateCommandPool; vkAllocateCommandBuffers; vkBeginCommandBuffer;
      vkCmdBindPipeline; vkCmdBindDescriptorSets; vkCmdDispatch;
      vkEndCommandBuffer;
      vkCreateFence; vkQueueSubmit; vkWaitForFences; vkDestroyFence;
      vkMapMemory; vkUnmapMemory].

(** The entry points of the teardown, in order. *)
Definition teardown_calls (ndebug : bool) : list VkFn :=
  (if ndebug then [] else [vkDestroyDebugReportCallbackEXT])
  ++ [vkFreeMemory; vkDestroyBuffer; vkDestroyShaderModule;
      vkDestroyDescriptorPool; vkDestroyDescriptorSetLayout;
      vkDestroyPipelineLayout; vkDestroyPipeline; vkDestroyCommandPool;
      vkDestroyDevice; vkDestroyInstance].

(** The diagnostics of the failed calls, in order. *)
Definition diagnostics (w : World) : list Printf :=
  flat_map (fun f => if vk_result w f =? VK_SUCCESS then []
                     else [diagnostic w f])
           (checked_calls (NDEBUG w)).

(** *** Exceptions *)

(** Where a [std::runtime_error] with the message [what] is thrown: the six
    [throw] statements of the source, each with the condition it is under. *)
Definition runtime_error_condition (w : World) (what : string) : Prop :=
  (what = "Layer VK_LAYER_LUNARG_standard_validation not supported\n" /\
   NDEBUG w = false /\
   ~ In "VK_LAYER_LUNARG_standard_validation" (layer_properties w))
  \/
  (what = "Extension VK_EXT_DEBUG_REPORT_EXTENSION_NAME not supported\n" /\
   NDEBUG w = false /\
   ~ In VK_EXT_DEBUG_REPORT_EXTENSION_NAME (extension_properties w))
  \/
  (what = "Could not load vkCreateDebugReportCallbackEXT" /\
   NDEBUG w = false /\
   proc_addr w vkCreateDebugReportCallbackEXT = false)
  \/
  (what = "could not find a device with vulkan support" /\
   physical_devices w = [])
  \/
  (what = "could not find a queue family that supports operations" /\
   exists d ds, physical_devices w = d :: ds /\
     forall q, In q (queue_family_properties d) -> ~ usable_compute q)
  \/
  (what = "Could not load vkDestroyDebugReportCallbackEXT" /\
   NDEBUG w = false /\
   proc_addr w vkDestroyDebugReportCallbackEXT = false).

(** The computation [m] throws from no state. *)
Definition never_throws {A} (m : M A) : Prop :=
  forall s what s', m s <> (Throw what, s').

(** *** The GPU work and what comes after it *)

(** [Run] up to the end of [RunCommandBuffer] (lines 121-134): when it
    returns, the GPU work has completed. *)
Definition Run_setup (w : World) : M unit :=
  modify (set_buffer_size (uint32 (16 * kWidth * kHeight))) ;;
  CreateInstance w ;;
  FindPhysicalDevice w ;;
  CreateDevice w ;;
  CreateBuffer w ;;
  CreateDescriptorSetLayout w ;;
  CreateDescriptorSet w ;;
  CreateComputePipeline w ;;
  CreateCommandBuffer w ;;
  RunCommandBuffer w.

(** *** Lifetimes along a sequence of calls *)

Fixpoint filter_map {A B} (f : A -> option B) (l : list A) : list B :=
  match l with
  | [] => []
  | x :: rest =>
      match f x with
      | Some y => y :: filter_map f rest
      | None => filter_map f rest
      end
  end.

(** The objects created, in order of creation. *)
Definition created (fs : list VkFn) : list Resource := filter_map creates fs.

(** The objects destroyed, in order of destruction. *)
Definition destroyed (fs : list VkFn) : list Resource := filter_map destroys fs.

(** The objects that go with a pool when it is destroyed. *)
Definition freed_with (pool : Resource) : list Resource :=
  match pool with
  | descriptor_pool => [descriptor_set]
  | command_pool => [command_buffer]
  | _ => []
  end.

Definition Resource_mem (x : Resource) (l : list Resource) : bool :=
  existsb (Resource_eqb x) l.

(** The pairs [(parent, child)] such that [parent] is destroyed at a moment
    when [child], which was created from it, still exists; [live] are the
    objects that exist before the calls [fs], newest first. *)
Fixpoint dependency_violations (live : list Resource) (fs : list VkFn)
  : list (Resource * Resource) :=
  match fs with
  | [] => []
  | f :: rest =>
      match creates f, destroys f with
      | Some x, _ => dependency_violations (x :: live) rest
      | None, Some x =>
          let live' :=
            filter (fun y => negb (Resource_eqb y x)
                             && negb (Resource_mem y (freed_with x))) live in
          map (fun child => (x, child)) (filter (fun y => uses y x) live')
          ++ dependency_violations live' rest
      | None, None => dependency_violations live rest
      end
  end.

(** The objects that still exist after the calls [fs]. *)
Fixpoint remaining (live : list Resource) (fs : list VkFn) : list Resource :=
  match fs with
  | [] => live
  | f :: rest =>
      match creates f, destroys f with
      | Some x, _ => remaining (x :: live) rest
      | None, Some x =>
          remaining
            (filter (fun y => negb (Resource_eqb y x)
                              && negb (Resource_mem y (freed_with x))) live)
            rest
      | None, None => remaining live rest
      end
  end.

(** *** Rounding *)

(** Rounding to 24 bits an integer of 24 or 25 bits that comes with the
    location [l] of the exact value above it: the rounded integer. *)
Definition round24 (q : Z) (l : location) : Z :=
  if q <? 2 ^ 24 then round_nearest_even q l
  else 2 * round_nearest_even
             (q / 2) (loc_of_shr_record (shr_1 (shr_record_of_loc q l))).
(** *** Sequences of calls *)

(** [p] is an initial segment of [l]. *)
Definition prefix {A} (p l : list A) : Prop := exists rest, l = p ++ rest.

(** The entry points the program calls inside [VK_CHECK_RESULT]. *)
Definition is_checked (f : VkFn) : bool :=
  existsb (VkFn_eqb f) (checked_calls false).

(** What every run of [m] has in common with the sequence [fs] of entry
    points: the calls it makes are an initial segment of [fs], all of [fs]
    when it returns; it aborts only in a debug build, right after a checked
    call that failed and with the diagnostic of that call as the last line
    printed; and in a debug build every checked call before that one
    succeeded. *)
Definition follows (w : World) {A} (m : M A) (fs : list VkFn) : Prop :=
  forall s o s', m s = (o, s') ->
    exists q,
      (NDEBUG w = false ->
       forall f, In f q -> is_checked f = true -> vk_result w f = VK_SUCCESS) /\
      match o with
      | Ret _ => q = fs /\ map fn (calls s') = map fn (calls s) ++ q
      | Abort =>
          NDEBUG w = false /\
          exists f out,
            is_checked f = true /\ vk_result w f <> VK_SUCCESS /\
            prefix (q ++ [f]) fs /\
            map fn (calls s') = map fn (calls s) ++ q ++ [f] /\
            stdout s' = out ++ [diagnostic w f]
      | Throw _ | Undefined =>
          prefix q fs /\ map fn (calls s') = map fn (calls s) ++ q
      end.

(** The termination of the process for an outcome of [Run]. *)
Definition termination_of {A} (o : Outcome A) : Termination :=
  match o with
  | Ret _ => Exit EXIT_SUCCESS
  | Throw _ => Exit EXIT_FAILURE
  | Abort => Aborted
  | Undefined => UndefinedBehaviour
  end.

(** The entry points of a run up to the mapping of the memory. *)
Definition calls_before_map (ndebug : bool) : list VkFn :=
  [vkCreateInstance]
  ++ (if ndebug then [] else [vkCreateDebugReportCallbackEXT])
  ++ [vkCreateDevice; vkGetDeviceQueue;
      vkCreateBuffer; vkAllocateMemory; vkBindBufferMemory;
      vkCreateDescriptorSetLayout;
      vkCreateDescriptorPool; vkAllocateDescriptorSets; vkUpdateDescriptorSets;
      vkCreateShaderModule; vkCreatePipelineLayout; vkCreateComputePipelines;
      vkCreateCommandPool; vkAllocateCommandBuffers; vkBeginCommandBuffer;
      vkCmdBindPipeline; vkCmdBindDescriptorSets; vkCmdDispatch;
      vkEndCommandBuffer;
      vkCreateFence; vkQueueSubmit; vkWaitForFences; vkDestroyFence].

(** *** The calls of a run, with their arguments *)

(** The queue family index the search of lines 734-742 finds on the
    device [d]. *)
Definition selected_queue_family (d : VkPhysicalDevice) : Z :=
  GetComputeQueueFamilyIndex_loop (queue_family_properties d) 0.

(** The memory type index [CreateBuffer] asks [FindMemoryType] for on the
    device [d] (lines 397-398). *)
Definition selected_memory_type (w : World) (d : VkPhysicalDevice) : Z :=
  FindMemoryType_loop (memory_properties d)
    (memoryTypeBits (buffer_memory_requirements w))
    (Z.lor VK_MEMORY_PROPERTY_HOST_COHERENT_BIT
           VK_MEMORY_PROPERTY_HOST_VISIBLE_BIT)
    (Z.to_nat (memoryTypeCount (memory_properties d))) 0.

(** The calls of a run that returns, on the first device [d], with a kernel
    blob of padded length [codeSize]. *)
Definition expected_calls (w : World) (d : VkPhysicalDevice) (codeSize : Z)
  : list Call :=
  let i := selected_queue_family d in
  let buffer_size := uint32 (16 * kWidth * kHeight) in
  [vk_call vkCreateInstance [if NDEBUG w then 0 else 1]]
  ++ (if NDEBUG w then [] else [vk_call vkCreateDebugReportCallbackEXT []])
  ++ [vk_call vkCreateDevice [i];
      vk_call vkGetDeviceQueue [i; 0];
      vk_call vkCreateBuffer [buffer_size];
      vk_call vkAllocateMemory [size (buffer_memory_requirements w);
                                selected_memory_type w d];
      vk_call vkBindBufferMemory [0];
      vk_call vkCreateDescriptorSetLayout [0];
      vk_call vkCreateDescriptorPool [1];
      vk_call vkAllocateDescriptorSets [1];
      vk_call vkUpdateDescriptorSets [0; 0; buffer_size];
      vk_call vkCreateShaderModule [codeSize];
      vk_call vkCreatePipelineLayout [];
      vk_call vkCreateComputePipelines [];
      vk_call vkCreateCommandPool [i];
      vk_call vkAllocateCommandBuffers [1];
      vk_call vkBeginCommandBuffer [];
      vk_call vkCmdBindPipeline [];
      vk_call vkCmdBindDescriptorSets [];
      vk_call vkCmdDispatch [100; 75; 1];
      vk_call vkEndCommandBuffer [];
      vk_call vkCreateFence [];
      vk_call vkQueueSubmit [];
      vk_call vkWaitForFences [100000000000];
      vk_call vkDestroyFence [];
      vk_call vkMapMemory [0; buffer_size];
      vk_call vkUnmapMemory []]
  ++ map (fun f => vk_call f []) (teardown_calls (NDEBUG w)).

(** The same world with other layers, instance extensions and loadable
    extension entry points. *)
Definition with_validation (layers extensions : list string)
           (procs : VkFn -> bool) (w : World) : World :=
  {| NDEBUG := NDEBUG w;
     layer_properties := layers;
     extension_properties := extensions;
     proc_addr := procs;
     physical_devices := physical_devices w;
     vk_result := vk_result w;
     buffer_memory_requirements := buffer_memory_requirements w;
     fopen := fopen w;
     mapped_memory := mapped_memory w;
     lodepng_encode := lodepng_encode w |}.






(** *** Diagnostics *)

(** The line is a diagnostic of [VK_CHECK_RESULT]. *)
Definition is_diagnostic (p : Printf) : bool :=
  String.eqb (format p) "Fatal : VkResult is %d in %s at line %d\n".

(** The diagnostics that are due for a sequence of calls: one for each call
    inside [VK_CHECK_RESULT] that did not return [VK_SUCCESS]. *)
Definition due_diagnostics (w : World) (cs : list Call) : list Printf :=
  flat_map (fun c => if is_checked (fn c)
                        && negb (vk_result w (fn c) =? VK_SUCCESS)
                     then [diagnostic w (fn c)] else []) cs.

(** The diagnostics [m] prints are those due for the calls it makes. *)
Definition reports (w : World) {A} (m : M A) : Prop :=
  forall s o s', m s = (o, s') ->
    exists cs out,
      calls s' = calls s ++ cs /\ stdout s' = stdout s ++ out /\
      filter is_diagnostic out = due_diagnostics w cs.
(** ** Theorems *)

(** *** Bit tests *)

Lemma land_pow2_eqb (x n : Z) :
  0 <= n -> (Z.land x (2 ^ n) =? 0) = negb (Z.testbit x n).
Proof.
  intros Hn.
  assert (E : Z.land x (2 ^ n) = if Z.testbit x n then 2 ^ n else 0).
  { apply Z.bits_inj'. intros k Hk.
    rewrite Z.land_spec, Z.pow2_bits_eqb by assumption.
    destruct (Z.eqb_spec n k) as [->|Hne].
    - destruct (Z.testbit x k); cbn.
      + now rewrite Z.pow2_bits_true.
      + now rewrite Z.bits_0.
    - rewrite andb_false_r.
      destruct (Z.testbit x n).
      + rewrite Z.pow2_bits_false; auto.
      + now rewrite Z.bits_0. }
  rewrite E. destruct (Z.testbit x n); cbn.
  - apply Z.eqb_neq. pose proof (Z.pow_pos_nonneg 2 n). lia.
  - reflexivity.
Qed.

Lemma land_eq_iff_bits (x p : Z) :
  Z.land x p = p <->
  (forall k, Z.testbit p k = true -> Z.testbit x k = true).
Proof.
  split.
  - intros E k Hk. rewrite <- E in Hk. rewrite Z.land_spec in Hk.
    now apply andb_true_iff in Hk.
  - intros H. apply Z.bits_inj. intros k. rewrite Z.land_spec.
    destruct (Z.testbit p k) eqn:Hp.
    + now rewrite (H k Hp).
    + apply andb_false_r.
Qed.

Lemma uint32_shiftl_1 (i : Z) :
  0 <= i < 32 -> uint32 (Z.shiftl 1 i) = 2 ^ i.
Proof.
  intros Hi. unfold uint32. rewrite Z.shiftl_1_l.
  apply Z.mod_small. split.
  - apply Z.pow_nonneg. lia.
  - apply Z.pow_lt_mono_r; lia.
Qed.

Lemma uint32_shiftl_1_high (i : Z) :
  32 <= i -> uint32 (Z.shiftl 1 i) = 0.
Proof.
  intros Hi. unfold uint32. rewrite Z.shiftl_1_l.
  replace i with (32 + (i - 32)) by lia.
  rewrite Z.pow_add_r by lia.
  rewrite Z.mul_comm. apply Z.mod_mul. lia.
Qed.

Lemma testbit_high (x i : Z) :
  0 <= x < 2 ^ 32 -> 32 <= i -> Z.testbit x i = false.
Proof.
  intros Hx Hi.
  destruct (Z.eq_dec x 0) as [->|Hne]; [apply Z.bits_0|].
  apply Z.bits_above_log2; [lia|].
  assert (Z.log2 x < 32) by (apply Z.log2_lt_pow2; lia). lia.
Qed.

(** The test of line 763 is the test of bit [i] of the mask. *)
Lemma mask_test (memory_type_bits i : Z) :
  0 <= memory_type_bits < 2 ^ 32 -> 0 <= i ->
  negb (Z.land memory_type_bits (uint32 (Z.shiftl 1 i)) =? 0)
  = Z.testbit memory_type_bits i.
Proof.
  intros Hb Hi. destruct (Z_lt_le_dec i 32) as [Hlt|Hge].
  - rewrite uint32_shiftl_1 by lia. rewrite land_pow2_eqb by lia.
    apply negb_involutive.
  - rewrite uint32_shiftl_1_high by lia. rewrite Z.land_0_r.
    rewrite testbit_high by assumption. reflexivity.
Qed.

(** The test of line 738 on the flags is the test of the compute bit. *)
Lemma compute_test (flags : Z) :
  negb (Z.land flags VK_QUEUE_COMPUTE_BIT =? 0) = Z.testbit flags 1.
Proof.
  change VK_QUEUE_COMPUTE_BIT with (2 ^ 1).
  rewrite land_pow2_eqb by lia. apply negb_involutive.
Qed.

(** *** Memory-type selection *)

Lemma uint32_minus_1 : uint32 (-1) = UINT32_MAX.
Proof. reflexivity. Qed.

(** The condition of lines 763-764, against the vocabulary above. *)
Lemma FindMemoryType_test mp (memory_type_bits properties i : Z) :
  0 <= memory_type_bits < 2 ^ 32 -> 0 <= i ->
  negb (Z.land memory_type_bits (uint32 (Z.shiftl 1 i)) =? 0)
  && (Z.land (propertyFlags (nth (Z.to_nat i) (memoryTypes mp)
                                 {| propertyFlags := 0; heapIndex := 0 |}))
             properties =? properties) = true
  <-> type_allowed memory_type_bits i /\ has_properties mp properties i.
Proof.
  intros Hb Hi. rewrite andb_true_iff, mask_test by assumption.
  unfold type_allowed, has_properties.
  rewrite Z.eqb_eq, land_eq_iff_bits. reflexivity.
Qed.

Lemma FindMemoryType_loop_spec mp (memory_type_bits properties : Z) :
  0 <= memory_type_bits < 2 ^ 32 ->
  forall (n : nat) (i : Z), 0 <= i ->
    let found :=
      FindMemoryType_loop mp memory_type_bits properties n i in
    (i <= found < i + Z.of_nat n /\
     type_allowed memory_type_bits found /\
     has_properties mp properties found /\
     forall j, i <= j < found ->
       ~ (type_allowed memory_type_bits j /\ has_properties mp properties j))
    \/
    (found = UINT32_MAX /\
     forall j, i <= j < i + Z.of_nat n ->
       ~ (type_allowed memory_type_bits j /\ has_properties mp properties j)).
Proof.
  intros Hb n. induction n as [|n IH]; intros i Hi found.
  - right. split; [apply uint32_minus_1 | intros j Hj; cbn in Hj; lia].
  - subst found. cbn [FindMemoryType_loop].
    pose proof (FindMemoryType_test mp memory_type_bits properties i Hb Hi) as T.
    destruct (negb _ && _) eqn:E.
    + left. destruct T as [T _]. specialize (T eq_refl).
      repeat split; try tauto; try lia.
    + assert (N : ~ (type_allowed memory_type_bits i /\
                     has_properties mp properties i)).
      { intros K. apply T in K. congruence. }
      destruct (IH (i + 1) ltac:(lia)) as [(R & A & P & L) | (R & L)].
      * left. repeat split; try assumption; try lia.
        intros j Hj. destruct (Z.eq_dec j i) as [->|]; [assumption|].
        apply L. lia.
      * right. split; [assumption|].
        intros j Hj. destruct (Z.eq_dec j i) as [->|]; [assumption|].
        apply L. lia.
Qed.

(** *** Queue-family selection *)

Lemma GetComputeQueueFamilyIndex_test (props : VkQueueFamilyProperties) :
  (0 <? queueCount props)
  && negb (Z.land (queueFlags props) VK_QUEUE_COMPUTE_BIT =? 0) = true
  <-> usable_compute props.
Proof.
  rewrite andb_true_iff, compute_test, Z.ltb_lt. reflexivity.
Qed.

Lemma GetComputeQueueFamilyIndex_loop_spec :
  forall (queue_families : list VkQueueFamilyProperties) (i : Z),
    let found := GetComputeQueueFamilyIndex_loop queue_families i in
    (exists props,
        i <= found < i + Z.of_nat (List.length queue_families) /\
        nth_error queue_families (Z.to_nat (found - i)) = Some props /\
        usable_compute props /\
        forall j props', i <= j < found ->
          nth_error queue_families (Z.to_nat (j - i)) = Some props' ->
          ~ usable_compute props')
    \/
    (found = i + Z.of_nat (List.length queue_families) /\
     forall props, In props queue_families -> ~ usable_compute props).
Proof.
  induction queue_families as [|props rest IH]; intros i found.
  - right. cbn. split; [subst found; cbn; lia | tauto].
  - subst found. cbn [GetComputeQueueFamilyIndex_loop].
    pose proof (GetComputeQueueFamilyIndex_test props) as T.
    destruct (_ && _) eqn:E.
    + left. exists props. rewrite Z.sub_diag. cbn [Z.to_nat nth_error].
      split; [cbn [List.length]; lia|].
      split; [reflexivity|].
      split; [now apply T | intros; lia].
    + assert (N : ~ usable_compute props).
      { intros K. apply T in K. congruence. }
      destruct (IH (i + 1)) as [(q & R & Hq & U & L) | (R & L)].
      * left. exists q.
        set (found := GetComputeQueueFamilyIndex_loop rest (i + 1)) in *.
        replace (Z.to_nat (found - i)) with (S (Z.to_nat (found - (i + 1))))
          by lia.
        cbn [nth_error List.length].
        split; [lia|]. split; [assumption|]. split; [assumption|].
        intros j q' Hj Hq'. destruct (Z.eq_dec j i) as [->|Hne].
        -- rewrite Z.sub_diag in Hq'. cbn in Hq'. now inversion Hq'; subst.
        -- replace (Z.to_nat (j - i)) with (S (Z.to_nat (j - (i + 1)))) in Hq'
             by lia.
           cbn in Hq'. apply (L j q'); [lia | assumption].
      * right. split; [cbn [List.length]; lia|].
        intros q [<-|Hin]; [assumption | now apply L].
Qed.

(** C1 (as amended). With a physical device selected and a 32-bit mask,
    [FindMemoryType] always returns normally and leaves the state alone. Its
    value is either the lowest index of the device's memory types that is
    both allowed by the mask and has all the requested property flags, or,
    when no memory type satisfies both, the sentinel [(uint32_t)-1]. *)
Theorem FindMemoryType_lowest_or_sentinel :
  forall (s : App) (pd : VkPhysicalDevice) (memory_type_bits properties : Z),
    physical_device s = Some pd ->
    0 <= memory_type_bits < 2 ^ 32 ->
    exists i,
      FindMemoryType memory_type_bits properties s = (Ret i, s) /\
      ((suitable (memory_properties pd) memory_type_bits properties i /\
        forall j, suitable (memory_properties pd) memory_type_bits properties j ->
                  i <= j)
       \/
       (i = UINT32_MAX /\
        forall j, ~ suitable (memory_properties pd) memory_type_bits properties j)).
Proof.
  intros s pd bits props Hpd Hb.
  unfold FindMemoryType, bind, get. rewrite Hpd. unfold ret.
  set (mp := memory_properties pd).
  eexists. split; [reflexivity|].
  destruct (FindMemoryType_loop_spec mp bits props Hb
              (Z.to_nat (memoryTypeCount mp)) 0 ltac:(lia))
    as [(R & A & P & L) | (R & L)].
  - left. split.
    + unfold suitable. split; [lia|]. split; assumption.
    + intros j (Hj & Aj & Pj).
      destruct (Z_lt_le_dec j
                  (FindMemoryType_loop mp bits props
                     (Z.to_nat (memoryTypeCount mp)) 0)) as [Hlt|]; [|lia].
      exfalso. apply (L j); [lia | split; assumption].
  - right. split; [assumption|].
    intros j (Hj & Aj & Pj). apply (L j); [lia | split; assumption].
Qed.

Lemma FindMemoryType_lowest_or_sentinel_witness :
  let pd := {| queue_family_properties := [];
               memory_properties :=
                 {| memoryTypeCount := 2;
                    memoryTypes := [ {| propertyFlags := 1; heapIndex := 0 |};
                                     {| propertyFlags := 7; heapIndex := 1 |} ] |} |} in
  exists i,
    FindMemoryType 3 6 (set_physical_device pd initial)
    = (Ret i, set_physical_device pd initial) /\
    ((suitable (memory_properties pd) 3 6 i /\
      forall j, suitable (memory_properties pd) 3 6 j -> i <= j)
     \/
     (i = UINT32_MAX /\ forall j, ~ suitable (memory_properties pd) 3 6 j)).
Proof.
  intro pd.
  apply (FindMemoryType_lowest_or_sentinel (set_physical_device pd initial) pd 3 6).
  - reflexivity.
  - lia.
Defined.

(** C1, the part that fails. No memory type of this device satisfies both
    conditions for the mask 3 and the flags host-visible + host-coherent
    (types 0 and 1 are allowed but device-local only, type 2 has the flags
    but is not allowed), and [FindMemoryType] returns 4294967295 as an
    ordinary value: nothing is thrown and nothing aborts. [CreateBuffer]
    hands that value to [vkAllocateMemory] as the memory type index. *)
Lemma FindMemoryType_no_failure_signal :
  let mp := memory_properties device_without_host_memory in
  let s := set_physical_device device_without_host_memory start in
  let w := with_physical_devices [device_without_host_memory] sample_world in
  (forall j, ~ suitable mp 3 6 j) /\
  FindMemoryType 3 6 s = (Ret 4294967295, s) /\
  ~ signals_failure (fst (FindMemoryType 3 6 s)) /\
  CreateBuffer w s
  = (Ret tt,
     push_call (vk_call vkBindBufferMemory [0])
       (push_call (vk_call vkAllocateMemory [122880000; 4294967295])
          (push_call (vk_call vkCreateBuffer [122880000]) s))).
Proof.
  intros mp s w. split; [|split; [|split]].
  - intros j ((Hj0 & Hj1) & A & P). cbn in Hj1.
    assert (Hj : j = 0 \/ j = 1 \/ j = 2) by lia.
    destruct Hj as [-> | [-> | ->]].
    + specialize (P 1 eq_refl). cbv in P. discriminate.
    + specialize (P 1 eq_refl). cbv in P. discriminate.
    + cbv in A. discriminate.
  - reflexivity.
  - cbn. tauto.
  - reflexivity.
Qed.

(** C8. [GetComputeQueueFamilyIndex] reads nothing but the queue families of
    the selected physical device and changes no state: from two states with
    the same device enumeration it has the same outcome (the same index, or
    the same exception), and so has a second run right after a first. *)
Theorem GetComputeQueueFamilyIndex_deterministic :
  forall s s' : App,
    physical_device s = physical_device s' ->
    fst (GetComputeQueueFamilyIndex s) = fst (GetComputeQueueFamilyIndex s') /\
    snd (GetComputeQueueFamilyIndex s) = s /\
    fst (GetComputeQueueFamilyIndex (snd (GetComputeQueueFamilyIndex s)))
    = fst (GetComputeQueueFamilyIndex s).
Proof.
  intros s s' E.
  assert (St : forall t, snd (GetComputeQueueFamilyIndex t) = t).
  { intros t. unfold GetComputeQueueFamilyIndex, bind, get.
    destruct (physical_device t); [|reflexivity].
    destruct (_ =? _); reflexivity. }
  split; [|split].
  - unfold GetComputeQueueFamilyIndex, bind, get. rewrite E.
    destruct (physical_device s'); [|reflexivity].
    destruct (_ =? _); reflexivity.
  - apply St.
  - now rewrite St.
Qed.

Lemma GetComputeQueueFamilyIndex_deterministic_witness :
  let pd := {| queue_family_properties :=
                 [ {| queueFlags := 1; queueCount := 16 |};
                   {| queueFlags := 6; queueCount := 2 |} ];
               memory_properties :=
                 {| memoryTypeCount := 0; memoryTypes := [] |} |} in
  let s := set_physical_device pd initial in
  let s' := set_queue_family_index 7 s in
  fst (GetComputeQueueFamilyIndex s) = fst (GetComputeQueueFamilyIndex s') /\
  snd (GetComputeQueueFamilyIndex s) = s /\
  fst (GetComputeQueueFamilyIndex (snd (GetComputeQueueFamilyIndex s)))
  = fst (GetComputeQueueFamilyIndex s).
Proof.
  intros pd s s'.
  apply (GetComputeQueueFamilyIndex_deterministic s s'). reflexivity.
Defined.

(** *** Running computations *)

Lemma bind_bind {A B C} (m : M A) (k1 : A -> M B) (k2 : B -> M C) (s : App) :
  bind (bind m k1) k2 s = bind m (fun x => bind (k1 x) k2) s.
Proof. unfold bind. destruct (m s) as [[x| | |] s']; reflexivity. Qed.

(** [VK_CHECK_RESULT] in full: it returns when the call succeeded or the
    build is a release build, and aborts otherwise; it always leaves the
    state [checked]. *)
Lemma VK_CHECK_RESULT_cases (w : World) (f : VkFn) (xs : list Z) (s : App) :
  VK_CHECK_RESULT w f xs s
  = (if (vk_result w f =? VK_SUCCESS) || NDEBUG w then Ret tt else Abort,
     checked w f xs s).
Proof.
  unfold VK_CHECK_RESULT, checked, diagnostic, assert, bind, vk, printf,
    modify, ret, abort.
  destruct (vk_result w f =? VK_SUCCESS); cbn; [reflexivity|].
  destruct (NDEBUG w); reflexivity.
Qed.

Lemma VK_CHECK_RESULT_pass (w : World) (f : VkFn) (xs : list Z) (s : App) :
  checks_pass w -> VK_CHECK_RESULT w f xs s = (Ret tt, checked w f xs s).
Proof.
  intros [R | S]; rewrite VK_CHECK_RESULT_cases.
  - rewrite R, orb_true_r. reflexivity.
  - rewrite S. reflexivity.
Qed.

Lemma physical_device_checked w f xs s :
  physical_device (checked w f xs s) = physical_device s.
Proof. unfold checked. destruct (_ =? _); reflexivity. Qed.

Lemma queue_family_index_checked w f xs s :
  queue_family_index (checked w f xs s) = queue_family_index s.
Proof. unfold checked. destruct (_ =? _); reflexivity. Qed.

Lemma buffer_size_checked w f xs s :
  buffer_size (checked w f xs s) = buffer_size s.
Proof. unfold checked. destruct (_ =? _); reflexivity. Qed.

Lemma enabled_layers_checked w f xs s :
  enabled_layers (checked w f xs s) = enabled_layers s.
Proof. unfold checked. destruct (_ =? _); reflexivity. Qed.

Lemma encoded_checked w f xs s :
  encoded (checked w f xs s) = encoded s.
Proof. unfold checked. destruct (_ =? _); reflexivity. Qed.

Lemma calls_checked w f xs s :
  calls (checked w f xs s) = calls s ++ [vk_call f xs].
Proof. unfold checked. destruct (_ =? _); reflexivity. Qed.

Lemma stdout_checked w f xs s :
  stdout (checked w f xs s)
  = stdout s ++ (if vk_result w f =? VK_SUCCESS then [] else [diagnostic w f]).
Proof.
  unfold checked. destruct (_ =? _); cbn; [now rewrite app_nil_r | reflexivity].
Qed.

Create Rewrite HintDb app_fields.
#[local] Hint Rewrite physical_device_checked queue_family_index_checked
  buffer_size_checked enabled_layers_checked encoded_checked calls_checked
  stdout_checked : app_fields.

(** Reading a member of a state built by the setters above. *)
Ltac fields :=
  repeat (cbn [physical_device buffer_size queue_family_index enabled_layers
               encoded calls stdout push_call push_stdout set_physical_device
               set_queue_family_index set_buffer_size push_enabled_layer
               set_encoded];
          autorewrite with app_fields).

(** The validation layer is found by the loop of lines 171-177 exactly when
    it is among the layers. *)
Lemma found_layer_iff (name : string) (layers : list string) :
  fold_left (fun found prop => if String.eqb name prop then true else found)
            layers false = true
  <-> In name layers.
Proof.
  assert (G : forall acc,
             fold_left (fun found prop =>
                          if String.eqb name prop then true else found)
                       layers acc = true
             <-> acc = true \/ In name layers).
  { induction layers as [|l ls IH]; intros acc; cbn.
    - tauto.
    - rewrite IH. destruct (String.eqb_spec name l) as [->|Hne].
      + tauto.
      + intuition congruence. }
  rewrite G. split; [intros [H|H]; [discriminate | assumption] | auto].
Qed.

Lemma found_extension_iff (name : string) (extensions : list string) :
  existsb (String.eqb name) extensions = true <-> In name extensions.
Proof.
  rewrite existsb_exists. split.
  - intros (x & Hin & E). apply String.eqb_eq in E. now subst.
  - intros Hin. exists name. split; [assumption | apply String.eqb_refl].
Qed.

(** [CreateInstance] in a debug build that has what it asks for, or in a
    release build. *)
Lemma CreateInstance_returns (w : World) (s : App) :
  checks_pass w -> validation_available w ->
  exists s',
    CreateInstance w s = (Ret tt, s') /\
    physical_device s' = physical_device s /\
    buffer_size s' = buffer_size s /\
    queue_family_index s' = queue_family_index s /\
    encoded s' = encoded s /\
    map fn (calls s')
    = map fn (calls s)
      ++ [vkCreateInstance]
      ++ (if NDEBUG w then [] else [vkCreateDebugReportCallbackEXT]) /\
    stdout s'
    = stdout s
      ++ (if vk_result w vkCreateInstance =? VK_SUCCESS then []
          else [diagnostic w vkCreateInstance])
      ++ (if NDEBUG w then []
          else if vk_result w vkCreateDebugReportCallbackEXT =? VK_SUCCESS
               then [] else [diagnostic w vkCreateDebugReportCallbackEXT]).
Proof.
  intros P V. unfold CreateInstance, kEnableValidationLayers.
  unfold validation_available in V.
  destruct (NDEBUG w) eqn:N; cbn [negb when].
  - eexists. split.
    + unfold bind. cbn [ret get].
      rewrite (VK_CHECK_RESULT_pass w _ _ _ P). reflexivity.
    + fields. rewrite map_app, !app_nil_r.
      repeat split; reflexivity.
  - destruct (V eq_refl) as (L & E & C & D).
    apply found_layer_iff in L. apply found_extension_iff in E.
    rewrite L, E, C. cbn [negb when].
    eexists. split.
    + unfold bind. cbn [ret get modify].
      rewrite !(VK_CHECK_RESULT_pass w _ _ _ P). reflexivity.
    + fields. rewrite !map_app, <- !app_assoc.
      repeat split; reflexivity.
Qed.

Lemma FindPhysicalDevice_first (w : World) (s : App) d ds :
  physical_devices w = d :: ds ->
  FindPhysicalDevice w s = (Ret tt, set_physical_device d s).
Proof. intros E. unfold FindPhysicalDevice. rewrite E. reflexivity. Qed.

Lemma FindPhysicalDevice_none (w : World) (s : App) :
  physical_devices w = [] ->
  FindPhysicalDevice w s
  = (Throw "could not find a device with vulkan support", s).
Proof. intros E. unfold FindPhysicalDevice. rewrite E. reflexivity. Qed.

(** The outcome of [GetComputeQueueFamilyIndex] on a selected device. *)
Lemma GetComputeQueueFamilyIndex_spec (s : App) (pd : VkPhysicalDevice) :
  physical_device s = Some pd ->
  (exists i props,
      GetComputeQueueFamilyIndex s = (Ret i, s) /\
      0 <= i /\
      nth_error (queue_family_properties pd) (Z.to_nat i) = Some props /\
      usable_compute props /\
      forall j props', 0 <= j < i ->
        nth_error (queue_family_properties pd) (Z.to_nat j) = Some props' ->
        ~ usable_compute props')
  \/
  (GetComputeQueueFamilyIndex s
   = (Throw "could not find a queue family that supports operations", s) /\
   forall props, In props (queue_family_properties pd) ->
                 ~ usable_compute props).
Proof.
  intros Hpd. unfold GetComputeQueueFamilyIndex, bind, get. rewrite Hpd.
  destruct (GetComputeQueueFamilyIndex_loop_spec (queue_family_properties pd) 0)
    as [(q & R & Hq & U & L) | (R & L)].
  - left.
    exists (GetComputeQueueFamilyIndex_loop (queue_family_properties pd) 0), q.
    rewrite Z.sub_0_r in Hq.
    destruct (Z.eqb_spec
                (GetComputeQueueFamilyIndex_loop (queue_family_properties pd) 0)
                (Z.of_nat (List.length (queue_family_properties pd))))
      as [E|_]; [lia|].
    split; [reflexivity|]. split; [lia|]. split; [assumption|].
    split; [assumption|].
    intros j q' Hj Hq'. apply (L j q'); [lia|]. now rewrite Z.sub_0_r.
  - right. rewrite R, Z.add_0_l, Z.eqb_refl. split; [reflexivity | assumption].
Qed.

Lemma usable_compute_found (s : App) pd :
  physical_device s = Some pd ->
  (exists q, In q (queue_family_properties pd) /\ usable_compute q) ->
  exists i, GetComputeQueueFamilyIndex s = (Ret i, s).
Proof.
  intros Hpd (q & Hin & U).
  destruct (GetComputeQueueFamilyIndex_spec s pd Hpd)
    as [(i & props & E & _) | (_ & N)].
  - now exists i.
  - exfalso. now apply (N q).
Qed.

Lemma CreateDevice_returns (w : World) (s : App) pd :
  checks_pass w ->
  physical_device s = Some pd ->
  (exists q, In q (queue_family_properties pd) /\ usable_compute q) ->
  exists s' i,
    CreateDevice w s = (Ret tt, s') /\
    physical_device s' = Some pd /\
    buffer_size s' = buffer_size s /\
    encoded s' = encoded s /\
    calls s' = calls s ++ [vk_call vkCreateDevice [i];
                           vk_call vkGetDeviceQueue [i; 0]] /\
    stdout s'
    = stdout s ++ (if vk_result w vkCreateDevice =? VK_SUCCESS then []
                   else [diagnostic w vkCreateDevice]).
Proof.
  intros P Hpd Hq.
  destruct (usable_compute_found s pd Hpd Hq) as (i & E).
  eexists. exists i. split.
  - unfold CreateDevice. unfold bind at 1. rewrite E.
    unfold bind, modify, vk.
    rewrite (VK_CHECK_RESULT_pass w _ _ _ P). reflexivity.
  - fields. rewrite <- ?app_assoc.
    repeat split; try reflexivity. assumption.
Qed.

Lemma FindMemoryType_returns (s : App) pd (memory_type_bits properties : Z) :
  physical_device s = Some pd ->
  exists i, FindMemoryType memory_type_bits properties s = (Ret i, s).
Proof.
  intros Hpd. unfold FindMemoryType, bind, get. rewrite Hpd.
  eexists. reflexivity.
Qed.

Lemma CreateBuffer_returns (w : World) (s : App) pd :
  checks_pass w ->
  physical_device s = Some pd ->
  exists s' i,
    CreateBuffer w s = (Ret tt, s') /\
    buffer_size s' = buffer_size s /\
    encoded s' = encoded s /\
    calls s'
    = calls s ++ [vk_call vkCreateBuffer [buffer_size s];
                  vk_call vkAllocateMemory
                          [size (buffer_memory_requirements w); i];
                  vk_call vkBindBufferMemory [0]] /\
    stdout s'
    = stdout s
      ++ (if vk_result w vkCreateBuffer =? VK_SUCCESS then []
          else [diagnostic w vkCreateBuffer])
      ++ (if vk_result w vkAllocateMemory =? VK_SUCCESS then []
          else [diagnostic w vkAllocateMemory])
      ++ (if vk_result w vkBindBufferMemory =? VK_SUCCESS then []
          else [diagnostic w vkBindBufferMemory]).
Proof.
  intros P Hpd.
  destruct (FindMemoryType_returns
              (checked w vkCreateBuffer [buffer_size s] s) pd
              (memoryTypeBits (buffer_memory_requirements w))
              (Z.lor VK_MEMORY_PROPERTY_HOST_COHERENT_BIT
                     VK_MEMORY_PROPERTY_HOST_VISIBLE_BIT))
    as (i & E).
  { now rewrite physical_device_checked. }
  eexists. exists i. split.
  - unfold CreateBuffer. unfold bind at 1. cbn [get].
    unfold bind at 1. rewrite (VK_CHECK_RESULT_pass w _ _ _ P).
    unfold bind at 1. rewrite E.
    unfold bind. rewrite !(VK_CHECK_RESULT_pass w _ _ _ P). reflexivity.
  - fields. rewrite <- !app_assoc.
    repeat split; reflexivity.
Qed.

Lemma ReadFile_returns (w : World) (filename : string) (s0 : App) :
  returns (ReadFile w filename) s0 ->
  forall s, exists file, ReadFile w filename s = (Ret file, s).
Proof.
  intros (x & s' & E) s. revert E. unfold ReadFile.
  destruct (fopen w filename) as [bytes|].
  - destruct (to_long _) as [q|].
    + intros _. eexists. reflexivity.
    + discriminate.
  - discriminate.
Qed.

Lemma group_count_kWidth : group_count kWidth kWorkgroupeSize = Some 100.
Proof. vm_compute. reflexivity. Qed.

Lemma group_count_kHeight : group_count kHeight kWorkgroupeSize = Some 75.
Proof. vm_compute. reflexivity. Qed.

Lemma SaveRenderedImage_loop_total (pmapped_memory : Z -> Pixel) :
  forall (n : nat) (i : Z) (image : list Z),
    (forall j, i <= j < i + Z.of_nat n -> convertible (pmapped_memory j)) ->
    exists image',
      SaveRenderedImage_loop pmapped_memory n i image = Some image' /\
      List.length image' = (List.length image + 4 * n)%nat.
Proof.
  induction n as [|n IH]; intros i image H.
  - exists image. split; [reflexivity | lia].
  - cbn [SaveRenderedImage_loop].
    destruct (H i ltac:(lia)) as (Hr & Hg & Hb & Ha).
    destruct (channel_to_byte (r (pmapped_memory i))); [|congruence].
    destruct (channel_to_byte (g (pmapped_memory i))); [|congruence].
    destruct (channel_to_byte (b (pmapped_memory i))); [|congruence].
    destruct (channel_to_byte (a (pmapped_memory i))); [|congruence].
    destruct (IH (i + 1) (image ++ [z; z0; z1; z2])) as (image' & E & Len).
    { intros j Hj. apply H. lia. }
    exists image'. split; [assumption|].
    rewrite Len, length_app. cbn [List.length]. lia.
Qed.

Lemma CreateDescriptorSetLayout_returns (w : World) (s : App) :
  checks_pass w ->
  CreateDescriptorSetLayout w s
  = (Ret tt, checked w vkCreateDescriptorSetLayout [0] s).
Proof. intros P. apply VK_CHECK_RESULT_pass, P. Qed.

Lemma CreateDescriptorSet_returns (w : World) (s : App) :
  checks_pass w ->
  exists s',
    CreateDescriptorSet w s = (Ret tt, s') /\
    buffer_size s' = buffer_size s /\
    queue_family_index s' = queue_family_index s /\
    encoded s' = encoded s /\
    calls s'
    = calls s ++ [vk_call vkCreateDescriptorPool [1];
                  vk_call vkAllocateDescriptorSets [1];
                  vk_call vkUpdateDescriptorSets [0; 0; buffer_size s]] /\
    stdout s'
    = stdout s
      ++ (if vk_result w vkCreateDescriptorPool =? VK_SUCCESS then []
          else [diagnostic w vkCreateDescriptorPool])
      ++ (if vk_result w vkAllocateDescriptorSets =? VK_SUCCESS then []
          else [diagnostic w vkAllocateDescriptorSets]).
Proof.
  intros P. eexists. split.
  - unfold CreateDescriptorSet, bind.
    rewrite !(VK_CHECK_RESULT_pass w _ _ _ P). reflexivity.
  - fields. rewrite <- !app_assoc. repeat split; reflexivity.
Qed.

Lemma CreateComputePipeline_returns (w : World) (s : App) :
  checks_pass w -> kernel_readable w ->
  exists s' file_length,
    CreateComputePipeline w s = (Ret tt, s') /\
    buffer_size s' = buffer_size s /\
    queue_family_index s' = queue_family_index s /\
    encoded s' = encoded s /\
    calls s'
    = calls s ++ [vk_call vkCreateShaderModule [file_length];
                  vk_call vkCreatePipelineLayout [];
                  vk_call vkCreateComputePipelines []] /\
    stdout s'
    = stdout s
      ++ (if vk_result w vkCreateShaderModule =? VK_SUCCESS then []
          else [diagnostic w vkCreateShaderModule])
      ++ (if vk_result w vkCreatePipelineLayout =? VK_SUCCESS then []
          else [diagnostic w vkCreatePipelineLayout])
      ++ (if vk_result w vkCreateComputePipelines =? VK_SUCCESS then []
          else [diagnostic w vkCreateComputePipelines]).
Proof.
  intros P K.
  destruct (ReadFile_returns w _ _ K s) as (file & E).
  eexists. exists (fst file). split.
  - unfold CreateComputePipeline. unfold bind at 1. rewrite E.
    unfold bind. rewrite !(VK_CHECK_RESULT_pass w _ _ _ P). reflexivity.
  - fields. rewrite <- !app_assoc. repeat split; reflexivity.
Qed.

Lemma CreateCommandBuffer_returns (w : World) (s : App) :
  checks_pass w ->
  exists s',
    CreateCommandBuffer w s = (Ret tt, s') /\
    buffer_size s' = buffer_size s /\
    encoded s' = encoded s /\
    calls s'
    = calls s ++ [vk_call vkCreateCommandPool [queue_family_index s];
                  vk_call vkAllocateCommandBuffers [1];
                  vk_call vkBeginCommandBuffer [];
                  vk_call vkCmdBindPipeline [];
                  vk_call vkCmdBindDescriptorSets [];
                  vk_call vkCmdDispatch [100; 75; 1];
                  vk_call vkEndCommandBuffer []] /\
    stdout s'
    = stdout s
      ++ (if vk_result w vkCreateCommandPool =? VK_SUCCESS then []
          else [diagnostic w vkCreateCommandPool])
      ++ (if vk_result w vkAllocateCommandBuffers =? VK_SUCCESS then []
          else [diagnostic w vkAllocateCommandBuffers])
      ++ (if vk_result w vkBeginCommandBuffer =? VK_SUCCESS then []
          else [diagnostic w vkBeginCommandBuffer])
      ++ (if vk_result w vkEndCommandBuffer =? VK_SUCCESS then []
          else [diagnostic w vkEndCommandBuffer]).
Proof.
  intros P. eexists. split.
  - unfold CreateCommandBuffer.
    rewrite group_count_kWidth, group_count_kHeight.
    unfold bind. cbn [get].
    rewrite !(VK_CHECK_RESULT_pass w _ _ _ P). cbn [vk modify].
    rewrite !(VK_CHECK_RESULT_pass w _ _ _ P). reflexivity.
  - fields. rewrite <- !app_assoc. repeat split; reflexivity.
Qed.

Lemma RunCommandBuffer_returns (w : World) (s : App) :
  checks_pass w ->
  exists s',
    RunCommandBuffer w s = (Ret tt, s') /\
    buffer_size s' = buffer_size s /\
    encoded s' = encoded s /\
    calls s'
    = calls s ++ [vk_call vkCreateFence [];
                  vk_call vkQueueSubmit [];
                  vk_call vkWaitForFences [100000000000];
                  vk_call vkDestroyFence []] /\
    stdout s'
    = stdout s
      ++ (if vk_result w vkCreateFence =? VK_SUCCESS then []
          else [diagnostic w vkCreateFence])
      ++ (if vk_result w vkQueueSubmit =? VK_SUCCESS then []
          else [diagnostic w vkQueueSubmit])
      ++ (if vk_result w vkWaitForFences =? VK_SUCCESS then []
          else [diagnostic w vkWaitForFences]).
Proof.
  intros P. eexists. split.
  - unfold RunCommandBuffer, bind.
    rewrite !(VK_CHECK_RESULT_pass w _ _ _ P). reflexivity.
  - fields. rewrite <- !app_assoc. repeat split; reflexivity.
Qed.

Lemma SaveRenderedImage_returns (w : World) (s : App) :
  memory_readable w ->
  exists s' image,
    SaveRenderedImage w s = (Ret tt, s') /\
    encoded s' = Some (image, kWidth, kHeight) /\
    Z.of_nat (List.length image) = kWidth * kHeight * 4 /\
    calls s' = calls s ++ [vk_call vkMapMemory [0; buffer_size s];
                           vk_call vkUnmapMemory []] /\
    stdout s'
    = stdout s ++ (if lodepng_encode w =? 0 then []
                   else [encoder_error (lodepng_encode w)]).
Proof.
  intros (mem & Hm & Hc).
  destruct (SaveRenderedImage_loop_total mem (Z.to_nat (kWidth * kHeight)) 0 [])
    as (image & E & Len).
  { intros j Hj. apply Hc. lia. }
  exists ((if lodepng_encode w =? 0 then fun t => t
           else push_stdout (encoder_error (lodepng_encode w)))
            (set_encoded image kWidth kHeight
               (push_call (vk_call vkUnmapMemory [])
                  (push_call (vk_call vkMapMemory [0; buffer_size s]) s)))).
  exists image. split.
  - unfold SaveRenderedImage. unfold bind at 1. cbn [get].
    unfold bind at 1. cbn [vk modify]. rewrite Hm, E.
    unfold bind, when, vk, modify, printf.
    destruct (lodepng_encode w =? 0); reflexivity.
  - split.
    + destruct (lodepng_encode w =? 0); reflexivity.
    + split.
      * rewrite Len. cbn [List.length]. rewrite Nat2Z.inj_add, Nat2Z.inj_mul.
        rewrite Z2Nat.id by (unfold kWidth, kHeight; lia). lia.
      * destruct (lodepng_encode w =? 0); cbn; rewrite <- ?app_assoc;
          rewrite ?app_nil_r; split; reflexivity.
Qed.

Lemma CleanUp_returns (w : World) (s : App) :
  validation_available w ->
  exists s',
    CleanUp w s = (Ret tt, s') /\
    encoded s' = encoded s /\
    calls s'
    = calls s ++ map (fun f => vk_call f []) (teardown_calls (NDEBUG w)) /\
    stdout s' = stdout s.
Proof.
  intros V. unfold validation_available in V.
  unfold CleanUp, kEnableValidationLayers, teardown_calls.
  destruct (NDEBUG w); cbn [negb when].
  - eexists. split; [reflexivity|]. cbn.
    rewrite <- !app_assoc. repeat split; reflexivity.
  - destruct (V eq_refl) as (_ & _ & _ & D). rewrite D. cbn [negb when].
    eexists. split; [reflexivity|]. cbn.
    rewrite <- !app_assoc. repeat split; reflexivity.
Qed.

(** A run in a cooperative world where no check aborts: it returns, having
    made exactly the calls of the setup and of the teardown, dispatched
    100 x 75 x 1 groups, printed the diagnostics of the failed calls and the
    encoder's error, and handed a [kWidth] x [kHeight] RGBA image to the
    encoder. *)
Lemma Run_returns (w : World) :
  checks_pass w -> cooperative w ->
  exists s' image,
    Run w initial = (Ret tt, s') /\
    map fn (calls s') = setup_calls (NDEBUG w) ++ teardown_calls (NDEBUG w) /\
    In (vk_call vkCmdDispatch [100; 75; 1]) (calls s') /\
    stdout s'
    = diagnostics w ++ (if lodepng_encode w =? 0 then []
                        else [encoder_error (lodepng_encode w)]) /\
    encoded s' = Some (image, kWidth, kHeight) /\
    Z.of_nat (List.length image) = kWidth * kHeight * 4.
Proof.
  intros P (V & (d & ds & Hd & Hq) & K & R).
  unfold Run. unfold bind at 1. cbn [modify]. fold start.
  destruct (CreateInstance_returns w start P V)
    as (s1 & E1 & _ & B1 & _ & _ & C1 & O1).
  unfold bind at 1. rewrite E1.
  unfold bind at 1. rewrite (FindPhysicalDevice_first w s1 d ds Hd).
  destruct (CreateDevice_returns w (set_physical_device d s1) d P eq_refl Hq)
    as (s2 & i & E2 & D2 & B2 & _ & C2 & O2).
  unfold bind at 1. rewrite E2.
  destruct (CreateBuffer_returns w s2 d P D2)
    as (s3 & j & E3 & B3 & _ & C3 & O3).
  unfold bind at 1. rewrite E3.
  unfold bind at 1. rewrite (CreateDescriptorSetLayout_returns w s3 P).
  destruct (CreateDescriptorSet_returns w
              (checked w vkCreateDescriptorSetLayout [0] s3) P)
    as (s4 & E4 & B4 & _ & _ & C4 & O4).
  unfold bind at 1. rewrite E4.
  destruct (CreateComputePipeline_returns w s4 P K)
    as (s5 & len & E5 & B5 & _ & _ & C5 & O5).
  unfold bind at 1. rewrite E5.
  destruct (CreateCommandBuffer_returns w s5 P)
    as (s6 & E6 & B6 & _ & C6 & O6).
  unfold bind at 1. rewrite E6.
  destruct (RunCommandBuffer_returns w s6 P)
    as (s7 & E7 & B7 & _ & C7 & O7).
  unfold bind at 1. rewrite E7.
  destruct (SaveRenderedImage_returns w s7 R)
    as (s8 & image & E8 & I8 & L8 & C8 & O8).
  unfold bind at 1. rewrite E8.
  destruct (CleanUp_returns w s8 V) as (s9 & E9 & I9 & C9 & O9).
  rewrite E9. exists s9, image.
  split; [reflexivity|].
  assert (Cs : calls s6
               = calls s5 ++ [vk_call vkCreateCommandPool [queue_family_index s5];
                              vk_call vkAllocateCommandBuffers [1];
                              vk_call vkBeginCommandBuffer [];
                              vk_call vkCmdBindPipeline [];
                              vk_call vkCmdBindDescriptorSets [];
                              vk_call vkCmdDispatch [100; 75; 1];
                              vk_call vkEndCommandBuffer []]) by exact C6.
  split; [|split; [|split; [|split]]].
  - rewrite C9, C8, C7, C6, C5, C4, calls_checked, C3, C2. fields.
    rewrite !map_app, C1. unfold setup_calls, teardown_calls, start.
    cbn [map fn calls set_buffer_size initial app].
    destruct (NDEBUG w); cbn [map fn app]; rewrite <- ?app_assoc;
      reflexivity.
  - rewrite C9, C8, C7, Cs. rewrite !in_app_iff. do 3 left. right.
    cbn. tauto.
  - rewrite O9, O8, O7, O6, O5, O4, stdout_checked, O3, O2. fields.
    rewrite O1. unfold diagnostics, checked_calls, start.
    cbn [stdout set_buffer_size initial app].
    destruct (NDEBUG w); cbn [flat_map app]; rewrite <- ?app_assoc;
      rewrite ?app_nil_r; reflexivity.
  - now rewrite I9.
  - assumption.
Qed.

(** *** The sample world *)

Lemma sample_world_kernel_readable : kernel_readable sample_world.
Proof. eexists. eexists. vm_compute. reflexivity. Qed.

Lemma black_convertible : convertible black.
Proof. repeat split; vm_compute; discriminate. Qed.

Lemma sample_world_cooperative : cooperative sample_world.
Proof.
  split; [|split; [|split]].
  - intros N. discriminate N.
  - exists sample_device, []. split; [reflexivity|].
    exists {| queueFlags := 7; queueCount := 16 |}. split.
    + cbn. tauto.
    + split; [cbn; lia | reflexivity].
  - exact sample_world_kernel_readable.
  - exists (fun _ => black). split; [reflexivity|].
    intros i _. exact black_convertible.
Qed.

Lemma sample_world_debug_cooperative :
  cooperative (with_NDEBUG false sample_world).
Proof.
  destruct sample_world_cooperative as (_ & D & K & R).
  split; [|split; [|split]]; try assumption.
  intros _. cbn. tauto.
Qed.

Lemma sample_world_fully_successful : fully_successful sample_world.
Proof. split; [exact sample_world_cooperative | reflexivity]. Qed.

(** *** The process *)

Lemma diagnostics_success (w : World) :
  (forall f, vk_result w f = VK_SUCCESS) -> diagnostics w = [].
Proof.
  intros S. unfold diagnostics.
  induction (checked_calls (NDEBUG w)) as [|f fs IH]; [reflexivity|].
  cbn [flat_map]. now rewrite S, IH.
Qed.

(** In a cooperative world where no check aborts the process exits with
    code 0. *)
Lemma main_returns (w : World) :
  checks_pass w -> cooperative w ->
  fst (main w) = Exit EXIT_SUCCESS /\
  map fn (calls (snd (main w)))
  = setup_calls (NDEBUG w) ++ teardown_calls (NDEBUG w) /\
  In (vk_call vkCmdDispatch [100; 75; 1]) (calls (snd (main w))) /\
  stdout (snd (main w))
  = diagnostics w ++ (if lodepng_encode w =? 0 then []
                      else [encoder_error (lodepng_encode w)]).
Proof.
  intros P C.
  destruct (Run_returns w P C) as (s' & image & E & Cs & D & O & _).
  unfold main. rewrite E. cbn [fst snd]. repeat split; assumption.
Qed.

(** *** Where exceptions come from *)

Lemma bind_throw_inv {A B} (m : M A) (k : A -> M B) s what s' :
  bind m k s = (Throw what, s') ->
  m s = (Throw what, s') \/
  exists x s1, m s = (Ret x, s1) /\ k x s1 = (Throw what, s').
Proof.
  unfold bind. destruct (m s) as [[x|e| |] s1]; intros H.
  - right. now exists x, s1.
  - left. inversion H. reflexivity.
  - discriminate.
  - discriminate.
Qed.

Lemma never_throws_bind {A B} (m : M A) (k : A -> M B) :
  never_throws m -> (forall x, never_throws (k x)) -> never_throws (bind m k).
Proof.
  intros Hm Hk s what s' H.
  apply bind_throw_inv in H as [H | (x & s1 & _ & H)].
  - now apply Hm in H.
  - now apply Hk in H.
Qed.

Lemma never_throws_ret {A} (x : A) : never_throws (ret x).
Proof. intros s what s'. discriminate. Qed.

Lemma never_throws_get : never_throws get.
Proof. intros s what s'. discriminate. Qed.

Lemma never_throws_modify f : never_throws (modify f).
Proof. intros s what s'. discriminate. Qed.

Lemma never_throws_undefined {A} : never_throws (@undefined A).
Proof. intros s what s'. discriminate. Qed.

Lemma never_throws_vk f xs : never_throws (vk f xs).
Proof. apply never_throws_modify. Qed.

Lemma never_throws_printf fmt xs : never_throws (printf fmt xs).
Proof. apply never_throws_modify. Qed.

Lemma never_throws_when c m : never_throws m -> never_throws (when c m).
Proof. destruct c; [trivial | intros _; apply never_throws_ret]. Qed.

Lemma never_throws_VK_CHECK_RESULT w f xs :
  never_throws (VK_CHECK_RESULT w f xs).
Proof.
  intros s what s'. rewrite VK_CHECK_RESULT_cases.
  destruct (_ || _); discriminate.
Qed.

Lemma never_throws_FindMemoryType bits props :
  never_throws (FindMemoryType bits props).
Proof.
  intros s what s'. unfold FindMemoryType, bind, get.
  destruct (physical_device s); discriminate.
Qed.

Lemma never_throws_ReadFile w filename : never_throws (ReadFile w filename).
Proof.
  intros s what s'. unfold ReadFile.
  destruct (fopen w filename); [destruct (to_long _)|]; discriminate.
Qed.

Create HintDb throws discriminated.
#[local] Hint Resolve never_throws_bind never_throws_ret never_throws_get
  never_throws_modify never_throws_undefined never_throws_vk
  never_throws_printf never_throws_when never_throws_VK_CHECK_RESULT
  never_throws_FindMemoryType never_throws_ReadFile : throws.

Ltac no_throw :=
  cbv beta;
  lazymatch goal with
  | |- never_throws (bind _ _) =>
      apply never_throws_bind; [no_throw | intros ?; no_throw]
  | |- never_throws (when _ _) => apply never_throws_when; no_throw
  | |- never_throws _ => solve [auto with throws]
  end.

(** [H] says that a computation that never throws has thrown. *)
Ltac absurd_throw H :=
  exfalso; revert H;
  lazymatch goal with
  | |- ?m ?s = (Throw ?what, ?s') -> False =>
      cut (never_throws m); [let N := fresh "N" in intros N; apply N | no_throw]
  end.

Lemma never_throws_CreateBuffer w : never_throws (CreateBuffer w).
Proof. unfold CreateBuffer. no_throw. Qed.

Lemma never_throws_CreateDescriptorSetLayout w :
  never_throws (CreateDescriptorSetLayout w).
Proof. unfold CreateDescriptorSetLayout. no_throw. Qed.

Lemma never_throws_CreateDescriptorSet w : never_throws (CreateDescriptorSet w).
Proof. unfold CreateDescriptorSet. no_throw. Qed.

Lemma never_throws_CreateComputePipeline w :
  never_throws (CreateComputePipeline w).
Proof. unfold CreateComputePipeline. no_throw. Qed.

Lemma never_throws_CreateCommandBuffer w : never_throws (CreateCommandBuffer w).
Proof.
  unfold CreateCommandBuffer.
  destruct (group_count kWidth kWorkgroupeSize);
    destruct (group_count kHeight kWorkgroupeSize); no_throw.
Qed.

Lemma never_throws_RunCommandBuffer w : never_throws (RunCommandBuffer w).
Proof. unfold RunCommandBuffer. no_throw. Qed.

Lemma never_throws_SaveRenderedImage w : never_throws (SaveRenderedImage w).
Proof.
  unfold SaveRenderedImage. apply never_throws_bind; [no_throw|]. intros s.
  apply never_throws_bind; [no_throw|]. intros _.
  destruct (mapped_memory w); [|no_throw].
  destruct (SaveRenderedImage_loop _ _ _ _); no_throw.
Qed.

#[local] Hint Resolve never_throws_CreateBuffer
  never_throws_CreateDescriptorSetLayout never_throws_CreateDescriptorSet
  never_throws_CreateComputePipeline never_throws_CreateCommandBuffer
  never_throws_RunCommandBuffer never_throws_SaveRenderedImage : throws.

(** The exceptions of [CreateInstance]. *)
Lemma CreateInstance_throws (w : World) (s s' : App) (what : string) :
  CreateInstance w s = (Throw what, s') ->
  runtime_error_condition w what.
Proof.
  unfold CreateInstance, kEnableValidationLayers, runtime_error_condition.
  destruct (NDEBUG w) eqn:N; cbn [negb when].
  - intros H. absurd_throw H.
  - destruct (fold_left _ _ _) eqn:L; cbn [negb when].
    + destruct (existsb _ _) eqn:X; cbn [negb when].
      * destruct (proc_addr w vkCreateDebugReportCallbackEXT) eqn:C;
          cbn [negb when].
        -- intros H. absurd_throw H.
        -- unfold bind. cbn [ret get modify].
           rewrite VK_CHECK_RESULT_cases.
           destruct (_ || _); [|discriminate].
           cbn [throw]. intros H. inversion H. tauto.
      * unfold bind. cbn. intros H. inversion H. right. left.
        split; [reflexivity|]. split; [reflexivity|].
        intros I. apply found_extension_iff in I. congruence.
    + unfold bind. cbn. intros H. inversion H. left.
      split; [reflexivity|]. split; [reflexivity|].
      intros I. apply found_layer_iff in I. congruence.
Qed.

(** The exception of [CleanUp]. *)
Lemma CleanUp_throws (w : World) (s s' : App) (what : string) :
  CleanUp w s = (Throw what, s') ->
  runtime_error_condition w what.
Proof.
  unfold CleanUp, kEnableValidationLayers, runtime_error_condition.
  destruct (NDEBUG w) eqn:N; cbn [negb when].
  - intros H. absurd_throw H.
  - destruct (proc_addr w vkDestroyDebugReportCallbackEXT) eqn:D;
      cbn [negb when].
    + intros H. absurd_throw H.
    + unfold bind. cbn. intros H. inversion H. tauto.
Qed.

(** The exception of [CreateDevice] is that of
    [GetComputeQueueFamilyIndex]. *)
Lemma CreateDevice_throws (w : World) (s s' : App) pd (what : string) :
  physical_device s = Some pd ->
  CreateDevice w s = (Throw what, s') ->
  what = "could not find a queue family that supports operations" /\
  s' = s /\
  forall q, In q (queue_family_properties pd) -> ~ usable_compute q.
Proof.
  intros Hpd H. unfold CreateDevice in H.
  apply bind_throw_inv in H as [H | (i & s1 & _ & H)].
  - destruct (GetComputeQueueFamilyIndex_spec s pd Hpd)
      as [(i & props & E & _) | (E & N)]; rewrite E in H.
    + discriminate.
    + inversion H. auto.
  - absurd_throw H.
Qed.

(** Every exception that leaves [Run] is one of the six run-time errors. *)
Lemma Run_throws (w : World) (what : string) (s' : App) :
  Run w initial = (Throw what, s') -> runtime_error_condition w what.
Proof.
  unfold Run. unfold bind at 1. cbn [modify]. intros H.
  apply bind_throw_inv in H as [H | ([] & s1 & _ & H)];
    [now apply CreateInstance_throws in H|].
  apply bind_throw_inv in H as [H | ([] & s2 & E2 & H)].
  { unfold FindPhysicalDevice in H.
    destruct (physical_devices w) as [|d ds] eqn:D; [|discriminate].
    inversion H. unfold runtime_error_condition. tauto. }
  destruct (physical_devices w) as [|d ds] eqn:D.
  { rewrite (FindPhysicalDevice_none w s1 D) in E2. discriminate. }
  rewrite (FindPhysicalDevice_first w s1 d ds D) in E2.
  injection E2 as <-.
  apply bind_throw_inv in H as [H | ([] & s3 & _ & H)].
  { apply (CreateDevice_throws w _ _ d) in H; [|reflexivity].
    destruct H as (-> & _ & N). unfold runtime_error_condition.
    do 4 right. left. split; [reflexivity|]. now exists d, ds. }
  do 7 (apply bind_throw_inv in H as [H | ([] & ? & _ & H)];
        [absurd_throw H|]).
  now apply CleanUp_throws in H.
Qed.

(** *** Failed Vulkan calls *)

(** C10. Every checked Vulkan call goes through [VK_CHECK_RESULT], whose
    only reaction to a failure is a diagnostic and an [assert]. In a release
    build ([NDEBUG] defined) a failed call therefore prints the diagnostic
    and returns, while the same call aborts in a debug build; and in a
    cooperative world the whole release run goes on past every failed call:
    it makes all the calls of the setup and of the teardown, prints one
    diagnostic per failed call and exits with code 0. *)
Theorem release_build_continues_after_failed_call :
  forall w : World,
    NDEBUG w = true ->
    cooperative w ->
    (forall f xs s, vk_result w f <> VK_SUCCESS ->
       VK_CHECK_RESULT w f xs s
       = (Ret tt, push_stdout (diagnostic w f) (push_call (vk_call f xs) s)) /\
       VK_CHECK_RESULT (with_NDEBUG false w) f xs s
       = (Abort, push_stdout (diagnostic w f) (push_call (vk_call f xs) s)))
    /\
    fst (main w) = Exit EXIT_SUCCESS /\
    map fn (calls (snd (main w))) = setup_calls true ++ teardown_calls true /\
    stdout (snd (main w))
    = diagnostics w ++ (if lodepng_encode w =? 0 then []
                        else [encoder_error (lodepng_encode w)]).
Proof.
  intros w N C. split.
  - intros f xs s F. apply Z.eqb_neq in F.
    rewrite !VK_CHECK_RESULT_cases. unfold checked.
    cbn [vk_result with_NDEBUG NDEBUG]. rewrite F, N. cbn [orb].
    split; reflexivity.
  - destruct (main_returns w (or_introl N) C) as (E & Cs & _ & O).
    rewrite N in Cs. auto.
Qed.

Lemma release_build_continues_after_failed_call_witness :
  let w := with_vk_result vkWaitForFences VK_TIMEOUT
             (with_vk_result vkAllocateMemory VK_ERROR_OUT_OF_DEVICE_MEMORY
                sample_world) in
  fst (main w) = Exit EXIT_SUCCESS /\
  map fn (calls (snd (main w))) = setup_calls true ++ teardown_calls true /\
  stdout (snd (main w))
  = [diagnostic w vkAllocateMemory; diagnostic w vkWaitForFences].
Proof.
  intro w.
  exact (proj2 (release_build_continues_after_failed_call
                  w eq_refl sample_world_cooperative)).
Defined.

(** *** The exit code *)

(** C6 (as amended). A fully successful run exits with code 0. The process
    exits with a non-zero code only through the [catch] of [main]: the code
    is then [EXIT_FAILURE], the exception is one of the six run-time errors
    of the source (validation layer or debug-report extension not supported,
    a debug-report entry point that cannot be loaded, no physical device, no
    usable compute queue family), and its message is the last line printed.
    Every exception that leaves [Run] is caught in this way; an unsupported
    validation layer in a debug build is the first of them. *)
Theorem main_exit_contract :
  forall w : World,
    (fully_successful w ->
       fst (main w) = Exit EXIT_SUCCESS /\
       stdout (snd (main w))
       = if lodepng_encode w =? 0 then []
         else [encoder_error (lodepng_encode w)]) /\
    (forall code, fst (main w) = Exit code -> code <> 0 ->
       code = EXIT_FAILURE /\
       exists what out,
         runtime_error_condition w what /\
         stdout (snd (main w)) = out ++ [caught what]) /\
    (forall what s, Run w initial = (Throw what, s) ->
       main w = (Exit EXIT_FAILURE, push_stdout (caught what) s)) /\
    (NDEBUG w = false ->
     ~ In "VK_LAYER_LUNARG_standard_validation" (layer_properties w) ->
     main w
     = (Exit EXIT_FAILURE,
        push_stdout
          (caught "Layer VK_LAYER_LUNARG_standard_validation not supported\n")
          start)).
Proof.
  intros w. split; [|split; [|split]].
  - intros (C & S).
    destruct (main_returns w (or_intror S) C) as (E & _ & _ & O).
    split; [exact E|]. now rewrite O, (diagnostics_success w S).
  - intros code E Hc. unfold main in *.
    destruct (Run w initial) as [[[]|what| |] s] eqn:R; cbn [fst snd] in *;
      try discriminate.
    + injection E as <-. now contradiction Hc.
    + injection E as <-. split; [reflexivity|].
      exists what, (stdout s). split; [|reflexivity].
      now apply Run_throws in R.
  - intros what s R. unfold main. now rewrite R.
  - intros N L. unfold main, Run, CreateInstance, kEnableValidationLayers.
    rewrite N. cbn [negb when].
    destruct (fold_left _ (layer_properties w) false) eqn:F.
    + apply found_layer_iff in F. contradiction.
    + reflexivity.
Qed.

Lemma main_exit_contract_witness :
  fst (main sample_world) = Exit EXIT_SUCCESS /\
  stdout (snd (main sample_world)) = [].
Proof.
  exact (proj1 (main_exit_contract sample_world) sample_world_fully_successful).
Defined.

(** C6, the part that fails. In a release build a fence wait that times out,
    or a failed memory allocation, prints its diagnostic and the process
    still exits with code 0; in a debug build the process aborts on the
    failed [assert], which no [catch] sees. Neither is a caught run-time
    error with a non-zero exit code. *)
Lemma vulkan_failure_is_not_a_caught_error :
  let timeout := with_vk_result vkWaitForFences VK_TIMEOUT sample_world in
  let oom := with_vk_result vkAllocateMemory VK_ERROR_OUT_OF_DEVICE_MEMORY
               sample_world in
  (fst (main timeout) = Exit 0 /\
   stdout (snd (main timeout)) = [diagnostic timeout vkWaitForFences]) /\
  (fst (main oom) = Exit 0 /\
   stdout (snd (main oom)) = [diagnostic oom vkAllocateMemory]) /\
  fst (main (with_NDEBUG false timeout)) = Aborted /\
  fst (main (with_NDEBUG false oom)) = Aborted.
Proof.
  intros timeout oom. split; [|split; [|split]].
  - destruct (main_returns timeout (or_introl eq_refl) sample_world_cooperative)
      as (E & _ & _ & O).
    split; [exact E | exact O].
  - destruct (main_returns oom (or_introl eq_refl) sample_world_cooperative)
      as (E & _ & _ & O).
    split; [exact E | exact O].
  - vm_compute. reflexivity.
  - vm_compute. reflexivity.
Qed.

(** *** Device and queue selection *)

(** C5 (as amended). Once the instance exists: with no physical device the
    process prints the error and exits with [EXIT_FAILURE]; otherwise the
    first enumerated device is selected, and the queue family index is the
    first family of that device that has at least one queue and whose flags
    include compute; when the device has no such family the process prints
    the error and exits with [EXIT_FAILURE]. *)
Theorem device_and_queue_selection :
  forall (w : World) (s1 : App),
    CreateInstance w start = (Ret tt, s1) ->
    match physical_devices w with
    | [] =>
        main w
        = (Exit EXIT_FAILURE,
           push_stdout (caught "could not find a device with vulkan support")
                       s1)
    | d :: _ =>
        let s2 := set_physical_device d s1 in
        FindPhysicalDevice w s1 = (Ret tt, s2) /\
        ((exists i props,
             GetComputeQueueFamilyIndex s2 = (Ret i, s2) /\
             0 <= i /\
             nth_error (queue_family_properties d) (Z.to_nat i) = Some props /\
             usable_compute props /\
             forall j props', 0 <= j < i ->
               nth_error (queue_family_properties d) (Z.to_nat j)
               = Some props' ->
               ~ usable_compute props')
         \/
         ((forall props, In props (queue_family_properties d) ->
                         ~ usable_compute props) /\
          main w
          = (Exit EXIT_FAILURE,
             push_stdout
               (caught "could not find a queue family that supports operations")
               s2)))
    end.
Proof.
  intros w s1 E1.
  destruct (physical_devices w) as [|d ds] eqn:D.
  - unfold main, Run. unfold bind at 1. cbn [modify]. fold start.
    unfold bind at 1. rewrite E1.
    unfold bind at 1. rewrite (FindPhysicalDevice_none w s1 D). reflexivity.
  - cbv zeta. split; [exact (FindPhysicalDevice_first w s1 d ds D)|].
    destruct (GetComputeQueueFamilyIndex_spec (set_physical_device d s1) d
                eq_refl) as [(i & props & E & H) | (E & N)].
    + left. exists i, props. split; [exact E | exact H].
    + right. split; [exact N|].
      unfold main, Run. unfold bind at 1. cbn [modify]. fold start.
      unfold bind at 1. rewrite E1.
      unfold bind at 1. rewrite (FindPhysicalDevice_first w s1 d ds D).
      unfold bind at 1. unfold CreateDevice. unfold bind at 1. rewrite E.
      reflexivity.
Qed.

Lemma device_and_queue_selection_witness :
  main (with_physical_devices [] sample_world)
  = (Exit EXIT_FAILURE,
     push_stdout (caught "could not find a device with vulkan support")
                 (push_call (vk_call vkCreateInstance [0]) start)).
Proof.
  exact (device_and_queue_selection
           (with_physical_devices [] sample_world)
           (push_call (vk_call vkCreateInstance [0]) start) eq_refl).
Defined.

(** C5, the part that fails. The first queue family of this device has the
    compute flag but no queue; the search passes over it and returns the
    index of the second family: the first family whose flags include compute
    is not the one selected. *)
Lemma first_compute_family_not_selected :
  let families := [ {| queueFlags := 3; queueCount := 0 |};
                    {| queueFlags := 2; queueCount := 4 |} ] in
  let s := set_physical_device
             {| queue_family_properties := families;
                memory_properties :=
                  {| memoryTypeCount := 0; memoryTypes := [] |} |}
             initial in
  GetComputeQueueFamilyIndex s = (Ret 1, s) /\
  exists props, nth_error families 0 = Some props /\ compute_capable props.
Proof.
  intros families s. split; [reflexivity|].
  eexists. split; reflexivity.
Qed.

(** *** The kernel blob *)

Lemma ReadFile_missing (w : World) (filename : string) (s : App) :
  fopen w filename = None ->
  ReadFile w filename s
  = (Undefined,
     push_stdout
       (printf_call "Could not find or open file: %s\n" [ArgStr filename]) s).
Proof. intros E. unfold ReadFile. rewrite E. reflexivity. Qed.

(** C2, on the code. In this world "shaders/comp.spv" cannot be opened.
    [ReadFile] prints its message and goes on with the null [FILE*]: nothing
    is thrown, so the [catch] of [main] is not reached and the process does
    not exit with [EXIT_FAILURE]; what happens after the message is
    undefined, in the release build and in the debug build. *)
Theorem missing_kernel_blob_is_not_fatal :
  let w := with_fopen (fun _ => None) sample_world in
  ReadFile w "shaders/comp.spv" initial
  = (Undefined,
     push_stdout (printf_call "Could not find or open file: %s\n"
                              [ArgStr "shaders/comp.spv"]) initial) /\
  fst (main w) = UndefinedBehaviour /\
  fst (main w) <> Exit EXIT_FAILURE /\
  stdout (snd (main w))
  = [printf_call "Could not find or open file: %s\n"
                 [ArgStr "shaders/comp.spv"]] /\
  fst (main (with_NDEBUG false w)) = UndefinedBehaviour.
Proof.
  intro w. split; [|split; [|split; [|split]]].
  - apply ReadFile_missing. reflexivity.
  - vm_compute. reflexivity.
  - vm_compute. discriminate.
  - vm_compute. reflexivity.
  - vm_compute. reflexivity.
Qed.

(** *** The encoder *)

Lemma bind_ext {A B} (m : M A) (k1 k2 : A -> M B) (s : App) :
  (forall x s', k1 x s' = k2 x s') -> bind m k1 s = bind m k2 s.
Proof.
  intros H. unfold bind. destruct (m s) as [[x| | |] s']; auto.
Qed.

(** [Run] is the GPU work, then the readback and the teardown. *)
Lemma Run_split (w : World) (s : App) :
  Run w s
  = bind (Run_setup w)
         (fun _ => bind (SaveRenderedImage w) (fun _ => CleanUp w)) s.
Proof.
  unfold Run, Run_setup.
  do 9 (rewrite bind_bind; apply bind_ext; intros ? ?).
  reflexivity.
Qed.

(** [SaveRenderedImage] in full. *)
Lemma SaveRenderedImage_cases (w : World) (s : App) :
  SaveRenderedImage w s
  = let mapped := push_call (vk_call vkMapMemory [0; buffer_size s]) s in
    match mapped_memory w with
    | None => (Undefined, mapped)
    | Some pmapped_memory =>
        match SaveRenderedImage_loop pmapped_memory
                (Z.to_nat (kWidth * kHeight)) 0 [] with
        | None => (Undefined, mapped)
        | Some image =>
            let saved :=
              set_encoded image kWidth kHeight
                (push_call (vk_call vkUnmapMemory []) mapped) in
            (Ret tt,
             if lodepng_encode w =? 0 then saved
             else push_stdout (encoder_error (lodepng_encode w)) saved)
        end
    end.
Proof.
  unfold SaveRenderedImage. unfold bind at 1. cbn [get].
  unfold bind at 1. cbn [vk modify]. cbv zeta.
  destruct (mapped_memory w) as [mem|]; [|reflexivity].
  destruct (SaveRenderedImage_loop _ _ _ _); [|reflexivity].
  unfold bind, when, vk, modify, printf.
  destruct (lodepng_encode w =? 0); reflexivity.
Qed.

(** What is on the standard output does not matter to [CleanUp]. *)
Lemma CleanUp_push_stdout (w : World) (p : Printf) (s : App) :
  CleanUp w (push_stdout p s)
  = (fst (CleanUp w s), push_stdout p (snd (CleanUp w s))).
Proof.
  unfold CleanUp, kEnableValidationLayers.
  destruct (NDEBUG w); cbn [negb when]; [reflexivity|].
  destruct (proc_addr w vkDestroyDebugReportCallbackEXT); reflexivity.
Qed.

(** C7. Take any world in which the process exits with code 0 when the
    encoder succeeds. When the encoder returns a non-zero status [e]
    instead, the process still exits with code 0; the only difference is one
    more line on the standard output, the report of the encoder error: the
    Vulkan calls made and the image handed to the encoder are the same. *)
Theorem encode_failure_is_not_fatal :
  forall (w : World) (e : Z),
    e <> 0 ->
    fst (main (with_lodepng_encode 0 w)) = Exit EXIT_SUCCESS ->
    fst (main (with_lodepng_encode e w)) = Exit EXIT_SUCCESS /\
    stdout (snd (main (with_lodepng_encode e w)))
    = stdout (snd (main (with_lodepng_encode 0 w))) ++ [encoder_error e] /\
    calls (snd (main (with_lodepng_encode e w)))
    = calls (snd (main (with_lodepng_encode 0 w))) /\
    encoded (snd (main (with_lodepng_encode e w)))
    = encoded (snd (main (with_lodepng_encode 0 w))).
Proof.
  intros w e He. apply Z.eqb_neq in He.
  unfold main. rewrite !Run_split.
  change (Run_setup (with_lodepng_encode e w)) with (Run_setup w).
  change (Run_setup (with_lodepng_encode 0 w)) with (Run_setup w).
  unfold bind.
  destruct (Run_setup w initial) as [[[]|what| |] s7]; try discriminate.
  rewrite !SaveRenderedImage_cases. cbv zeta.
  cbn [mapped_memory lodepng_encode with_lodepng_encode].
  destruct (mapped_memory w) as [mem|]; [|discriminate].
  destruct (SaveRenderedImage_loop mem _ 0 []) as [image|]; [|discriminate].
  rewrite He. cbn [Z.eqb].
  change (CleanUp (with_lodepng_encode e w)) with (CleanUp w).
  change (CleanUp (with_lodepng_encode 0 w)) with (CleanUp w).
  rewrite CleanUp_push_stdout.
  set (saved := set_encoded image kWidth kHeight _).
  destruct (CleanUp w saved) as [[[]|what| |] s9]; try discriminate.
  intros _. cbn [fst snd]. repeat split; reflexivity.
Qed.

Lemma encode_failure_is_not_fatal_witness :
  fst (main (with_lodepng_encode 79 sample_world)) = Exit EXIT_SUCCESS /\
  stdout (snd (main (with_lodepng_encode 79 sample_world)))
  = stdout (snd (main (with_lodepng_encode 0 sample_world)))
    ++ [encoder_error 79] /\
  calls (snd (main (with_lodepng_encode 79 sample_world)))
  = calls (snd (main (with_lodepng_encode 0 sample_world))) /\
  encoded (snd (main (with_lodepng_encode 79 sample_world)))
  = encoded (snd (main (with_lodepng_encode 0 sample_world))).
Proof.
  apply (encode_failure_is_not_fatal sample_world 79).
  - lia.
  - exact (proj1 (main_returns (with_lodepng_encode 0 sample_world)
                    (or_introl eq_refl) sample_world_cooperative)).
Defined.

(** *** Teardown *)

(** C9 (as amended). In a run that returns, the objects are destroyed in
    exactly this order: the fence (right after the wait), then in [CleanUp]
    the debug-report callback (debug build only), the memory, the buffer,
    the shader module, the descriptor pool, the descriptor set layout, the
    pipeline layout, the pipeline, the command pool, the logical device and
    the instance. Nothing the run created is left (the descriptor set and the
    command buffer go with their pools). The objects destroyed while
    something created from them still exists are exactly the shader module
    and the pipeline layout (the pipeline exists) and the descriptor set
    layout (the pipeline layout exists): never the logical device, never the
    instance. *)
Theorem teardown_sequence :
  forall w : World,
    checks_pass w ->
    cooperative w ->
    let fs := map fn (calls (snd (main w))) in
    destroyed fs
    = fence :: (if NDEBUG w then [] else [debug_report_callback])
      ++ [buffer_memory; buffer; compute_shader_module; descriptor_pool;
          descriptor_set_layout; pipeline_layout; pipeline; command_pool;
          device; instance] /\
    remaining [] fs = [] /\
    dependency_violations [] fs
    = [(compute_shader_module, pipeline);
       (descriptor_set_layout, pipeline_layout);
       (pipeline_layout, pipeline)].
Proof.
  intros w P C fs.
  destruct (main_returns w P C) as (_ & Cs & _).
  subst fs. rewrite Cs.
  destruct (NDEBUG w); vm_compute; repeat split; reflexivity.
Qed.

Lemma teardown_sequence_witness :
  let fs := map fn (calls (snd (main (with_NDEBUG false sample_world)))) in
  destroyed fs
  = [fence; debug_report_callback; buffer_memory; buffer;
     compute_shader_module; descriptor_pool; descriptor_set_layout;
     pipeline_layout; pipeline; command_pool; device; instance] /\
  remaining [] fs = [] /\
  dependency_violations [] fs
  = [(compute_shader_module, pipeline);
     (descriptor_set_layout, pipeline_layout);
     (pipeline_layout, pipeline)].
Proof.
  exact (teardown_sequence (with_NDEBUG false sample_world)
           (or_intror (fun _ => eq_refl)) sample_world_debug_cooperative).
Defined.

(** C9, the part that fails. In a fully successful debug run the order of
    destruction is not the reverse of the order of creation, also when both
    are restricted to the objects [CleanUp] destroys: the pipeline layout is
    created before the pipeline and destroyed before it, at a moment when
    the pipeline, created from it, still exists. *)
Lemma teardown_is_not_reverse_creation :
  let fs := map fn (calls (snd (main (with_NDEBUG false sample_world)))) in
  let torn := destroyed (teardown_calls false) in
  destroyed fs = fence :: torn /\
  destroyed fs <> rev (created fs) /\
  torn <> rev (filter (fun x => Resource_mem x torn) (created fs)) /\
  uses pipeline pipeline_layout = true /\
  In (pipeline_layout, pipeline) (dependency_violations [] fs).
Proof.
  intros fs torn.
  destruct (main_returns (with_NDEBUG false sample_world)
              (or_intror (fun _ => eq_refl)) sample_world_debug_cooperative)
    as (_ & Cs & _).
  subst fs torn. rewrite Cs.
  split; [|split; [|split; [|split]]].
  - vm_compute. reflexivity.
  - vm_compute. discriminate.
  - vm_compute. discriminate.
  - reflexivity.
  - vm_compute. tauto.
Qed.

(** *** Floating-integral conversions *)

(** The cast truncates toward zero: the integer it keeps is the quotient,
    rounded toward zero, of the scaled mantissa. *)
Lemma SFtruncZ_quot (s : bool) (m : positive) (e : Z) :
  SFtruncZ s m e
  = Z.quot (cond_Zopp s (Zpos m) * 2 ^ Z.max e 0) (2 ^ Z.max (- e) 0).
Proof.
  unfold SFtruncZ.
  assert (Hq : Z.shiftl (Zpos m) e
               = Z.quot (Zpos m * 2 ^ Z.max e 0) (2 ^ Z.max (- e) 0)).
  { destruct (Z_le_gt_dec 0 e) as [He|He].
    - rewrite Z.shiftl_mul_pow2 by assumption.
      rewrite (Z.max_l e 0), (Z.max_r (- e) 0) by lia.
      now rewrite Z.pow_0_r, Z.quot_1_r.
    - rewrite <- (Z.opp_involutive e) at 1.
      rewrite Z.shiftl_opp_r, Z.shiftr_div_pow2 by lia.
      rewrite (Z.max_r e 0), (Z.max_l (- e) 0) by lia.
      rewrite Z.pow_0_r, Z.mul_1_r.
      symmetry. apply Z.quot_div_nonneg; [lia|].
      apply Z.pow_pos_nonneg; lia. }
  destruct s; cbn [cond_Zopp].
  - rewrite Hq. rewrite <- Z.quot_opp_l.
    + f_equal. lia.
    + apply Z.pow_nonzero; lia.
  - exact Hq.
Qed.

(** C4. The conversion of a channel is the cast to [unsigned char] of the
    [float] product [255.0f * value]; the cast keeps the product truncated
    toward zero when that is within 0..255 and is undefined otherwise: no
    value is clamped. Under it 1.0 gives 255 and 0.0 gives 0 (as does -0.0);
    0.5 gives 127 and the largest [float] below 1.0 gives 254, not the
    nearest integers; 2.0 and -0.5 are out of range and give no byte. *)
Theorem channel_to_byte_truncates_without_clamping :
  (forall value, channel_to_byte value
                 = to_uchar (F32.mul (F32.of_Z 255) value)) /\
  (forall s m e,
      to_uchar (S754_finite s m e)
      = let z := Z.quot (cond_Zopp s (Zpos m) * 2 ^ Z.max e 0)
                        (2 ^ Z.max (- e) 0) in
        if (0 <=? z) && (z <=? 255) then Some z else None) /\
  channel_to_byte (F32.of_Z 1) = Some 255 /\
  channel_to_byte (F32.of_Z 0) = Some 0 /\
  channel_to_byte (S754_zero true) = Some 0 /\
  channel_to_byte (S754_finite false 8388608 (-24)) = Some 127 /\
  channel_to_byte (S754_finite false 16777215 (-24)) = Some 254 /\
  channel_to_byte (F32.of_Z 2) = None /\
  channel_to_byte (S754_finite true 8388608 (-24)) = None.
Proof.
  split; [reflexivity|]. split.
  - intros s m e. unfold to_uchar, SFto_int. now rewrite SFtruncZ_quot.
  - repeat split; vm_compute; reflexivity.
Qed.

(** *** Binary digits *)

Lemma digits2_pos_bounds (p : positive) :
  2 ^ (Zpos (digits2_pos p) - 1) <= Zpos p < 2 ^ Zpos (digits2_pos p).
Proof.
  induction p as [p IH | p IH |]; cbn [digits2_pos].
  - rewrite Pos2Z.inj_succ.
    replace (Z.succ (Zpos (digits2_pos p)) - 1) with (Zpos (digits2_pos p)) by lia.
    rewrite Z.pow_succ_r by lia.
    assert (E : 2 ^ Zpos (digits2_pos p) = 2 * 2 ^ (Zpos (digits2_pos p) - 1)).
    { rewrite <- Z.pow_succ_r by lia. f_equal. lia. }
    lia.
  - rewrite Pos2Z.inj_succ.
    replace (Z.succ (Zpos (digits2_pos p)) - 1) with (Zpos (digits2_pos p)) by lia.
    rewrite Z.pow_succ_r by lia.
    assert (E : 2 ^ Zpos (digits2_pos p) = 2 * 2 ^ (Zpos (digits2_pos p) - 1)).
    { rewrite <- Z.pow_succ_r by lia. f_equal. lia. }
    lia.
  - cbn. lia.
Qed.

Lemma digits2_pos_unique (p : positive) (d : Z) :
  2 ^ (d - 1) <= Zpos p < 2 ^ d -> Zpos (digits2_pos p) = d.
Proof.
  intros H. pose proof (digits2_pos_bounds p) as B.
  set (d' := Zpos (digits2_pos p)) in *.
  assert (0 < d') by (subst d'; lia).
  assert (0 < d).
  { destruct (Z_lt_le_dec 0 d) as [|Hd]; [assumption|].
    exfalso. destruct (Z.eq_dec d 0) as [->|]; [cbn in H; lia|].
    rewrite (Z.pow_neg_r 2 d) in H by lia. lia. }
  destruct (Z.lt_trichotomy d' d) as [Hlt | [Heq | Hgt]]; [|assumption|].
  - exfalso. assert (2 ^ d' <= 2 ^ (d - 1)) by (apply Z.pow_le_mono_r; lia). lia.
  - exfalso. assert (2 ^ d <= 2 ^ (d' - 1)) by (apply Z.pow_le_mono_r; lia). lia.
Qed.

Lemma iter_xO_value (p : positive) (n : positive) :
  Zpos (Pos.iter xO p n) = Zpos p * 2 ^ Zpos n.
Proof.
  revert p. induction n using Pos.peano_ind; intros p.
  - cbn. lia.
  - rewrite Pos.iter_succ, Pos2Z.inj_succ, Z.pow_succ_r by lia.
    rewrite Pos2Z.inj_xO, IHn. lia.
Qed.

(** *** Rounding in binary32 *)

(** A 24-bit mantissa with an exponent in range is kept as it is. *)
Lemma binary_round_aux_exact (m : positive) (e : Z) :
  2 ^ 23 <= Zpos m < 2 ^ 24 -> -149 <= e <= 104 ->
  binary_round_aux F32.prec F32.emax false (Zpos m) e loc_Exact
  = S754_finite false m e.
Proof.
  intros Hm He.
  assert (D : Zpos (digits2_pos m) = 24) by (apply digits2_pos_unique; exact Hm).
  unfold binary_round_aux, shr_fexp, Zdigits2, fexp, emin, F32.prec, F32.emax.
  cbn [shr_record_of_loc]. rewrite D.
  replace (Z.max (24 + e - 24) (3 - 128 - 24) - e) with 0 by lia.
  cbn [shr shr_m loc_of_shr_record round_nearest_even shr_record_of_loc].
  rewrite D.
  replace (Z.max (24 + e - 24) (3 - 128 - 24) - e) with 0 by lia.
  cbn [shr shr_m].
  replace (e <=? 128 - 24) with true by (symmetry; apply Z.leb_le; lia).
  reflexivity.
Qed.

(** [float(n)] is exact for a positive [n] below [2^24]: the mantissa is [n]
    shifted to 24 bits. *)
Lemma of_Z_exact (n : Z) :
  1 <= n < 2 ^ 24 ->
  exists m e,
    F32.of_Z n = S754_finite false m e /\
    2 ^ 23 <= Zpos m < 2 ^ 24 /\
    -23 <= e <= 0 /\
    Zpos m = n * 2 ^ (- e).
Proof.
  intros Hn. destruct n as [|p|p]; try lia.
  pose proof (digits2_pos_bounds p) as B.
  set (d := Zpos (digits2_pos p)) in *.
  assert (Hd : 1 <= d <= 24).
  { split; [subst d; lia|].
    destruct (Z_le_gt_dec d 24) as [|Hgt]; [assumption|exfalso].
    assert (2 ^ 24 <= 2 ^ (d - 1)) by (apply Z.pow_le_mono_r; lia). lia. }
  unfold F32.of_Z, binary_normalize, binary_round, shl_align, fexp, emin,
    F32.prec, F32.emax.
  fold d. rewrite Z.add_0_r.
  replace (Z.max (d - 24) (3 - 128 - 24)) with (d - 24) by lia.
  rewrite Z.sub_0_r.
  remember (d - 24) as ex eqn:K.
  destruct ex as [|k|k]; try lia.
  - (* already 24 bits *)
    exists p, 0. assert (d = 24) by lia.
    split.
    + apply binary_round_aux_exact; [|lia].
      replace 23 with (d - 1) by lia. replace 24 with d by lia. exact B.
    + split; [replace 23 with (d - 1) by lia; replace 24 with d by lia; exact B|].
      split; [lia|]. cbn. lia.
  - (* shifted left by 24 - d *)
    assert (V : Zpos (Pos.iter xO p k) = Zpos p * 2 ^ (24 - d)).
    { rewrite iter_xO_value. f_equal. f_equal. lia. }
    assert (R : 2 ^ 23 <= Zpos (Pos.iter xO p k) < 2 ^ 24).
    { rewrite V.
      replace (2 ^ 23) with (2 ^ (d - 1) * 2 ^ (24 - d))
        by (rewrite <- Z.pow_add_r by lia; f_equal; lia).
      replace (2 ^ 24) with (2 ^ d * 2 ^ (24 - d))
        by (rewrite <- Z.pow_add_r by lia; f_equal; lia).
      assert (0 < 2 ^ (24 - d)) by (apply Z.pow_pos_nonneg; lia).
      nia. }
    exists (Pos.iter xO p k), (Z.neg k). split.
    + apply binary_round_aux_exact; [exact R | lia].
    + split; [exact R|]. split; [lia|].
      rewrite V. f_equal. f_equal. lia.
Qed.

(** The quotient of two normalised numbers: the integer division of the
    mantissas, the first one shifted by 24 bits, then one rounding. *)
Lemma div_normal (mx my : positive) (ex ey : Z) :
  2 ^ 23 <= Zpos mx < 2 ^ 24 ->
  2 ^ 23 <= Zpos my < 2 ^ 24 ->
  -125 <= ex - ey ->
  F32.div (S754_finite false mx ex) (S754_finite false my ey)
  = binary_round_aux F32.prec F32.emax false
      (Zpos mx * 2 ^ 24 / Zpos my) (ex - ey - 24)
      (new_location (Zpos my) (Zpos mx * 2 ^ 24 mod Zpos my)).
Proof.
  intros Hx Hy He.
  assert (Dx : Zpos (digits2_pos mx) = 24) by (apply digits2_pos_unique; exact Hx).
  assert (Dy : Zpos (digits2_pos my) = 24) by (apply digits2_pos_unique; exact Hy).
  unfold F32.div, SFdiv, SFdiv_core_binary, Zdigits2, fexp, emin.
  cbn [xorb]. rewrite Dx, Dy. unfold F32.prec, F32.emax.
  replace (Z.min (Z.max (24 + ex - (24 + ey) - 24) (3 - 128 - 24)) (ex - ey))
    with (ex - ey - 24) by lia.
  replace (ex - ey - (ex - ey - 24)) with 24 by lia.
  rewrite Z.shiftl_mul_pow2 by lia.
  unfold Z.div, Z.modulo.
  destruct (Z.div_eucl (Zpos mx * 2 ^ 24) (Zpos my)) as [q r].
  reflexivity.
Qed.

Lemma loc_of_shr_record_of_loc (m : Z) (l : location) :
  loc_of_shr_record (shr_record_of_loc m l) = l.
Proof. destruct l as [|[]]; reflexivity. Qed.

Lemma shr_m_of_loc (m : Z) (l : location) :
  shr_m (shr_record_of_loc m l) = m.
Proof. destruct l as [|[]]; reflexivity. Qed.

Lemma shr_m_shr_1 (p : positive) (l : location) :
  shr_m (shr_1 (shr_record_of_loc (Zpos p) l)) = Zpos p / 2.
Proof.
  rewrite <- Z.div2_div.
  destruct l as [|[]]; destruct p; reflexivity.
Qed.

Lemma round_nearest_even_cases (m : Z) (l : location) :
  round_nearest_even m l = m \/ round_nearest_even m l = m + 1.
Proof.
  destruct l as [|[]]; cbn; auto. destruct (Z.even m); auto.
Qed.

(** The second half of [binary_round_aux]: an integer of 24 bits, or [2^24],
    becomes a mantissa of 24 bits. *)
Lemma renormalise (q e : Z) :
  2 ^ 23 <= q <= 2 ^ 24 -> -149 <= e <= 103 ->
  exists m e',
    (let '(mrs, e'') := shr_fexp F32.prec F32.emax q e loc_Exact in
     match shr_m mrs with
     | Z0 => S754_zero false
     | Zpos m => if e'' <=? F32.emax - F32.prec
                 then S754_finite false m e'' else S754_infinity false
     | Zneg _ => S754_nan
     end) = S754_finite false m e' /\
    e <= e' <= e + 1 /\
    Zpos m * 2 ^ (e' - e) = q.
Proof.
  intros Hq He. destruct q as [|p|p]; try lia.
  destruct (Z.eq_dec (Zpos p) (2 ^ 24)) as [E|N].
  - injection E as ->.
    exists (8388608%positive), (e + 1).
    unfold shr_fexp, fexp, emin, F32.prec, F32.emax.
    cbn [Zdigits2 digits2_pos Pos.succ shr_record_of_loc].
    replace (Z.max (25 + e - 24) (3 - 128 - 24) - e) with 1 by lia.
    cbn [shr iter_pos shr_1 shr_m].
    replace (e + 1 <=? 128 - 24) with true by (symmetry; apply Z.leb_le; lia).
    split; [reflexivity|]. split; [lia|].
    replace (e + 1 - e) with 1 by lia. reflexivity.
  - assert (D : Zpos (digits2_pos p) = 24) by (apply digits2_pos_unique; lia).
    exists p, e.
    unfold shr_fexp, fexp, emin, F32.prec, F32.emax, Zdigits2.
    rewrite D. cbn [shr_record_of_loc].
    replace (Z.max (24 + e - 24) (3 - 128 - 24) - e) with 0 by lia.
    cbn [shr shr_m].
    replace (e <=? 128 - 24) with true by (symmetry; apply Z.leb_le; lia).
    split; [reflexivity|]. split; [lia|].
    rewrite Z.sub_diag. cbn. lia.
Qed.

(** [binary_round_aux] on an integer of 24 or 25 bits: the result is finite
    and its mantissa, scaled back to the exponent [e], is [round24]. *)
Lemma binary_round_aux_value (q e : Z) (l : location) :
  2 ^ 23 <= q < 2 ^ 25 -> -149 <= e <= 102 ->
  exists m e',
    binary_round_aux F32.prec F32.emax false q e l = S754_finite false m e' /\
    e <= e' <= e + 2 /\
    Zpos m * 2 ^ (e' - e) = round24 q l.
Proof.
  intros Hq He. destruct q as [|p|p]; try lia.
  unfold round24. destruct (Z.ltb_spec (Zpos p) (2 ^ 24)) as [Hlt|Hge].
  - (* 24 bits: no shift before the rounding *)
    assert (D : Zpos (digits2_pos p) = 24) by (apply digits2_pos_unique; lia).
    assert (S1 : shr_fexp F32.prec F32.emax (Zpos p) e l
                 = (shr_record_of_loc (Zpos p) l, e)).
    { unfold shr_fexp, fexp, emin, F32.prec, F32.emax, Zdigits2. rewrite D.
      replace (Z.max (24 + e - 24) (3 - 128 - 24) - e) with 0 by lia.
      reflexivity. }
    unfold binary_round_aux. rewrite S1.
    rewrite shr_m_of_loc, loc_of_shr_record_of_loc.
    destruct (renormalise (round_nearest_even (Zpos p) l) e) as (m & e' & R & B & V).
    { destruct (round_nearest_even_cases (Zpos p) l) as [-> | ->]; lia. }
    { lia. }
    exists m, e'. split; [exact R|]. split; [lia | exact V].
  - (* 25 bits: one shift before the rounding *)
    assert (D : Zpos (digits2_pos p) = 25) by (apply digits2_pos_unique; lia).
    assert (S1 : shr_fexp F32.prec F32.emax (Zpos p) e l
                 = (shr_1 (shr_record_of_loc (Zpos p) l), e + 1)).
    { unfold shr_fexp, fexp, emin, F32.prec, F32.emax, Zdigits2. rewrite D.
      replace (Z.max (25 + e - 24) (3 - 128 - 24) - e) with 1 by lia.
      reflexivity. }
    unfold binary_round_aux. rewrite S1.
    rewrite shr_m_shr_1.
    assert (H2 : 2 ^ 23 <= Zpos p / 2 < 2 ^ 24).
    { split.
      - apply Z.div_le_lower_bound; lia.
      - apply Z.div_lt_upper_bound; lia. }
    set (l1 := loc_of_shr_record (shr_1 (shr_record_of_loc (Zpos p) l))).
    destruct (renormalise (round_nearest_even (Zpos p / 2) l1) (e + 1))
      as (m & e' & R & B & V).
    { destruct (round_nearest_even_cases (Zpos p / 2) l1) as [-> | ->]; lia. }
    { lia. }
    exists m, e'. split; [exact R|]. split; [lia|].
    replace (e' - e) with (1 + (e' - (e + 1))) by lia.
    rewrite Z.pow_add_r by lia. rewrite <- V, Z.pow_1_r. ring.
Qed.

(** *** Ceilings *)

Lemma shiftl_rescale (x e e0 : Z) :
  e0 <= e -> e0 <= 0 ->
  Z.shiftl x e = (x * 2 ^ (e - e0)) / 2 ^ (- e0).
Proof.
  intros H1 H2. destruct (Z_le_gt_dec 0 e) as [He|He].
  - rewrite Z.shiftl_mul_pow2 by assumption.
    replace (e - e0) with (e + - e0) by lia.
    rewrite Z.pow_add_r by lia. rewrite Z.mul_assoc.
    symmetry. apply Z.div_mul. apply Z.pow_nonzero; lia.
  - rewrite <- (Z.opp_involutive e) at 1.
    rewrite Z.shiftl_opp_r, Z.shiftr_div_pow2 by lia.
    replace (- e0) with (- e + (e - e0)) by lia.
    rewrite Z.pow_add_r by lia.
    symmetry. apply Z.div_mul_cancel_r; apply Z.pow_nonzero; lia.
Qed.

(** The [ceil] of a positive number, from its mantissa scaled to an exponent
    [e0] below. *)
Lemma SFceilZ_rescale (m : positive) (e e0 : Z) :
  e0 <= e -> e0 <= 0 ->
  SFceilZ false m e = - ((- (Zpos m * 2 ^ (e - e0))) / 2 ^ (- e0)).
Proof.
  intros H1 H2. unfold SFceilZ, SFfloorZ. cbn [negb cond_Zopp].
  rewrite (shiftl_rescale _ e e0 H1 H2). f_equal. f_equal. lia.
Qed.

(** Converting an integer below [2^24] to [float] and back gives the
    integer. *)
Lemma to_uint32_of_Z (c : Z) :
  1 <= c < 2 ^ 24 -> to_uint32 (F32.of_Z c) = Some c.
Proof.
  intros Hc. destruct (of_Z_exact c Hc) as (m & e & E & Hm & He & V).
  rewrite E. unfold to_uint32, SFto_int, SFtruncZ. cbn [cond_Zopp].
  rewrite (shiftl_rescale _ e e) by lia.
  rewrite Z.sub_diag, Z.pow_0_r, Z.mul_1_r, V.
  rewrite Z.div_mul by (apply Z.pow_nonzero; lia).
  replace ((0 <=? c) && (c <=? UINT32_MAX)) with true; [reflexivity|].
  symmetry. apply andb_true_iff. split; apply Z.leb_le; [lia|].
  unfold UINT32_MAX. lia.
Qed.

Lemma ceil_div_exact (n K : Z) : 0 < K -> - ((- (n * K)) / K) = n.
Proof.
  intros HK. rewrite <- Z.mul_opp_l. rewrite Z.div_mul by lia. lia.
Qed.

Lemma ceil_div_between (n K V : Z) :
  0 < K -> n * K < V <= (n + 1) * K -> - ((- V) / K) = n + 1.
Proof.
  intros HK HV.
  assert (E : (- V) / K = - (n + 1)).
  { symmetry. apply (Z.div_unique _ _ _ ((n + 1) * K - V)); lia. }
  rewrite E. lia.
Qed.

(** The integer ceiling of [w / g] as [n] or [n + 1]. *)
Lemma ceiling_quotient (w g : Z) :
  0 < g -> 0 <= w ->
  (w + g - 1) / g = if w mod g =? 0 then w / g else w / g + 1.
Proof.
  intros Hg Hw.
  pose proof (Z.div_mod w g ltac:(lia)) as E.
  pose proof (Z.mod_pos_bound w g Hg) as B.
  destruct (Z.eqb_spec (w mod g) 0) as [Z0|NZ].
  - symmetry. apply (Z.div_unique _ _ _ (g - 1)); lia.
  - symmetry. apply (Z.div_unique _ _ _ (w mod g - 1)); lia.
Qed.

(** *** The location of a remainder *)

Lemma new_location_0 (steps : Z) : new_location steps 0 = loc_Exact.
Proof.
  unfold new_location, new_location_even, new_location_odd.
  destruct (Z.even steps); reflexivity.
Qed.

Lemma new_location_inexact (steps k : Z) :
  k <> 0 -> exists c, new_location steps k = loc_Inexact c.
Proof.
  intros Hk. apply Z.eqb_neq in Hk.
  unfold new_location, new_location_even, new_location_odd.
  destruct (Z.even steps); rewrite Hk; eexists; reflexivity.
Qed.

(** The location after one more shift: the bit shifted out is the round
    bit, and an inexact location is sticky. *)
Lemma shr_1_exact_even (p : positive) :
  Z.even (Zpos p) = true ->
  loc_of_shr_record (shr_1 (shr_record_of_loc (Zpos p) loc_Exact))
  = loc_Exact.
Proof. destruct p; cbn; intros H; try discriminate; reflexivity. Qed.

Lemma shr_1_inexact_odd (p : positive) (c : comparison) :
  Z.odd (Zpos p) = true ->
  loc_of_shr_record (shr_1 (shr_record_of_loc (Zpos p) (loc_Inexact c)))
  = loc_Inexact Gt.
Proof. destruct p, c; cbn; intros H; try discriminate; reflexivity. Qed.

(** *** The rounded quotient has the ceiling of the exact one *)

(** [w * K / g] is the quotient of the two mantissas, [K = 2^k] the weight of
    an integer unit in it and [B * (w * K mod g)] the remainder: since
    [g < K], rounding the quotient to 24 bits never takes it down to the
    integer below nor up across the integer above. *)
Lemma round24_ceiling (w g K K' B : Z) :
  1 <= w -> 1 <= g -> g < K -> K = 2 * K' -> 0 < B ->
  0 < w * K / g ->
  - ((- round24 (w * K / g)
               (new_location (g * B) (B * ((w * K) mod g)))) / K)
  = (w + g - 1) / g.
Proof.
  intros Hw Hg HK HK' HB Hq.
  rewrite ceiling_quotient by lia.
  pose proof (Z.div_mod w g ltac:(lia)) as Ew.
  pose proof (Z.mod_pos_bound w g ltac:(lia)) as Bw.
  set (n := w / g) in *. set (rem := w mod g) in *.
  assert (EwK : w * K = n * K * g + rem * K) by (rewrite Ew at 1; ring).
  assert (Eq : w * K / g = n * K + rem * K / g).
  { rewrite EwK. apply Z.div_add_l. lia. }
  assert (Er : (w * K) mod g = (rem * K) mod g).
  { rewrite EwK, Z.add_comm. apply Z.mod_add. lia. }
  rewrite Er. rewrite Eq in *.
  destruct (Z.eqb_spec rem 0) as [R0|RN].
  - (* [g] divides [w]: the quotient is exact *)
    rewrite R0, Z.mul_0_l, Z.div_0_l, Z.mod_0_l by lia.
    rewrite Z.mul_0_r, new_location_0, Z.add_0_r.
    rewrite R0, Z.mul_0_l, Z.div_0_l, Z.add_0_r in Hq by lia.
    assert (V : round24 (n * K) loc_Exact = n * K).
    { unfold round24. destruct (n * K <? 2 ^ 24); [reflexivity|].
      destruct (n * K) as [|p|p] eqn:P; try lia.
      rewrite shr_1_exact_even.
      - cbn [round_nearest_even]. rewrite <- P.
        replace (n * K) with (n * K' * 2) by (rewrite HK'; ring).
        rewrite Z.div_mul by lia. ring.
      - rewrite <- P, HK'.
        replace (n * (2 * K')) with (2 * (n * K')) by ring.
        rewrite Z.even_mul. reflexivity. }
    rewrite V. apply ceil_div_exact. lia.
  - (* otherwise the rounded quotient stays strictly between *)
    pose proof (Z.div_mod (rem * K) g ltac:(lia)) as Et.
    pose proof (Z.mod_pos_bound (rem * K) g ltac:(lia)) as Bt.
    set (t := rem * K / g) in *. set (r' := (rem * K) mod g) in *.
    assert (Ht : 1 <= t < K) by nia.
    apply ceil_div_between; [lia|].
    unfold round24. destruct (Z.ltb_spec (n * K + t) (2 ^ 24)) as [Hlt|Hge].
    + destruct (round_nearest_even_cases (n * K + t)
                  (new_location (g * B) (B * r'))) as [-> | ->]; lia.
    + pose proof (Z.div_mod (n * K + t) 2 ltac:(lia)) as E2.
      pose proof (Z.mod_pos_bound (n * K + t) 2 ltac:(lia)) as B2.
      set (h := (n * K + t) / 2) in *.
      assert (HnK : n * K = 2 * (n * K')) by (rewrite HK'; ring).
      destruct (Z.eq_dec t 1) as [T1|TN].
      * (* the quotient is odd and inexact: it is rounded up *)
        assert (Hr' : r' <> 0) by nia.
        destruct (new_location_inexact (g * B) (B * r') ltac:(nia)) as (c & ->).
        destruct (n * K + t) as [|p|p] eqn:P; try lia.
        rewrite shr_1_inexact_odd.
        -- cbn [round_nearest_even]. lia.
        -- rewrite <- P, T1, HnK. rewrite Z.add_comm.
           rewrite Z.odd_add_mul_2. reflexivity.
      * set (l1 := loc_of_shr_record _).
        destruct (round_nearest_even_cases h l1) as [-> | ->]; lia.
Qed.

(** *** The dispatch size *)

(** For operands below [2^24] the [float] computation of line 617 gives the
    integer ceiling of the quotient. *)
Lemma group_count_ceiling (extent group_size : Z) :
  1 <= extent < 2 ^ 24 -> 1 <= group_size < 2 ^ 24 ->
  group_count extent group_size
  = Some ((extent + group_size - 1) / group_size).
Proof.
  intros Hw Hg.
  destruct (of_Z_exact extent Hw) as (mx & ex & Ex & Hmx & Hex & Vx).
  destruct (of_Z_exact group_size Hg) as (my & ey & Ey & Hmy & Hey & Vy).
  unfold group_count. rewrite Ex, Ey, div_normal by (assumption || lia).
  set (K := 2 ^ (- ex + 24 - - ey)).
  set (B := 2 ^ (- ey)).
  assert (HB : 0 < B) by (apply Z.pow_pos_nonneg; lia).
  assert (HK : 0 < K) by (apply Z.pow_pos_nonneg; lia).
  assert (HKB : 2 ^ (- ex) * 2 ^ 24 = K * B).
  { unfold K, B. rewrite <- !Z.pow_add_r by lia. f_equal. lia. }
  assert (HK' : K = 2 * 2 ^ (- ex + 24 - - ey - 1)).
  { unfold K. rewrite <- Z.pow_succ_r by lia. f_equal. lia. }
  assert (HgK : group_size < K).
  { assert (2 ^ 24 <= K * B).
    { rewrite <- HKB.
      assert (1 <= 2 ^ (- ex)) by (apply (Z.pow_le_mono_r 2 0); lia). nia. }
    nia. }
  assert (N : Zpos mx * 2 ^ 24 = extent * K * B) by (rewrite Vx; nia).
  assert (Q : Zpos mx * 2 ^ 24 / Zpos my = extent * K / group_size).
  { rewrite N, Vy. fold B. apply Z.div_mul_cancel_r; lia. }
  assert (R : (Zpos mx * 2 ^ 24) mod Zpos my
              = B * ((extent * K) mod group_size)).
  { rewrite N, Vy. fold B. rewrite Z.mul_mod_distr_r by lia. ring. }
  assert (Hq : 2 ^ 23 <= Zpos mx * 2 ^ 24 / Zpos my < 2 ^ 25).
  { split.
    - apply Z.div_le_lower_bound; lia.
    - apply Z.div_lt_upper_bound; lia. }
  destruct (binary_round_aux_value
              (Zpos mx * 2 ^ 24 / Zpos my) (ex - ey - 24)
              (new_location (Zpos my) ((Zpos mx * 2 ^ 24) mod Zpos my))
              Hq ltac:(lia))
    as (m & e' & E & He' & V).
  rewrite E. cbn [SFceil].
  rewrite (SFceilZ_rescale m e' (ex - ey - 24)) by lia.
  rewrite V, Q, R, Vy. fold B.
  replace (- (ex - ey - 24)) with (- ex + 24 - - ey) by lia. fold K.
  assert (Hq0 : 0 < extent * K / group_size) by (rewrite <- Q; lia).
  rewrite (round24_ceiling extent group_size K _ B
             ltac:(lia) ltac:(lia) HgK HK' HB Hq0).
  apply to_uint32_of_Z. split.
  - apply Z.div_le_lower_bound; lia.
  - apply Z.div_lt_upper_bound; nia.
Qed.

Lemma ceiling_least (w g : Z) :
  0 < g -> 0 <= w ->
  w <= (w + g - 1) / g * g /\
  forall c, w <= c * g -> (w + g - 1) / g <= c.
Proof.
  intros Hg Hw.
  pose proof (Z.mul_div_le (w + g - 1) g Hg) as L.
  pose proof (Z.mul_succ_div_gt (w + g - 1) g Hg) as U.
  set (c0 := (w + g - 1) / g) in *.
  split; [nia|]. intros c Hc.
  destruct (Z_le_gt_dec c0 c) as [|Hgt]; [assumption|]. nia.
Qed.

(** C3 (as amended). For every positive width, height and groupSize below
    [2^24] the dispatch arguments of line 617 are defined and are the integer
    ceilings of width / groupSize and height / groupSize: the smallest
    integers whose product with groupSize reaches the width and the height.
    In particular 3200 / 32 gives 100 and 3201 / 32 gives 101; and with the
    constants of the program the recorded dispatch is 100 x 75 x 1. *)
Theorem dispatch_group_counts :
  forall width height groupSize : Z,
    1 <= width < 2 ^ 24 ->
    1 <= height < 2 ^ 24 ->
    1 <= groupSize < 2 ^ 24 ->
    exists groupsX groupsY,
      group_count width groupSize = Some groupsX /\
      group_count height groupSize = Some groupsY /\
      groupsX = (width + groupSize - 1) / groupSize /\
      groupsY = (height + groupSize - 1) / groupSize /\
      width <= groupsX * groupSize /\
      (forall c, width <= c * groupSize -> groupsX <= c) /\
      height <= groupsY * groupSize /\
      (forall c, height <= c * groupSize -> groupsY <= c) /\
      group_count 3200 32 = Some 100 /\
      group_count 3201 32 = Some 101 /\
      forall w s, checks_pass w ->
        exists s', CreateCommandBuffer w s = (Ret tt, s') /\
                   In (vk_call vkCmdDispatch [100; 75; 1]) (calls s').
Proof.
  intros width height groupSize Hw Hh Hg.
  destruct (ceiling_least width groupSize ltac:(lia) ltac:(lia)) as (Lx & Mx).
  destruct (ceiling_least height groupSize ltac:(lia) ltac:(lia)) as (Ly & My).
  exists ((width + groupSize - 1) / groupSize),
         ((height + groupSize - 1) / groupSize).
  split; [apply group_count_ceiling; assumption|].
  split; [apply group_count_ceiling; assumption|].
  do 2 (split; [reflexivity|]).
  do 4 (split; [assumption|]).
  split; [apply (group_count_ceiling 3200 32); lia|].
  split; [apply (group_count_ceiling 3201 32); lia|].
  intros w s P.
  destruct (CreateCommandBuffer_returns w s P) as (s' & E & _ & _ & C & _).
  exists s'. split; [exact E|].
  rewrite C. apply in_or_app. right. cbn. tauto.
Qed.

Lemma dispatch_group_counts_witness :
  exists groupsX groupsY,
    group_count 3200 32 = Some groupsX /\
    group_count 2400 32 = Some groupsY /\
    groupsX = (3200 + 32 - 1) / 32 /\
    groupsY = (2400 + 32 - 1) / 32 /\
    3200 <= groupsX * 32 /\
    (forall c, 3200 <= c * 32 -> groupsX <= c) /\
    2400 <= groupsY * 32 /\
    (forall c, 2400 <= c * 32 -> groupsY <= c) /\
    group_count 3200 32 = Some 100 /\
    group_count 3201 32 = Some 101 /\
    forall w s, checks_pass w ->
      exists s', CreateCommandBuffer w s = (Ret tt, s') /\
                 In (vk_call vkCmdDispatch [100; 75; 1]) (calls s').
Proof.
  apply (dispatch_group_counts 3200 2400 32); lia.
Defined.

(** C3, the part that fails. The width [2^24 + 1] has no [float]: it is
    converted to [2^24], and with groupSize 1 the dispatch gets 16777216
    groups, one short of the width; likewise [2^29 + 1] with groupSize 32. *)
Lemma group_count_below_ceiling :
  group_count 16777217 1 = Some 16777216 /\
  16777216 * 1 < 16777217 /\
  group_count 536870913 32 = Some 16777216 /\
  16777216 * 32 < 536870913.
Proof. repeat split; vm_compute; reflexivity. Qed.
(** *** The order of the calls *)

Lemma prefix_nil {A} (l : list A) : prefix [] l.
Proof. now exists l. Qed.

Lemma prefix_refl {A} (l : list A) : prefix l l.
Proof. exists []. now rewrite app_nil_r. Qed.

Lemma prefix_app_r {A} (p l l' : list A) : prefix p l -> prefix p (l ++ l').
Proof. intros (r & ->). exists (r ++ l'). now rewrite app_assoc. Qed.

Lemma prefix_app_l {A} (p l l' : list A) : prefix p l' -> prefix (l ++ p) (l ++ l').
Proof. intros (r & ->). exists r. now rewrite app_assoc. Qed.

Lemma follows_ret w {A} (x : A) : follows w (ret x) [].
Proof.
  intros s o s' H. injection H as <- <-. exists []. split; [intros _ f []|].
  split; [reflexivity | now rewrite app_nil_r].
Qed.

Lemma follows_get w : follows w get [].
Proof.
  intros s o s' H. injection H as <- <-. exists []. split; [intros _ f []|].
  split; [reflexivity | now rewrite app_nil_r].
Qed.

Lemma follows_modify w (g : App -> App) :
  (forall s, calls (g s) = calls s) -> follows w (modify g) [].
Proof.
  intros Hg s o s' H. injection H as <- <-. exists []. split; [intros _ f []|].
  split; [reflexivity | now rewrite Hg, app_nil_r].
Qed.

Lemma follows_printf w fmt xs : follows w (printf fmt xs) [].
Proof. apply follows_modify. reflexivity. Qed.

Lemma follows_throw w {A} what fs : follows w (@throw A what) fs.
Proof.
  intros s o s' H. injection H as <- <-. exists []. split; [intros _ f []|].
  split; [apply prefix_nil | now rewrite app_nil_r].
Qed.

Lemma follows_undefined w {A} fs : follows w (@undefined A) fs.
Proof.
  intros s o s' H. injection H as <- <-. exists []. split; [intros _ f []|].
  split; [apply prefix_nil | now rewrite app_nil_r].
Qed.

Lemma follows_vk w f xs : is_checked f = false -> follows w (vk f xs) [f].
Proof.
  intros U s o s' H. injection H as <- <-. exists [f]. split.
  - intros _ g [<-|[]] C. congruence.
  - split; [reflexivity|]. cbn. now rewrite map_app.
Qed.

Lemma follows_check w f xs :
  is_checked f = true -> follows w (VK_CHECK_RESULT w f xs) [f].
Proof.
  intros C s o s' H. rewrite VK_CHECK_RESULT_cases in H.
  injection H as <- <-.
  destruct (Z.eqb_spec (vk_result w f) VK_SUCCESS) as [S|F]; cbn [orb].
  - exists [f]. split; [intros _ g [<-|[]] _; exact S|].
    split; [reflexivity|]. now rewrite calls_checked, map_app.
  - destruct (NDEBUG w) eqn:N.
    + exists [f]. split; [intros N'; discriminate N'|].
      split; [reflexivity|]. now rewrite calls_checked, map_app.
    + exists []. split; [intros _ g []|].
      split; [reflexivity|]. exists f, (stdout (push_call (vk_call f xs) s)).
      split; [exact C|]. split; [exact F|]. split; [apply prefix_refl|].
      split; [now rewrite calls_checked, map_app|].
      rewrite stdout_checked.
      destruct (Z.eqb_spec (vk_result w f) VK_SUCCESS); [contradiction | reflexivity].
Qed.

Lemma follows_bind w {A B} (m : M A) (k : A -> M B) fs1 fs2 :
  follows w m fs1 -> (forall x, follows w (k x) fs2) ->
  follows w (bind m k) (fs1 ++ fs2).
Proof.
  intros Hm Hk s o s' H. unfold bind in H.
  destruct (m s) as [o1 s1] eqn:E1.
  destruct (Hm s o1 s1 E1) as (q1 & C1 & R1).
  destruct o1 as [x|what| |].
  - destruct R1 as (-> & L1).
    destruct (Hk x s1 o s' H) as (q2 & C2 & R2).
    exists (fs1 ++ q2). split.
    { intros N f I. apply in_app_or in I as [I|I]; [now apply C1 | now apply C2]. }
    destruct o as [y|what| |].
    + destruct R2 as (-> & L2). split; [reflexivity|].
      now rewrite L2, L1, app_assoc.
    + destruct R2 as (P2 & L2). split; [now apply prefix_app_l|].
      now rewrite L2, L1, app_assoc.
    + destruct R2 as (N & f & out & Cf & Ff & P2 & L2 & O2).
      split; [exact N|]. exists f, out. split; [exact Cf|]. split; [exact Ff|].
      split; [rewrite <- app_assoc; now apply prefix_app_l|].
      split; [|exact O2]. now rewrite L2, L1, !app_assoc.
    + destruct R2 as (P2 & L2). split; [now apply prefix_app_l|].
      now rewrite L2, L1, app_assoc.
  - injection H as <- <-. exists q1. split; [exact C1|].
    destruct R1 as (P1 & L1). split; [now apply prefix_app_r | exact L1].
  - injection H as <- <-. exists q1. split; [exact C1|].
    destruct R1 as (N & f & out & Cf & Ff & P1 & L1 & O1).
    split; [exact N|]. exists f, out. repeat split; try assumption.
    now apply prefix_app_r.
  - injection H as <- <-. exists q1. split; [exact C1|].
    destruct R1 as (P1 & L1). split; [now apply prefix_app_r | exact L1].
Qed.

Lemma follows_when w (c : bool) (m : M unit) fs :
  follows w m fs -> follows w (when c m) (if c then fs else []).
Proof. destruct c; [trivial | intros _; apply follows_ret]. Qed.

Lemma follows_when_nil w (c : bool) (m : M unit) :
  follows w m [] -> follows w (when c m) [].
Proof. destruct c; [trivial | intros _; apply follows_ret]. Qed.

Lemma follows_eq w {A} (m : M A) fs fs' :
  follows w m fs -> fs = fs' -> follows w m fs'.
Proof. now intros H <-. Qed.

(** Going through a computation statement by statement. *)
Ltac follow :=
  cbv beta;
  lazymatch goal with
  | |- follows _ (bind _ _) _ =>
      eapply follows_bind; [follow | intros ?; follow]
  | |- follows _ (when _ (throw _)) _ =>
      apply follows_when_nil, follows_throw
  | |- follows _ (when _ (printf _ _)) _ =>
      apply follows_when_nil, follows_printf
  | |- follows _ (when _ _) _ => eapply follows_when; follow
  | |- follows _ (ret _) _ => apply follows_ret
  | |- follows _ get _ => apply follows_get
  | |- follows _ (modify _) _ => apply follows_modify; reflexivity
  | |- follows _ (printf _ _) _ => apply follows_printf
  | |- follows _ (throw _) _ => apply follows_throw
  | |- follows _ undefined _ => apply follows_undefined
  | |- follows _ (vk _ _) _ => apply follows_vk; reflexivity
  | |- follows _ (VK_CHECK_RESULT _ _ _) _ => apply follows_check; reflexivity
  | |- follows _ (match ?x with _ => _ end) _ => destruct x; follow
  end.

Lemma follows_CreateInstance w :
  follows w (CreateInstance w)
    ([vkCreateInstance]
     ++ if NDEBUG w then [] else [vkCreateDebugReportCallbackEXT]).
Proof.
  unfold CreateInstance, kEnableValidationLayers.
  eapply follows_eq; [follow|].
  destruct (NDEBUG w); reflexivity.
Qed.

Lemma follows_FindPhysicalDevice w : follows w (FindPhysicalDevice w) [].
Proof.
  unfold FindPhysicalDevice.
  eapply follows_eq; [follow|]. reflexivity.
Qed.

Lemma follows_GetComputeQueueFamilyIndex w :
  follows w GetComputeQueueFamilyIndex [].
Proof.
  unfold GetComputeQueueFamilyIndex.
  eapply follows_eq; [follow|]. reflexivity.
Qed.

Lemma follows_FindMemoryType w bits props :
  follows w (FindMemoryType bits props) [].
Proof.
  unfold FindMemoryType. eapply follows_eq; [follow|]. reflexivity.
Qed.

Lemma follows_ReadFile w filename : follows w (ReadFile w filename) [].
Proof.
  unfold ReadFile. destruct (fopen w filename).
  - destruct (to_long _); [apply follows_ret | apply follows_undefined].
  - apply (follows_bind w _ _ [] []);
      [apply follows_printf | intros _; apply follows_undefined].
Qed.

Lemma follows_CreateDevice w :
  follows w (CreateDevice w) [vkCreateDevice; vkGetDeviceQueue].
Proof.
  unfold CreateDevice.
  eapply follows_eq;
    [eapply follows_bind; [apply follows_GetComputeQueueFamilyIndex|];
     intros ?; follow|].
  reflexivity.
Qed.

Lemma follows_CreateBuffer w :
  follows w (CreateBuffer w)
    [vkCreateBuffer; vkAllocateMemory; vkBindBufferMemory].
Proof.
  unfold CreateBuffer.
  eapply follows_eq.
  - eapply follows_bind; [follow|]. intros ?.
    eapply follows_bind; [follow|]. intros ?.
    eapply follows_bind; [apply follows_FindMemoryType|]. intros ?. follow.
  - reflexivity.
Qed.

Lemma follows_CreateDescriptorSetLayout w :
  follows w (CreateDescriptorSetLayout w) [vkCreateDescriptorSetLayout].
Proof. unfold CreateDescriptorSetLayout. follow. Qed.

Lemma follows_CreateDescriptorSet w :
  follows w (CreateDescriptorSet w)
    [vkCreateDescriptorPool; vkAllocateDescriptorSets; vkUpdateDescriptorSets].
Proof.
  unfold CreateDescriptorSet. eapply follows_eq; [follow|]. reflexivity.
Qed.

Lemma follows_CreateComputePipeline w :
  follows w (CreateComputePipeline w)
    [vkCreateShaderModule; vkCreatePipelineLayout; vkCreateComputePipelines].
Proof.
  unfold CreateComputePipeline.
  eapply follows_eq;
    [eapply follows_bind; [apply follows_ReadFile|]; intros ?; follow|].
  reflexivity.
Qed.

Lemma follows_CreateCommandBuffer w :
  follows w (CreateCommandBuffer w)
    [vkCreateCommandPool; vkAllocateCommandBuffers; vkBeginCommandBuffer;
     vkCmdBindPipeline; vkCmdBindDescriptorSets; vkCmdDispatch;
     vkEndCommandBuffer].
Proof.
  unfold CreateCommandBuffer.
  rewrite group_count_kWidth, group_count_kHeight.
  eapply follows_eq; [follow|]. reflexivity.
Qed.

Lemma follows_RunCommandBuffer w :
  follows w (RunCommandBuffer w)
    [vkCreateFence; vkQueueSubmit; vkWaitForFences; vkDestroyFence].
Proof.
  unfold RunCommandBuffer. eapply follows_eq; [follow|]. reflexivity.
Qed.

Lemma follows_SaveRenderedImage w :
  follows w (SaveRenderedImage w) [vkMapMemory; vkUnmapMemory].
Proof.
  unfold SaveRenderedImage.
  eapply follows_eq.
  - eapply follows_bind; [follow|]. intros ?.
    eapply follows_bind; [follow|]. intros ?.
    destruct (mapped_memory w); [|apply follows_undefined].
    destruct (SaveRenderedImage_loop _ _ _ _); [|apply follows_undefined].
    follow.
  - reflexivity.
Qed.

Lemma follows_CleanUp w :
  follows w (CleanUp w) (teardown_calls (NDEBUG w)).
Proof.
  unfold CleanUp, kEnableValidationLayers, teardown_calls.
  eapply follows_eq; [follow|].
  destruct (NDEBUG w); reflexivity.
Qed.

Lemma follows_Run_setup w :
  follows w (Run_setup w)
    ([vkCreateInstance]
     ++ (if NDEBUG w then [] else [vkCreateDebugReportCallbackEXT])
     ++ [vkCreateDevice; vkGetDeviceQueue;
         vkCreateBuffer; vkAllocateMemory; vkBindBufferMemory;
         vkCreateDescriptorSetLayout;
         vkCreateDescriptorPool; vkAllocateDescriptorSets;
         vkUpdateDescriptorSets;
         vkCreateShaderModule; vkCreatePipelineLayout;
         vkCreateComputePipelines;
         vkCreateCommandPool; vkAllocateCommandBuffers; vkBeginCommandBuffer;
         vkCmdBindPipeline; vkCmdBindDescriptorSets; vkCmdDispatch;
         vkEndCommandBuffer;
         vkCreateFence; vkQueueSubmit; vkWaitForFences; vkDestroyFence]).
Proof.
  unfold Run_setup.
  eapply follows_eq.
  - eapply follows_bind; [follow|]. intros ?.
    eapply follows_bind; [apply follows_CreateInstance|]. intros ?.
    eapply follows_bind; [apply follows_FindPhysicalDevice|]. intros ?.
    eapply follows_bind; [apply follows_CreateDevice|]. intros ?.
    eapply follows_bind; [apply follows_CreateBuffer|]. intros ?.
    eapply follows_bind; [apply follows_CreateDescriptorSetLayout|]. intros ?.
    eapply follows_bind; [apply follows_CreateDescriptorSet|]. intros ?.
    eapply follows_bind; [apply follows_CreateComputePipeline|]. intros ?.
    eapply follows_bind; [apply follows_CreateCommandBuffer|]. intros ?.
    apply follows_RunCommandBuffer.
  - destruct (NDEBUG w); reflexivity.
Qed.

Lemma main_of_Run (w : World) (o : Outcome unit) (s : App) :
  Run w initial = (o, s) ->
  fst (main w) = termination_of o /\
  calls (snd (main w)) = calls s /\
  ((forall what, o <> Throw what) -> stdout (snd (main w)) = stdout s).
Proof.
  intros E. unfold main. rewrite E.
  destruct o as [[]|what| |]; cbn; repeat split; try reflexivity.
  intros H. now contradiction (H what).
Qed.

(** [CleanUp] returns, or throws before it has done anything. *)
Lemma CleanUp_cases (w : World) (s : App) :
  (exists s', CleanUp w s = (Ret tt, s')) \/
  CleanUp w s = (Throw "Could not load vkDestroyDebugReportCallbackEXT", s).
Proof.
  unfold CleanUp, kEnableValidationLayers.
  destruct (NDEBUG w); cbn [negb when].
  - left. eexists. reflexivity.
  - destruct (proc_addr w vkDestroyDebugReportCallbackEXT); cbn [negb when].
    + left. eexists. reflexivity.
    + right. reflexivity.
Qed.

Lemma setup_calls_split (ndebug : bool) :
  setup_calls ndebug = calls_before_map ndebug ++ [vkMapMemory; vkUnmapMemory].
Proof. destruct ndebug; reflexivity. Qed.

(** The run up to the end of the readback. *)
Lemma follows_readback (w : World) :
  follows w (bind (Run_setup w) (fun _ => SaveRenderedImage w))
          (setup_calls (NDEBUG w)).
Proof.
  eapply follows_eq.
  - eapply follows_bind; [apply follows_Run_setup|].
    intros _. apply follows_SaveRenderedImage.
  - destruct (NDEBUG w); reflexivity.
Qed.

Lemma Run_split_teardown (w : World) (s : App) :
  Run w s
  = bind (bind (Run_setup w) (fun _ => SaveRenderedImage w))
         (fun _ => CleanUp w) s.
Proof. rewrite Run_split, bind_bind. reflexivity. Qed.

Lemma follows_Run (w : World) :
  follows w (Run w) (setup_calls (NDEBUG w) ++ teardown_calls (NDEBUG w)).
Proof.
  intros s o s' H. rewrite Run_split_teardown in H. revert s o s' H.
  apply follows_bind; [apply follows_readback|].
  intros _. apply follows_CleanUp.
Qed.

(** Unless [Run] returns, no call of the teardown has been made. *)
Lemma Run_without_teardown (w : World) (o : Outcome unit) (s' : App) :
  Run w initial = (o, s') ->
  o <> Ret tt ->
  prefix (map fn (calls s')) (setup_calls (NDEBUG w)).
Proof.
  intros H N. rewrite Run_split_teardown in H. unfold bind at 1 in H.
  destruct (bind (Run_setup w) (fun _ => SaveRenderedImage w) initial)
    as [o1 s1] eqn:E1.
  destruct (follows_readback w initial o1 s1 E1) as (q & _ & R).
  destruct o1 as [[]|what| |].
  - destruct R as (-> & L). cbn in L.
    destruct (CleanUp_cases w s1) as [(s2 & E2) | E2]; rewrite E2 in H.
    + injection H as <- <-. now contradiction N.
    + injection H as <- <-. rewrite L. apply prefix_refl.
  - injection H as <- <-. destruct R as (P & L). cbn in L. now rewrite L.
  - injection H as <- <-.
    destruct R as (_ & f & out & _ & _ & P & L & _). cbn in L. now rewrite L.
  - injection H as <- <-. destruct R as (P & L). cbn in L. now rewrite L.
Qed.

Lemma teardown_not_in_setup (ndebug : bool) (f : VkFn) :
  In f (setup_calls ndebug) -> ~ In f (teardown_calls ndebug).
Proof.
  destruct ndebug; cbn; intros H T;
    repeat (destruct H as [<-|H]; [intuition discriminate|]); exact H.
Qed.

Lemma in_prefix {A} (p l : list A) (x : A) : prefix p l -> In x p -> In x l.
Proof. intros (r & ->) H. apply in_or_app. now left. Qed.

(** X1. Whatever the world, the Vulkan entry points the process calls are an
    initial segment of one fixed sequence (that of the setup, the readback
    and the teardown for the build), and they are the whole sequence exactly
    when the process exits with code 0: there is no retry, no reordering and
    no skipping. *)
Theorem calls_follow_fixed_sequence :
  forall w : World,
    let fs := map fn (calls (snd (main w))) in
    let every := setup_calls (NDEBUG w) ++ teardown_calls (NDEBUG w) in
    prefix fs every /\
    (fst (main w) = Exit EXIT_SUCCESS <-> fs = every).
Proof.
  intros w fs every. subst fs every.
  destruct (Run w initial) as [o s'] eqn:E.
  destruct (main_of_Run w o s' E) as (T & C & _). rewrite T, C.
  destruct (follows_Run w initial o s' E) as (q & _ & R). cbn in R.
  split.
  - destruct o as [[]|what| |].
    + destruct R as (-> & ->). apply prefix_refl.
    + destruct R as (P & ->). exact P.
    + destruct R as (_ & f & out & _ & _ & P & -> & _). exact P.
    + destruct R as (P & ->). exact P.
  - split.
    + destruct o as [[]|what| |]; cbn; try discriminate.
      intros _. destruct R as (-> & ->). reflexivity.
    + intros F. destruct o as [[]|what| |]; [reflexivity|exfalso..].
      all: eapply (teardown_not_in_setup (NDEBUG w) vkDestroyInstance);
        [ eapply in_prefix;
          [ eapply Run_without_teardown; [exact E | discriminate]
          | rewrite F; apply in_or_app; right ]
        | ];
        destruct (NDEBUG w); cbn; tauto.
Qed.

Lemma Resource_eqb_neq (x y : Resource) : x <> y -> Resource_eqb x y = false.
Proof. destruct x, y; intros H; try reflexivity; now contradiction H. Qed.

(** Calls that destroy nothing but the fence leave every other object
    alive. *)
Lemma remaining_keeps (fs : list VkFn) :
  (forall f, In f fs -> destroys f = None \/ destroys f = Some fence) ->
  forall (live : list Resource) (x : Resource),
    x <> fence ->
    In x live \/ In x (created fs) ->
    In x (remaining live fs).
Proof.
  induction fs as [|f rest IH]; intros D live x Hx H.
  - cbn in *. tauto.
  - assert (D' : forall g, In g rest ->
                           destroys g = None \/ destroys g = Some fence)
      by (intros g I; apply D; now right).
    unfold created in *. cbn [remaining filter_map] in *.
    destruct (creates f) as [y|] eqn:Cf.
    + apply (IH D'); [exact Hx|]. cbn in *. tauto.
    + destruct (D f (or_introl eq_refl)) as [-> | ->].
      * now apply (IH D').
      * apply (IH D'); [exact Hx|]. destruct H as [H|H]; [left | now right].
        apply filter_In. split; [exact H|].
        rewrite (Resource_eqb_neq x fence Hx). reflexivity.
Qed.

Lemma setup_calls_destroy_fence_only (ndebug : bool) (f : VkFn) :
  In f (setup_calls ndebug) ->
  destroys f = None \/ destroys f = Some fence.
Proof.
  destruct ndebug; cbn; intros H;
    repeat (destruct H as [<-|H]; [cbn; tauto|]); contradiction.
Qed.

(** X2. The teardown is all or nothing. Unless the process exits with code
    0, not one entry point of [CleanUp] has been called: after an exception,
    an abort or undefined behaviour every object created so far, except the
    fence, is left undestroyed. *)
Theorem no_teardown_unless_success :
  forall w : World,
    fst (main w) <> Exit EXIT_SUCCESS ->
    let fs := map fn (calls (snd (main w))) in
    (forall f, In f fs -> ~ In f (teardown_calls (NDEBUG w))) /\
    (forall x, In x (created fs) -> x <> fence -> In x (remaining [] fs)).
Proof.
  intros w N fs. subst fs.
  destruct (Run w initial) as [o s'] eqn:E.
  destruct (main_of_Run w o s' E) as (T & C & _). rewrite T in N. rewrite C.
  assert (P : prefix (map fn (calls s')) (setup_calls (NDEBUG w))).
  { apply (Run_without_teardown w o s' E). intros ->. now contradiction N. }
  split.
  - intros f I. apply teardown_not_in_setup. exact (in_prefix _ _ f P I).
  - intros x I Hx. apply remaining_keeps; [|exact Hx|now right].
    intros f If. apply (setup_calls_destroy_fence_only (NDEBUG w)).
    exact (in_prefix _ _ f P If).
Qed.

Lemma no_teardown_unless_success_witness :
  let w := with_physical_devices [] sample_world in
  let fs := map fn (calls (snd (main w))) in
  (forall f, In f fs -> ~ In f (teardown_calls (NDEBUG w))) /\
  (forall x, In x (created fs) -> x <> fence -> In x (remaining [] fs)).
Proof.
  intros w.
  apply (no_teardown_unless_success w). vm_compute. discriminate.
Defined.

Lemma prefix_through {A} (l1 l2 p : list A) (x : A) :
  prefix p (l1 ++ x :: l2) -> In x p -> ~ In x l1 ->
  exists rest, p = l1 ++ x :: rest.
Proof.
  revert p. induction l1 as [|b l1 IH]; intros p P I N.
  - destruct p as [|a p]; [contradiction|].
    destruct P as (r & P). cbn in P. injection P as <- _. now exists p.
  - destruct p as [|a p]; [contradiction|].
    destruct P as (r & P). cbn in P. injection P as <- P.
    destruct I as [<-|I]; [contradiction N; now left|].
    destruct (IH p) as (rest & ->).
    + now exists r.
    + exact I.
    + intros H. apply N. now right.
    + now exists rest.
Qed.

Lemma in_before_last {A} (l1 l2 q : list A) (x f y : A) :
  l1 ++ x :: l2 = q ++ [f] -> In y l1 -> In y q.
Proof.
  intros E I.
  assert (R : removelast (l1 ++ x :: l2) = q)
    by (rewrite E; apply removelast_last).
  rewrite removelast_app in R by discriminate.
  rewrite <- R. apply in_or_app. now left.
Qed.

(** X3. The buffer memory is mapped only after the submission and the wait
    on the fence have been called: in every world a call of [vkMapMemory]
    comes after all the calls of the setup, [vkQueueSubmit] and
    [vkWaitForFences] among them. In a debug build both have then returned
    [VK_SUCCESS]; in a release build nothing is known of their results. *)
Theorem readback_after_wait :
  forall w : World,
    let fs := map fn (calls (snd (main w))) in
    In vkMapMemory fs ->
    (exists rest,
        fs = calls_before_map (NDEBUG w) ++ vkMapMemory :: rest) /\
    In vkQueueSubmit (calls_before_map (NDEBUG w)) /\
    In vkWaitForFences (calls_before_map (NDEBUG w)) /\
    (NDEBUG w = false ->
     vk_result w vkQueueSubmit = VK_SUCCESS /\
     vk_result w vkWaitForFences = VK_SUCCESS).
Proof.
  intros w fs I. subst fs.
  destruct (Run w initial) as [o s'] eqn:E.
  destruct (main_of_Run w o s' E) as (_ & C & _). rewrite C in *.
  destruct (follows_Run w initial o s' E) as (q & S & R). cbn in R.
  assert (P : prefix (map fn (calls s'))
                (calls_before_map (NDEBUG w)
                 ++ vkMapMemory :: vkUnmapMemory
                                :: teardown_calls (NDEBUG w))).
  { replace (calls_before_map (NDEBUG w)
             ++ vkMapMemory :: vkUnmapMemory :: teardown_calls (NDEBUG w))
      with (setup_calls (NDEBUG w) ++ teardown_calls (NDEBUG w))
      by (rewrite setup_calls_split, <- app_assoc; reflexivity).
    destruct o as [[]|what| |].
    - destruct R as (-> & ->). apply prefix_refl.
    - destruct R as (P & ->). exact P.
    - destruct R as (_ & f & out & _ & _ & P & -> & _). exact P.
    - destruct R as (P & ->). exact P. }
  destruct (prefix_through _ _ _ _ P I) as (rest & F).
  { destruct (NDEBUG w); cbn; intuition discriminate. }
  assert (Q : In vkQueueSubmit (calls_before_map (NDEBUG w)))
    by (destruct (NDEBUG w); cbn; tauto).
  assert (W : In vkWaitForFences (calls_before_map (NDEBUG w)))
    by (destruct (NDEBUG w); cbn; tauto).
  split; [now exists rest|]. split; [exact Q|]. split; [exact W|].
  intros N.
  assert (B : forall f, In f (calls_before_map (NDEBUG w)) -> In f q).
  { intros f If. destruct o as [[]|what| |].
    - destruct R as (_ & L). rewrite L in F. rewrite F.
      apply in_or_app. now left.
    - destruct R as (_ & L). rewrite L in F. rewrite F.
      apply in_or_app. now left.
    - destruct R as (_ & g & out & _ & _ & _ & L & _). rewrite L in F.
      symmetry in F. exact (in_before_last _ _ _ _ _ _ F If).
    - destruct R as (_ & L). rewrite L in F. rewrite F.
      apply in_or_app. now left. }
  split; apply (S N); auto.
Qed.

Lemma readback_after_wait_witness :
  let w := with_NDEBUG false sample_world in
  (exists rest,
      map fn (calls (snd (main w)))
      = calls_before_map (NDEBUG w) ++ vkMapMemory :: rest) /\
  In vkQueueSubmit (calls_before_map (NDEBUG w)) /\
  In vkWaitForFences (calls_before_map (NDEBUG w)) /\
  (NDEBUG w = false ->
   vk_result w vkQueueSubmit = VK_SUCCESS /\
   vk_result w vkWaitForFences = VK_SUCCESS).
Proof.
  intros w. apply (readback_after_wait w).
  rewrite (proj1 (proj2 (main_returns w (or_intror (fun _ => eq_refl))
                           sample_world_debug_cooperative))).
  cbn. tauto.
Defined.



(** X5. A debug build stops at the first failure: when a checked Vulkan call
    that the process has made returned something other than [VK_SUCCESS],
    that call is the last one made and the process has aborted. *)
Theorem debug_build_stops_at_first_failure :
  forall (w : World) (f : VkFn),
    NDEBUG w = false ->
    In f (map fn (calls (snd (main w)))) ->
    is_checked f = true ->
    vk_result w f <> VK_SUCCESS ->
    fst (main w) = Aborted /\
    exists q, map fn (calls (snd (main w))) = q ++ [f].
Proof.
  intros w f N I Cf Ff.
  destruct (Run w initial) as [o s'] eqn:E.
  destruct (main_of_Run w o s' E) as (T & C & _). rewrite T. rewrite C in *.
  destruct (follows_Run w initial o s' E) as (q & S & R). cbn in R.
  destruct o as [[]|what| |].
  - exfalso. destruct R as (_ & L). rewrite L in I. now apply Ff, (S N).
  - exfalso. destruct R as (_ & L). rewrite L in I. now apply Ff, (S N).
  - destruct R as (_ & g & out & _ & _ & _ & L & _). rewrite L in *.
    split; [reflexivity|]. exists q.
    apply in_app_or in I as [I|[<-|[]]]; [|reflexivity].
    exfalso. now apply Ff, (S N).
  - exfalso. destruct R as (_ & L). rewrite L in I. now apply Ff, (S N).
Qed.

Lemma debug_build_stops_at_first_failure_witness :
  let w := with_NDEBUG false
             (with_vk_result vkWaitForFences VK_TIMEOUT sample_world) in
  fst (main w) = Aborted /\
  exists q, map fn (calls (snd (main w))) = q ++ [vkWaitForFences].
Proof.
  intros w. apply (debug_build_stops_at_first_failure w vkWaitForFences).
  - reflexivity.
  - vm_compute. tauto.
  - reflexivity.
  - vm_compute. discriminate.
Defined.

(** *** The arguments of the calls *)

Lemma CreateInstance_state (w : World) (s : App) :
  checks_pass w -> validation_available w ->
  exists s',
    CreateInstance w s = (Ret tt, s') /\
    physical_device s' = physical_device s /\
    buffer_size s' = buffer_size s /\
    calls s'
    = calls s
      ++ [vk_call vkCreateInstance
            [Z.of_nat (List.length (enabled_layers s))
             + if NDEBUG w then 0 else 1]]
      ++ (if NDEBUG w then []
          else [vk_call vkCreateDebugReportCallbackEXT []]).
Proof.
  intros P V. unfold CreateInstance, kEnableValidationLayers.
  unfold validation_available in V.
  destruct (NDEBUG w) eqn:N; cbn [negb when].
  - eexists. split.
    + unfold bind. cbn [ret get].
      rewrite (VK_CHECK_RESULT_pass w _ _ _ P). reflexivity.
    + fields. rewrite Z.add_0_r, app_nil_r. repeat split; reflexivity.
  - destruct (V eq_refl) as (L & E & C & D).
    apply found_layer_iff in L. apply found_extension_iff in E.
    rewrite L, E, C. cbn [negb when].
    eexists. split.
    + unfold bind. cbn [ret get modify].
      rewrite !(VK_CHECK_RESULT_pass w _ _ _ P). reflexivity.
    + fields. rewrite <- !app_assoc, length_app, Nat2Z.inj_add.
      repeat split; reflexivity.
Qed.

Lemma GetComputeQueueFamilyIndex_value (s s' : App) pd (i : Z) :
  physical_device s = Some pd ->
  GetComputeQueueFamilyIndex s = (Ret i, s') ->
  i = selected_queue_family pd.
Proof.
  intros Hpd. unfold GetComputeQueueFamilyIndex, bind, get. rewrite Hpd.
  fold (selected_queue_family pd).
  destruct (_ =? _); [discriminate|]. intros H. now injection H as <- _.
Qed.

Lemma CreateDevice_state (w : World) (s : App) pd :
  checks_pass w ->
  physical_device s = Some pd ->
  (exists q, In q (queue_family_properties pd) /\ usable_compute q) ->
  let i := selected_queue_family pd in
  CreateDevice w s
  = (Ret tt,
     push_call (vk_call vkGetDeviceQueue [i; 0])
       (checked w vkCreateDevice [i] (set_queue_family_index i s))).
Proof.
  intros P Hpd Hq i.
  destruct (usable_compute_found s pd Hpd Hq) as (j & E).
  assert (j = i) as -> by exact (GetComputeQueueFamilyIndex_value s s pd j Hpd E).
  unfold CreateDevice. unfold bind at 1. rewrite E.
  unfold bind, modify, vk.
  rewrite (VK_CHECK_RESULT_pass w _ _ _ P). reflexivity.
Qed.

Lemma CreateBuffer_state (w : World) (s : App) pd :
  checks_pass w ->
  physical_device s = Some pd ->
  CreateBuffer w s
  = (Ret tt,
     checked w vkBindBufferMemory [0]
       (checked w vkAllocateMemory
          [size (buffer_memory_requirements w); selected_memory_type w pd]
          (checked w vkCreateBuffer [buffer_size s] s))).
Proof.
  intros P Hpd.
  unfold CreateBuffer. unfold bind at 1. cbn [get].
  unfold bind at 1. rewrite (VK_CHECK_RESULT_pass w _ _ _ P).
  unfold bind at 1. unfold FindMemoryType at 1. unfold bind at 1. cbn [get].
  rewrite physical_device_checked, Hpd. cbn [ret].
  unfold bind. rewrite !(VK_CHECK_RESULT_pass w _ _ _ P). reflexivity.
Qed.

Lemma CreateDescriptorSet_state (w : World) (s : App) :
  checks_pass w ->
  CreateDescriptorSet w s
  = (Ret tt,
     push_call (vk_call vkUpdateDescriptorSets [0; 0; buffer_size s])
       (checked w vkAllocateDescriptorSets [1]
          (checked w vkCreateDescriptorPool [1] s))).
Proof.
  intros P. unfold CreateDescriptorSet, bind.
  rewrite !(VK_CHECK_RESULT_pass w _ _ _ P). cbn [get vk modify].
  now rewrite !buffer_size_checked.
Qed.

Lemma ReadFile_state_free (w : World) (filename : string) (s t : App) file :
  ReadFile w filename s = (Ret file, s) ->
  ReadFile w filename t = (Ret file, t).
Proof.
  unfold ReadFile. destruct (fopen w filename); [|discriminate].
  destruct (to_long _); [|discriminate].
  intros H. injection H as <-. reflexivity.
Qed.

Lemma kernel_readable_file (w : World) :
  kernel_readable w ->
  exists file, forall s, ReadFile w "shaders/comp.spv" s = (Ret file, s).
Proof.
  intros K. destruct (ReadFile_returns w _ _ K initial) as (file & E).
  exists file. intros s. exact (ReadFile_state_free w _ initial s file E).
Qed.

Lemma CreateComputePipeline_state (w : World) (s : App) file :
  checks_pass w ->
  ReadFile w "shaders/comp.spv" s = (Ret file, s) ->
  CreateComputePipeline w s
  = (Ret tt,
     checked w vkCreateComputePipelines []
       (checked w vkCreatePipelineLayout []
          (checked w vkCreateShaderModule [fst file] s))).
Proof.
  intros P E. unfold CreateComputePipeline. unfold bind at 1. rewrite E.
  unfold bind. rewrite !(VK_CHECK_RESULT_pass w _ _ _ P). reflexivity.
Qed.

Lemma CreateCommandBuffer_state (w : World) (s : App) :
  checks_pass w ->
  CreateCommandBuffer w s
  = (Ret tt,
     checked w vkEndCommandBuffer []
       (push_call (vk_call vkCmdDispatch [100; 75; 1])
          (push_call (vk_call vkCmdBindDescriptorSets [])
             (push_call (vk_call vkCmdBindPipeline [])
                (checked w vkBeginCommandBuffer []
                   (checked w vkAllocateCommandBuffers [1]
                      (checked w vkCreateCommandPool [queue_family_index s]
                         s))))))).
Proof.
  intros P. unfold CreateCommandBuffer.
  rewrite group_count_kWidth, group_count_kHeight.
  unfold bind. cbn [get].
  rewrite !(VK_CHECK_RESULT_pass w _ _ _ P). cbn [vk modify].
  rewrite !(VK_CHECK_RESULT_pass w _ _ _ P). reflexivity.
Qed.

Lemma RunCommandBuffer_state (w : World) (s : App) :
  checks_pass w ->
  RunCommandBuffer w s
  = (Ret tt,
     push_call (vk_call vkDestroyFence [])
       (checked w vkWaitForFences [100000000000]
          (checked w vkQueueSubmit []
             (checked w vkCreateFence [] s)))).
Proof.
  intros P. unfold RunCommandBuffer, bind.
  rewrite !(VK_CHECK_RESULT_pass w _ _ _ P). reflexivity.
Qed.

(** The calls of a run that returns, with their arguments. *)
Lemma main_calls (w : World) (d : VkPhysicalDevice) ds :
  checks_pass w -> cooperative w ->
  physical_devices w = d :: ds ->
  exists file,
    (forall s, ReadFile w "shaders/comp.spv" s = (Ret file, s)) /\
    fst (main w) = Exit EXIT_SUCCESS /\
    calls (snd (main w)) = expected_calls w d (fst file).
Proof.
  intros P (V & (d' & ds' & Hd & Hq) & K & R) D.
  rewrite D in Hd. injection Hd as <- <-.
  destruct (kernel_readable_file w K) as (file & F).
  exists file. split; [exact F|].
  destruct R as (mem & Hm & Hc).
  destruct (SaveRenderedImage_loop_total mem (Z.to_nat (kWidth * kHeight)) 0 [])
    as (image & L & _).
  { intros j Hj. apply Hc. lia. }
  assert (H : exists s9, Run w initial = (Ret tt, s9) /\
                         calls s9 = expected_calls w d (fst file)).
  { unfold Run. unfold bind at 1. cbn [modify]. fold start.
    destruct (CreateInstance_state w start P V) as (s1 & E1 & _ & B1 & C1).
    unfold bind at 1. rewrite E1.
    unfold bind at 1. rewrite (FindPhysicalDevice_first w s1 d ds D).
    unfold bind at 1.
    rewrite (CreateDevice_state w (set_physical_device d s1) d P eq_refl Hq).
    unfold bind at 1. erewrite (CreateBuffer_state w _ d P)
      by (fields; reflexivity).
    unfold bind at 1. rewrite (CreateDescriptorSetLayout_returns w _ P).
    unfold bind at 1. rewrite (CreateDescriptorSet_state w _ P).
    unfold bind at 1. rewrite (CreateComputePipeline_state w _ file P (F _)).
    unfold bind at 1. rewrite (CreateCommandBuffer_state w _ P).
    unfold bind at 1. rewrite (RunCommandBuffer_state w _ P).
    unfold bind at 1. rewrite SaveRenderedImage_cases. cbv zeta.
    rewrite Hm, L. cbv beta iota.
    match goal with
    | |- context [CleanUp w ?s] =>
        destruct (CleanUp_returns w s V) as (s9 & E9 & _ & C9 & _)
    end.
    exists s9. split; [exact E9|].
    rewrite C9. unfold expected_calls, selected_queue_family.
    destruct (lodepng_encode w =? 0); fields; rewrite B1, C1;
      unfold start; cbn [calls enabled_layers set_buffer_size initial
                         List.length Z.of_nat Z.add app];
      destruct (NDEBUG w); cbn [app]; rewrite <- ?app_assoc; reflexivity. }
  destruct H as (s9 & E & C). unfold main. rewrite E. cbn [fst snd].
  split; [reflexivity | exact C].
Qed.

Ltac in_cases H :=
  repeat (destruct H as [<-|H];
          [cbn [fn fn_args]; repeat split; intros; congruence|]);
  try contradiction.

(** X6. One queue family index serves the whole run: in a run that returns,
    the index found on the first physical device (the first family with a
    queue and the compute flag) is the one the logical device is created
    with, the one the queue is fetched from and the one the command pool is
    created for, and no such call is made with another index. *)
Theorem queue_family_index_used_throughout :
  forall (w : World) (d : VkPhysicalDevice) (ds : list VkPhysicalDevice),
    checks_pass w -> cooperative w ->
    physical_devices w = d :: ds ->
    let i := selected_queue_family d in
    let cs := calls (snd (main w)) in
    (exists props,
        nth_error (queue_family_properties d) (Z.to_nat i) = Some props /\
        usable_compute props) /\
    In (vk_call vkCreateDevice [i]) cs /\
    In (vk_call vkGetDeviceQueue [i; 0]) cs /\
    In (vk_call vkCreateCommandPool [i]) cs /\
    (forall c, In c cs ->
       (fn c = vkCreateDevice -> fn_args c = [i]) /\
       (fn c = vkGetDeviceQueue -> fn_args c = [i; 0]) /\
       (fn c = vkCreateCommandPool -> fn_args c = [i])).
Proof.
  intros w d ds P C D i cs.
  destruct (main_calls w d ds P C D) as (file & _ & _ & E).
  subst cs. rewrite E. clear E.
  split.
  - destruct C as (_ & (d' & ds' & Hd & q & Hin & U) & _).
    rewrite D in Hd. injection Hd as <- <-.
    destruct (GetComputeQueueFamilyIndex_loop_spec
                (queue_family_properties d) 0)
      as [(props & R & Hp & Up & _) | (_ & N)].
    + exists props. rewrite Z.sub_0_r in Hp. split; assumption.
    + exfalso. now apply (N q).
  - unfold expected_calls. fold i. cbv zeta.
    destruct (NDEBUG w); cbn [app map teardown_calls].
    + split; [cbn; tauto|]. split; [cbn; tauto|]. split; [cbn; tauto|].
      intros c H. in_cases H.
    + split; [cbn; tauto|]. split; [cbn; tauto|]. split; [cbn; tauto|].
      intros c H. in_cases H.
Qed.

Lemma queue_family_index_used_throughout_witness :
  let cs := calls (snd (main sample_world)) in
  (exists props,
      nth_error (queue_family_properties sample_device) (Z.to_nat 1)
      = Some props /\
      usable_compute props) /\
  In (vk_call vkCreateDevice [1]) cs /\
  In (vk_call vkGetDeviceQueue [1; 0]) cs /\
  In (vk_call vkCreateCommandPool [1]) cs /\
  (forall c, In c cs ->
     (fn c = vkCreateDevice -> fn_args c = [1]) /\
     (fn c = vkGetDeviceQueue -> fn_args c = [1; 0]) /\
     (fn c = vkCreateCommandPool -> fn_args c = [1])).
Proof.
  exact (queue_family_index_used_throughout sample_world sample_device []
           (or_introl eq_refl) sample_world_cooperative eq_refl).
Defined.

(** X7. One buffer size serves the whole run, and it does not wrap around:
    in a run that returns, the buffer is created with 16 * 3200 * 2400 =
    122880000 bytes, the descriptor covers that range from offset 0 and the
    mapping too, and no such call is made with another size; the image
    handed to the encoder has a quarter as many bytes. The memory itself is
    allocated with the size the driver requires for the buffer. *)
Theorem buffer_size_used_throughout :
  forall (w : World) (d : VkPhysicalDevice) (ds : list VkPhysicalDevice),
    checks_pass w -> cooperative w ->
    physical_devices w = d :: ds ->
    let cs := calls (snd (main w)) in
    16 * kWidth * kHeight = 122880000 /\
    In (vk_call vkCreateBuffer [122880000]) cs /\
    In (vk_call vkUpdateDescriptorSets [0; 0; 122880000]) cs /\
    In (vk_call vkMapMemory [0; 122880000]) cs /\
    (forall c, In c cs ->
       (fn c = vkCreateBuffer -> fn_args c = [122880000]) /\
       (fn c = vkUpdateDescriptorSets -> fn_args c = [0; 0; 122880000]) /\
       (fn c = vkMapMemory -> fn_args c = [0; 122880000]) /\
       (fn c = vkAllocateMemory ->
        exists index,
          fn_args c = [size (buffer_memory_requirements w); index])) /\
    exists image,
      encoded (snd (main w)) = Some (image, kWidth, kHeight) /\
      4 * Z.of_nat (List.length image) = 122880000.
Proof.
  intros w d ds P C D cs.
  destruct (main_calls w d ds P C D) as (file & _ & _ & E).
  subst cs. rewrite E. clear E.
  split; [reflexivity|].
  assert (B : uint32 (16 * kWidth * kHeight) = 122880000) by reflexivity.
  split; [|split; [|split; [|split]]].
  - unfold expected_calls. rewrite B. cbv zeta.
    destruct (NDEBUG w); cbn; tauto.
  - unfold expected_calls. rewrite B. cbv zeta.
    destruct (NDEBUG w); cbn; tauto.
  - unfold expected_calls. rewrite B. cbv zeta.
    destruct (NDEBUG w); cbn; tauto.
  - unfold expected_calls. rewrite B. cbv zeta. intros c H.
    destruct (NDEBUG w); cbn [app map teardown_calls] in H.
    + repeat (destruct H as [<-|H];
              [cbn [fn fn_args]; repeat split; intros; try congruence;
               eexists; reflexivity|]); contradiction.
    + repeat (destruct H as [<-|H];
              [cbn [fn fn_args]; repeat split; intros; try congruence;
               eexists; reflexivity|]); contradiction.
  - destruct (Run_returns w P C) as (s' & image & R & _ & _ & _ & I & L).
    exists image. unfold main. rewrite R. cbn [snd]. split; [exact I|].
    rewrite L. reflexivity.
Qed.

Lemma buffer_size_used_throughout_witness :
  let cs := calls (snd (main sample_world)) in
  16 * kWidth * kHeight = 122880000 /\
  In (vk_call vkCreateBuffer [122880000]) cs /\
  In (vk_call vkUpdateDescriptorSets [0; 0; 122880000]) cs /\
  In (vk_call vkMapMemory [0; 122880000]) cs /\
  (forall c, In c cs ->
     (fn c = vkCreateBuffer -> fn_args c = [122880000]) /\
     (fn c = vkUpdateDescriptorSets -> fn_args c = [0; 0; 122880000]) /\
     (fn c = vkMapMemory -> fn_args c = [0; 122880000]) /\
     (fn c = vkAllocateMemory ->
      exists index,
        fn_args c = [size (buffer_memory_requirements sample_world); index])) /\
  exists image,
    encoded (snd (main sample_world)) = Some (image, kWidth, kHeight) /\
    4 * Z.of_nat (List.length image) = 122880000.
Proof.
  exact (buffer_size_used_throughout sample_world sample_device []
           (or_introl eq_refl) sample_world_cooperative eq_refl).
Defined.

(** X8. The memory of the buffer is host-visible and host-coherent whenever
    the device can provide that: in a run that returns, with a 32-bit mask
    of allowed types, when some memory type of the first device is allowed
    and has both flags, the memory type index given to [vkAllocateMemory] is
    the lowest such type; when none is, the index given is 4294967295. *)
Theorem allocation_uses_selected_memory_type :
  forall (w : World) (d : VkPhysicalDevice) (ds : list VkPhysicalDevice),
    checks_pass w -> cooperative w ->
    physical_devices w = d :: ds ->
    0 <= memoryTypeBits (buffer_memory_requirements w) < 2 ^ 32 ->
    exists index,
      In (vk_call vkAllocateMemory
                  [size (buffer_memory_requirements w); index])
         (calls (snd (main w))) /\
      let bits := memoryTypeBits (buffer_memory_requirements w) in
      let flags i :=
        propertyFlags (nth (Z.to_nat i) (memoryTypes (memory_properties d))
                           {| propertyFlags := 0; heapIndex := 0 |}) in
      let host_memory i :=
        0 <= i < memoryTypeCount (memory_properties d) /\
        Z.testbit bits i = true /\
        Z.testbit (flags i) 1 = true /\ Z.testbit (flags i) 2 = true in
      (host_memory index /\ forall j, host_memory j -> index <= j)
      \/
      (index = 4294967295 /\ forall j, ~ host_memory j).
Proof.
  intros w d ds P C D Hb.
  destruct (main_calls w d ds P C D) as (file & _ & _ & E).
  exists (selected_memory_type w d). split.
  - rewrite E. unfold expected_calls. cbv zeta.
    destruct (NDEBUG w); cbn; tauto.
  - cbv zeta.
    set (mp := memory_properties d).
    set (bits := memoryTypeBits (buffer_memory_requirements w)) in *.
    assert (HP : forall i,
               has_properties mp 6 i <->
               Z.testbit (propertyFlags
                            (nth (Z.to_nat i) (memoryTypes mp)
                               {| propertyFlags := 0; heapIndex := 0 |})) 1
               = true /\
               Z.testbit (propertyFlags
                            (nth (Z.to_nat i) (memoryTypes mp)
                               {| propertyFlags := 0; heapIndex := 0 |})) 2
               = true).
    { intros i. unfold has_properties. split.
      - intros H. split; apply H; reflexivity.
      - intros (H1 & H2) k Hk.
        destruct (Z.eq_dec k 1) as [->|N1]; [exact H1|].
        destruct (Z.eq_dec k 2) as [->|N2]; [exact H2|].
        exfalso. destruct k as [|k|k]; try discriminate Hk.
        destruct k as [[k|k|]|[k|k|]|]; cbn in Hk; try discriminate Hk;
          try lia; destruct k; discriminate Hk. }
    assert (S : selected_memory_type w d
                = FindMemoryType_loop mp bits 6
                    (Z.to_nat (memoryTypeCount mp)) 0) by reflexivity.
    rewrite S.
    destruct (FindMemoryType_loop_spec mp bits 6 Hb
                (Z.to_nat (memoryTypeCount mp)) 0 ltac:(lia))
      as [(R & A & Pr & L) | (R & L)].
    + left. split.
      * split; [lia|]. split; [exact A|]. now apply HP.
      * intros j (Hj & Aj & Fj).
        destruct (Z_lt_le_dec j (FindMemoryType_loop mp bits 6
                                   (Z.to_nat (memoryTypeCount mp)) 0))
          as [Hlt|]; [|lia].
        exfalso. apply (L j); [lia|]. split; [exact Aj | now apply HP].
    + right. split; [exact R|].
      intros j (Hj & Aj & Fj). apply (L j); [lia|].
      split; [exact Aj | now apply HP].
Qed.

Lemma allocation_uses_selected_memory_type_witness :
  exists index,
    In (vk_call vkAllocateMemory
                [size (buffer_memory_requirements sample_world); index])
       (calls (snd (main sample_world))) /\
    let bits := memoryTypeBits (buffer_memory_requirements sample_world) in
    let flags i :=
      propertyFlags
        (nth (Z.to_nat i) (memoryTypes (memory_properties sample_device))
             {| propertyFlags := 0; heapIndex := 0 |}) in
    let host_memory i :=
      0 <= i < memoryTypeCount (memory_properties sample_device) /\
      Z.testbit bits i = true /\
      Z.testbit (flags i) 1 = true /\ Z.testbit (flags i) 2 = true in
    (host_memory index /\ forall j, host_memory j -> index <= j)
    \/
    (index = 4294967295 /\ forall j, ~ host_memory j).
Proof.
  apply (allocation_uses_selected_memory_type sample_world sample_device []
           (or_introl eq_refl) sample_world_cooperative eq_refl).
  cbn. lia.
Defined.

(** *** The image read back *)

Lemma nth_error_app_plus {A} (l l' : list A) (j : nat) :
  nth_error (l ++ l') (List.length l + j) = nth_error l' j.
Proof. induction l as [|x l IH]; [reflexivity | exact IH]. Qed.

Lemma channel_to_byte_range (value : spec_float) (byte : Z) :
  channel_to_byte value = Some byte -> 0 <= byte <= 255.
Proof.
  unfold channel_to_byte, to_uchar, SFto_int.
  destruct (F32.mul _ _) as [sg| | |sg m e]; try discriminate.
  - intros H. injection H as <-. lia.
  - cbv zeta. destruct (andb _ _) eqn:E; [|discriminate].
    intros H. injection H as <-.
    apply andb_prop in E. destruct E as [E1 E2].
    apply Z.leb_le in E1. apply Z.leb_le in E2. lia.
Qed.

(** The loop only appends: four bytes for each pixel. *)
Lemma SaveRenderedImage_loop_appends (pmapped_memory : Z -> Pixel) :
  forall (n : nat) (i : Z) (image image' : list Z),
    SaveRenderedImage_loop pmapped_memory n i image = Some image' ->
    exists bytes,
      image' = image ++ bytes /\ List.length bytes = (4 * n)%nat /\
      Forall (fun byte => 0 <= byte <= 255) bytes.
Proof.
  induction n as [|n IH]; intros i image image' H.
  - injection H as <-. exists []. rewrite app_nil_r. repeat split. constructor.
  - cbn [SaveRenderedImage_loop] in H. cbv zeta in H.
    destruct (channel_to_byte (r (pmapped_memory i))) as [cr|] eqn:Er;
      [|discriminate].
    destruct (channel_to_byte (g (pmapped_memory i))) as [cg|] eqn:Eg;
      [|discriminate].
    destruct (channel_to_byte (b (pmapped_memory i))) as [cb|] eqn:Eb;
      [|discriminate].
    destruct (channel_to_byte (a (pmapped_memory i))) as [ca|] eqn:Ea;
      [|discriminate].
    destruct (IH _ _ _ H) as (bytes & -> & L & R).
    exists ([cr; cg; cb; ca] ++ bytes). rewrite app_assoc.
    split; [reflexivity|]. split; [cbn [List.length app]; lia|].
    apply Forall_app. split; [|exact R].
    repeat constructor;
      eapply channel_to_byte_range; eassumption.
Qed.

(** The bytes of pixel [i + k] are at the positions [4 k .. 4 k + 3] after
    what was there before. *)
Lemma SaveRenderedImage_loop_index (pmapped_memory : Z -> Pixel) :
  forall (n : nat) (i : Z) (image image' : list Z),
    SaveRenderedImage_loop pmapped_memory n i image = Some image' ->
    forall k : nat, (k < n)%nat ->
      let p := pmapped_memory (i + Z.of_nat k) in
      let at_ c := nth_error image' (List.length image + 4 * k + c) in
      at_ 0%nat = channel_to_byte (r p) /\
      at_ 1%nat = channel_to_byte (g p) /\
      at_ 2%nat = channel_to_byte (b p) /\
      at_ 3%nat = channel_to_byte (a p).
Proof.
  induction n as [|n IH]; intros i image image' H k Hk; [lia|].
  cbn [SaveRenderedImage_loop] in H. cbv zeta in H.
  destruct (channel_to_byte (r (pmapped_memory i))) as [cr|] eqn:Er;
    [|discriminate].
  destruct (channel_to_byte (g (pmapped_memory i))) as [cg|] eqn:Eg;
    [|discriminate].
  destruct (channel_to_byte (b (pmapped_memory i))) as [cb|] eqn:Eb;
    [|discriminate].
  destruct (channel_to_byte (a (pmapped_memory i))) as [ca|] eqn:Ea;
    [|discriminate].
  destruct k as [|k].
  - destruct (SaveRenderedImage_loop_appends _ _ _ _ _ H) as (bytes & -> & _).
    cbv zeta. rewrite <- app_assoc.
    replace (i + Z.of_nat 0) with i by lia.
    replace (4 * 0)%nat with 0%nat by lia.
    rewrite <- !Nat.add_assoc. rewrite !nth_error_app_plus.
    rewrite Er, Eg, Eb, Ea. repeat split.
  - specialize (IH _ _ _ H k ltac:(lia)). cbv zeta in IH |- *.
    rewrite length_app in IH. cbn [List.length] in IH.
    replace (i + 1 + Z.of_nat k) with (i + Z.of_nat (S k)) in IH by lia.
    replace (List.length image + 4 + 4 * k)%nat
      with (List.length image + 4 * S k)%nat in IH by lia.
    exact IH.
Qed.


(** X9. The image handed to the encoder is the buffer, pixel by pixel:
    whenever [SaveRenderedImage] returns, the memory was mapped, the image
    is 3200 by 2400 with four bytes for each pixel, every byte is in
    0..255, and the bytes [4 k], [4 k + 1], [4 k + 2] and [4 k + 3] are the
    conversions of the red, green, blue and alpha channel of pixel [k] of
    the mapped memory. *)
Theorem image_is_buffer_in_rgba_order :
  forall (w : World) (s s' : App),
    SaveRenderedImage w s = (Ret tt, s') ->
    exists pmapped_memory image,
      mapped_memory w = Some pmapped_memory /\
      encoded s' = Some (image, kWidth, kHeight) /\
      Z.of_nat (List.length image) = 4 * (kWidth * kHeight) /\
      Forall (fun byte => 0 <= byte <= 255) image /\
      forall k, 0 <= k < kWidth * kHeight ->
        let p := pmapped_memory k in
        nth_error image (Z.to_nat (4 * k)) = channel_to_byte (r p) /\
        nth_error image (Z.to_nat (4 * k + 1)) = channel_to_byte (g p) /\
        nth_error image (Z.to_nat (4 * k + 2)) = channel_to_byte (b p) /\
        nth_error image (Z.to_nat (4 * k + 3)) = channel_to_byte (a p).
Proof.
  intros w s s' H. rewrite SaveRenderedImage_cases in H. cbv zeta in H.
  destruct (mapped_memory w) as [mem|]; [|discriminate].
  destruct (SaveRenderedImage_loop mem _ 0 []) as [image|] eqn:L;
    [|discriminate].
  exists mem, image. split; [reflexivity|].
  injection H as <-.
  split; [destruct (lodepng_encode w =? 0); reflexivity|].
  destruct (SaveRenderedImage_loop_appends _ _ _ _ _ L) as (bytes & E & Len & R).
  cbn [app] in E. subst bytes.
  assert (N : 0 <= kWidth * kHeight) by (vm_compute; discriminate).
  split; [rewrite Len; lia|]. split; [exact R|].
  intros k Hk.
  pose proof (SaveRenderedImage_loop_index _ _ _ _ _ L (Z.to_nat k)
                ltac:(lia)) as I.
  cbv zeta in I |- *. cbn [List.length Nat.add Z.add] in I.
  replace (Z.of_nat (Z.to_nat k)) with k in I by lia.
  replace (Z.to_nat (4 * k)) with (4 * Z.to_nat k)%nat by lia.
  replace (Z.to_nat (4 * k + 1)) with (4 * Z.to_nat k + 1)%nat by lia.
  replace (Z.to_nat (4 * k + 2)) with (4 * Z.to_nat k + 2)%nat by lia.
  replace (Z.to_nat (4 * k + 3)) with (4 * Z.to_nat k + 3)%nat by lia.
  rewrite Nat.add_0_r in I. exact I.
Qed.

Lemma image_is_buffer_in_rgba_order_witness :
  exists pmapped_memory image,
    mapped_memory sample_world = Some pmapped_memory /\
    encoded (snd (SaveRenderedImage sample_world initial))
    = Some (image, kWidth, kHeight) /\
    Z.of_nat (List.length image) = 4 * (kWidth * kHeight) /\
    Forall (fun byte => 0 <= byte <= 255) image /\
    forall k, 0 <= k < kWidth * kHeight ->
      let p := pmapped_memory k in
      nth_error image (Z.to_nat (4 * k)) = channel_to_byte (r p) /\
      nth_error image (Z.to_nat (4 * k + 1)) = channel_to_byte (g p) /\
      nth_error image (Z.to_nat (4 * k + 2)) = channel_to_byte (b p) /\
      nth_error image (Z.to_nat (4 * k + 3)) = channel_to_byte (a p).
Proof.
  apply (image_is_buffer_in_rgba_order sample_world initial).
  destruct (SaveRenderedImage_returns sample_world initial) as (s' & image & E & _).
  - destruct sample_world_cooperative as (_ & _ & _ & R). exact R.
  - rewrite E. reflexivity.
Defined.



(** *** Validation support in a release build *)

Lemma bind_cong {A B} (m1 m2 : M A) (k1 k2 : A -> M B) (s : App) :
  m1 s = m2 s -> (forall x s', k1 x s' = k2 x s') ->
  bind m1 k1 s = bind m2 k2 s.
Proof.
  intros E K. unfold bind. rewrite E.
  destruct (m2 s) as [[x| | |] s']; [apply K | reflexivity ..].
Qed.

Lemma CreateInstance_release (w : World) layers extensions procs (s : App) :
  NDEBUG w = true ->
  CreateInstance (with_validation layers extensions procs w) s
  = CreateInstance w s.
Proof.
  intros N. unfold CreateInstance, kEnableValidationLayers.
  cbn [NDEBUG with_validation]. rewrite N. reflexivity.
Qed.

Lemma CleanUp_release (w : World) layers extensions procs (s : App) :
  NDEBUG w = true ->
  CleanUp (with_validation layers extensions procs w) s = CleanUp w s.
Proof.
  intros N. unfold CleanUp, kEnableValidationLayers.
  cbn [NDEBUG with_validation]. rewrite N. reflexivity.
Qed.

(** X11. A release build does not look at what the installation offers for
    validation: whatever the layers, the instance extensions and the
    loadable extension entry points are, the process ends in the same way,
    with the same calls, the same output and the same image; and no layer is
    enabled. *)
Theorem release_build_ignores_validation_support :
  forall (w : World) (layers extensions : list string) (procs : VkFn -> bool),
    NDEBUG w = true ->
    main (with_validation layers extensions procs w) = main w /\
    forall s s', CreateInstance w s = (Ret tt, s') ->
      enabled_layers s' = enabled_layers s.
Proof.
  intros w layers extensions procs N. split.
  - unfold main.
    assert (E : Run (with_validation layers extensions procs w) initial
                = Run w initial).
    { unfold Run.
      apply bind_cong; [reflexivity | intros [] ?].
      apply bind_cong; [now apply CreateInstance_release | intros [] ?].
      do 9 (apply bind_cong; [reflexivity | intros [] ?]).
      now apply CleanUp_release. }
    rewrite E. reflexivity.
  - intros s s'. unfold CreateInstance, kEnableValidationLayers. rewrite N.
    cbn [negb when]. unfold bind at 1. cbn [ret].
    unfold bind at 1. cbn [get]. unfold bind at 1.
    rewrite VK_CHECK_RESULT_cases, N, orb_true_r. cbn [ret].
    intros H. injection H as <-. apply enabled_layers_checked.
Qed.

Lemma release_build_ignores_validation_support_witness :
  main (with_validation [] [] (fun _ => false) sample_world)
  = main sample_world /\
  forall s s', CreateInstance sample_world s = (Ret tt, s') ->
    enabled_layers s' = enabled_layers s.
Proof.
  exact (release_build_ignores_validation_support sample_world [] []
           (fun _ => false) eq_refl).
Defined.

(** *** Where the behaviour is undefined *)

Section DefinedBehaviour.
Variable w : World.
Variable P : App -> Prop.
Hypothesis P_push_call : forall c s, P s -> P (push_call c s).
Hypothesis P_push_stdout : forall p s, P s -> P (push_stdout p s).
Hypothesis P_checked : forall f xs s, P s -> P (checked w f xs s).










End DefinedBehaviour.




















(** *** Where an exception leaves the run *)









(** *** Binary64: the padded size of [ReadFile] *)











(** *** The channel values that can be converted *)

Lemma shr_m_shr_1_nonneg (r : shr_record) :
  0 <= shr_m r -> shr_m (shr_1 r) = shr_m r / 2.
Proof.
  destruct r as [m rb sb]. cbn [shr_m]. intros H.
  rewrite <- Z.div2_div.
  destruct m as [|[p|p|]|p]; try reflexivity. lia.
Qed.

Lemma shr_m_iter_pos (p : positive) :
  forall r : shr_record,
    0 <= shr_m r -> shr_m (iter_pos shr_1 p r) = shr_m r / 2 ^ Zpos p.
Proof.
  induction p as [p IH | p IH |]; intros r H; cbn [iter_pos].
  - assert (H1 : 0 <= shr_m (shr_1 r)).
    { rewrite shr_m_shr_1_nonneg by exact H. apply Z.div_pos; lia. }
    assert (H2 : 0 <= shr_m (iter_pos shr_1 p (shr_1 r))).
    { rewrite IH by exact H1. apply Z.div_pos; [exact H1|].
      apply Z.pow_pos_nonneg; lia. }
    rewrite IH by exact H2. rewrite IH by exact H1.
    rewrite shr_m_shr_1_nonneg by exact H.
    assert (0 < 2 ^ Zpos p) by (apply Z.pow_pos_nonneg; lia).
    rewrite !Z.div_div by lia.
    f_equal.
    replace (Zpos p~1) with (1 + Zpos p + Zpos p) by lia.
    rewrite !Z.pow_add_r by lia. rewrite Z.pow_1_r. ring.
  - assert (H2 : 0 <= shr_m (iter_pos shr_1 p r)).
    { rewrite IH by exact H. apply Z.div_pos; [exact H|].
      apply Z.pow_pos_nonneg; lia. }
    rewrite IH by exact H2. rewrite IH by exact H.
    assert (0 < 2 ^ Zpos p) by (apply Z.pow_pos_nonneg; lia).
    rewrite Z.div_div by lia.
    f_equal.
    replace (Zpos p~0) with (Zpos p + Zpos p) by lia.
    rewrite Z.pow_add_r by lia. reflexivity.
  - rewrite shr_m_shr_1_nonneg by exact H. reflexivity.
Qed.

(** A shift to the right by [n] binary digits. *)
Lemma shr_value (r : shr_record) (e n : Z) :
  0 <= shr_m r -> 0 <= n ->
  shr_m (fst (shr r e n)) = shr_m r / 2 ^ n /\ snd (shr r e n) = e + n.
Proof.
  intros H Hn. destruct n as [|p|p]; try lia; cbn [shr fst snd].
  - rewrite Z.pow_0_r, Z.div_1_r. split; [reflexivity | lia].
  - split; [now apply shr_m_iter_pos | reflexivity].
Qed.

(** The second half of [binary_round_aux] on an integer of at most 24 bits,
    or [2^24]. *)
Lemma renormalise_small (q e : Z) :
  0 <= q <= 2 ^ 24 -> -149 <= e ->
  (q < 2 ^ 24 /\
   shr_m (fst (shr_fexp F32.prec F32.emax q e loc_Exact)) = q /\
   snd (shr_fexp F32.prec F32.emax q e loc_Exact) = e)
  \/
  (q = 2 ^ 24 /\
   shr_m (fst (shr_fexp F32.prec F32.emax q e loc_Exact)) = 2 ^ 23 /\
   snd (shr_fexp F32.prec F32.emax q e loc_Exact) = e + 1).
Proof.
  intros Hq He.
  destruct (Z.eq_dec q (2 ^ 24)) as [->|N].
  - right. split; [reflexivity|].
    unfold shr_fexp, fexp, emin, F32.prec, F32.emax.
    cbn [Zdigits2 Z.pow Z.pow_pos Pos.iter Z.mul Pos.mul digits2_pos Pos.succ
         shr_record_of_loc].
    replace (Z.max (25 + e - 24) (3 - 128 - 24) - e) with 1 by lia.
    split; reflexivity.
  - left. split; [lia|].
    assert (S0 : Z.max (Zdigits2 q + e - 24) (3 - 128 - 24) - e <= 0).
    { destruct q as [|p|p]; cbn [Zdigits2]; try lia.
      pose proof (digits2_pos_bounds p) as B.
      destruct (Z_le_gt_dec (Zpos (digits2_pos p)) 24) as [|G]; [lia|].
      exfalso.
      assert (2 ^ 24 <= 2 ^ (Zpos (digits2_pos p) - 1))
        by (apply Z.pow_le_mono_r; lia).
      lia. }
    unfold shr_fexp, fexp, emin, F32.prec, F32.emax.
    destruct (Z.max (Zdigits2 q + e - 24) (3 - 128 - 24) - e) as [|p|p];
      try lia; cbn [shr fst snd shr_record_of_loc shr_m]; auto.
Qed.

(** The product with [255.0f] of a number of [0 .. 1] converts to a byte:
    [M] and [E] are the mantissa and the exponent of the exact product. *)
Lemma product_to_uchar (M : positive) (E : Z) :
  2 ^ 23 <= Zpos M -> -200 <= E -> Zpos M <= 255 * 2 ^ (- E) ->
  exists byte,
    to_uchar (binary_round_aux F32.prec F32.emax false (Zpos M) E loc_Exact)
    = Some byte.
Proof.
  intros HM HE HV.
  pose proof (digits2_pos_bounds M) as B.
  set (d := Zpos (digits2_pos M)) in *.
  assert (Hd : 24 <= d).
  { destruct (Z_le_gt_dec 24 d) as [|G]; [assumption|exfalso].
    assert (2 ^ d <= 2 ^ 23) by (apply Z.pow_le_mono_r; lia). lia. }
  assert (HE0 : E <= 0).
  { destruct (Z_le_gt_dec E 0) as [|G]; [assumption|exfalso].
    rewrite (Z.pow_neg_r 2 (- E)) in HV by lia. lia. }
  assert (HdE : d + E <= 8).
  { destruct (Z_le_gt_dec (d + E) 8) as [|G]; [assumption|exfalso].
    assert (2 ^ (8 - E) <= 2 ^ (d - 1)) by (apply Z.pow_le_mono_r; lia).
    assert (2 ^ (8 - E) = 256 * 2 ^ (- E)).
    { replace (8 - E) with (8 + - E) by lia.
      rewrite Z.pow_add_r by lia. reflexivity. }
    assert (0 < 2 ^ (- E)) by (apply Z.pow_pos_nonneg; lia).
    lia. }
  set (e1 := Z.max (d + E - 24) (-149)).
  set (n := e1 - E).
  assert (Hn : 0 <= n) by (unfold n, e1; lia).
  assert (He1 : -149 <= e1 <= -16) by (unfold e1; lia).
  unfold binary_round_aux.
  assert (S1 : shr_fexp F32.prec F32.emax (Zpos M) E loc_Exact
               = shr (shr_record_of_loc (Zpos M) loc_Exact) E n).
  { unfold shr_fexp, fexp, emin, F32.prec, F32.emax, Zdigits2. reflexivity. }
  rewrite S1.
  destruct (shr_value (shr_record_of_loc (Zpos M) loc_Exact) E n
              ltac:(cbn; lia) Hn) as (V1 & X1).
  destruct (shr (shr_record_of_loc (Zpos M) loc_Exact) E n) as [mrs1 e1'].
  cbn [fst snd shr_record_of_loc shr_m] in V1, X1.
  replace e1' with e1 in * by (unfold n in X1; lia). clear X1.
  set (q1 := shr_m mrs1) in *.
  assert (P : 0 < 2 ^ n) by (apply Z.pow_pos_nonneg; lia).
  assert (P1 : 0 < 2 ^ (- e1)) by (apply Z.pow_pos_nonneg; lia).
  assert (PE : 2 ^ (- E) = 2 ^ (- e1) * 2 ^ n).
  { rewrite <- Z.pow_add_r by lia. f_equal. unfold n. lia. }
  assert (Hq1 : 0 <= q1 < 2 ^ 24 /\ q1 <= 255 * 2 ^ (- e1)).
  { rewrite V1. split; [split|].
    - apply Z.div_pos; lia.
    - apply Z.div_lt_upper_bound; [exact P|].
      rewrite <- Z.pow_add_r by lia.
      assert (2 ^ d <= 2 ^ (n + 24))
        by (apply Z.pow_le_mono_r; unfold n, e1; lia).
      lia.
    - apply Z.div_le_upper_bound; [exact P|].
      rewrite PE in HV. lia. }
  set (q2 := round_nearest_even q1 (loc_of_shr_record mrs1)).
  assert (Hq2 : 0 <= q2 <= 2 ^ 24 /\ q2 < 256 * 2 ^ (- e1)).
  { assert (2 ^ 16 <= 2 ^ (- e1)) by (apply Z.pow_le_mono_r; lia).
    unfold q2.
    destruct (round_nearest_even_cases q1 (loc_of_shr_record mrs1))
      as [-> | ->]; lia. }
  destruct (renormalise_small q2 e1 ltac:(lia) ltac:(lia))
    as [(L & Vm & Ve) | (L & Vm & Ve)];
    destruct (shr_fexp F32.prec F32.emax q2 e1 loc_Exact) as [mrs2 e2];
    cbn [fst snd] in Vm, Ve; rewrite Vm; subst e2.
  - destruct q2 as [|m2|m2] eqn:Q; try lia.
    + exists 0. reflexivity.
    + replace (e1 <=? F32.emax - F32.prec) with true
        by (symmetry; apply Z.leb_le; unfold F32.emax, F32.prec; lia).
      unfold to_uchar, SFto_int, SFtruncZ. cbn [cond_Zopp].
      rewrite (shiftl_rescale _ e1 e1) by lia.
      rewrite Z.sub_diag, Z.pow_0_r, Z.mul_1_r.
      assert (0 <= Zpos m2 / 2 ^ (- e1) <= 255).
      { split; [apply Z.div_pos; lia|].
        assert (Zpos m2 / 2 ^ (- e1) < 256); [|lia].
        apply Z.div_lt_upper_bound; lia. }
      eexists.
      replace ((0 <=? Zpos m2 / 2 ^ (- e1)) && (Zpos m2 / 2 ^ (- e1) <=? 255))
        with true; [reflexivity|].
      symmetry. apply andb_true_iff. split; apply Z.leb_le; lia.
  - change (2 ^ 23) with (Zpos 8388608).
    replace (e1 + 1 <=? F32.emax - F32.prec) with true
      by (symmetry; apply Z.leb_le; unfold F32.emax, F32.prec; lia).
    unfold to_uchar, SFto_int, SFtruncZ. cbn [cond_Zopp].
    rewrite (shiftl_rescale _ (e1 + 1) (e1 + 1)) by lia.
    rewrite Z.sub_diag, Z.pow_0_r, Z.mul_1_r.
    assert (P2 : 0 < 2 ^ (- (e1 + 1))) by (apply Z.pow_pos_nonneg; lia).
    assert (PP : 2 ^ (- e1) = 2 * 2 ^ (- (e1 + 1))).
    { rewrite <- Z.pow_succ_r by lia. f_equal. lia. }
    assert (0 <= 8388608 / 2 ^ (- (e1 + 1)) <= 255).
    { split; [apply Z.div_pos; lia|].
      assert (8388608 / 2 ^ (- (e1 + 1)) < 256); [|lia].
      apply Z.div_lt_upper_bound; lia. }
    eexists.
    replace ((0 <=? 8388608 / 2 ^ (- (e1 + 1)))
             && (8388608 / 2 ^ (- (e1 + 1)) <=? 255))
      with true; [reflexivity|].
    symmetry. apply andb_true_iff. split; apply Z.leb_le; lia.
Qed.

(** A [float] of [0 .. 1], from its mantissa and exponent. *)
Lemma unit_interval_finite (m : positive) (e : Z) :
  valid_binary F32.prec F32.emax (S754_finite false m e) = true ->
  SFleb (S754_finite false m e) (F32.of_Z 1) = true ->
  -149 <= e <= -23 /\ Zpos m <= 2 ^ (- e).
Proof.
  cbn [valid_binary]. unfold bounded, canonical_mantissa, fexp, emin,
    F32.prec, F32.emax.
  intros V L. apply andb_prop in V. destruct V as [C _].
  apply Z.eqb_eq in C.
  pose proof (digits2_pos_bounds m) as B.
  set (d := Zpos (digits2_pos m)) in *.
  assert (Hd : 1 <= d <= 24) by (unfold d in *; lia).
  replace (F32.of_Z 1) with (S754_finite false 8388608 (-23)) in L
    by (vm_compute; reflexivity).
  unfold SFleb, SFcompare in L.
  assert (M24 : Zpos m < 2 ^ 24).
  { assert (2 ^ d <= 2 ^ 24) by (apply Z.pow_le_mono_r; lia). lia. }
  destruct (Z.compare_spec e (-23)) as [He | Hlt | Hgt]; [| |discriminate L].
  - split; [lia|]. rewrite He.
    replace (- -23) with 23 by reflexivity.
    destruct (Pos.compare_cont Eq m 8388608) eqn:K; [| |discriminate L].
    + apply Pos.compare_eq in K. rewrite K. apply Z.leb_le. reflexivity.
    + assert (H : Zpos m < 8388608) by exact K. clear - H. lia.
  - split; [lia|].
    assert (2 ^ 24 <= 2 ^ (- e)) by (apply Z.pow_le_mono_r; lia). lia.
Qed.

(** Every [float] of [0 .. 1] has a conversion to a byte. *)
Lemma unit_interval_to_byte (value : spec_float) :
  valid_binary F32.prec F32.emax value = true ->
  SFleb (S754_zero false) value = true ->
  SFleb value (F32.of_Z 1) = true ->
  exists byte, channel_to_byte value = Some byte.
Proof.
  intros V L0 L1. unfold channel_to_byte.
  replace (F32.of_Z 255) with (S754_finite false 16711680 (-16))
    by (vm_compute; reflexivity).
  destruct value as [s|s| |s m e].
  - exists 0. reflexivity.
  - destruct s; discriminate.
  - discriminate.
  - destruct s; [discriminate L0|].
    destruct (unit_interval_finite m e V L1) as (He & Hm).
    unfold F32.mul, SFmul. cbn [xorb].
    apply product_to_uchar.
    + rewrite Pos2Z.inj_mul. lia.
    + lia.
    + rewrite Pos2Z.inj_mul.
      replace (- (-16 + e)) with (16 + - e) by lia.
      rewrite Z.pow_add_r by lia.
      assert (0 < 2 ^ (- e)) by (apply Z.pow_pos_nonneg; lia).
      change (2 ^ 16) with 65536. nia.
Qed.

(** X16. The conversion of a channel is defined on the unit interval: for
    every [float] number from 0.0 (of either sign) to 1.0, subnormal numbers
    included, the cast of [255.0f * value] to [unsigned char] has a value,
    and it is a byte in 0..255. A buffer whose channels are all in that
    interval can be read back. *)
Theorem unit_interval_is_convertible :
  forall value : spec_float,
    valid_binary F32.prec F32.emax value = true ->
    SFleb (S754_zero false) value = true ->
    SFleb value (F32.of_Z 1) = true ->
    (exists byte, channel_to_byte value = Some byte /\ 0 <= byte <= 255) /\
    (forall p : Pixel,
        r p = value -> g p = value -> b p = value -> a p = value ->
        convertible p).
Proof.
  intros value V L0 L1.
  destruct (unit_interval_to_byte value V L0 L1) as (byte & E).
  split.
  - exists byte. split; [exact E|]. now apply (channel_to_byte_range value).
  - intros p Hr Hg Hb Ha. unfold convertible.
    rewrite Hr, Hg, Hb, Ha, E. repeat split; discriminate.
Qed.

Lemma unit_interval_is_convertible_witness :
  let half := S754_finite false 8388608 (-24) in
  (exists byte, channel_to_byte half = Some byte /\ 0 <= byte <= 255) /\
  (forall p : Pixel,
      r p = half -> g p = half -> b p = half -> a p = half ->
      convertible p).
Proof.
  intros half.
  apply (unit_interval_is_convertible half); reflexivity.
Defined.

(** *** When the process exits with code 0 *)








(** *** Diagnostics and failed calls *)

Lemma reports_pure (w : World) {A} (m : M A) :
  (forall s, calls (snd (m s)) = calls s /\ stdout (snd (m s)) = stdout s) ->
  reports w m.
Proof.
  intros H s o s' E. exists [], []. destruct (H s) as (C & O).
  rewrite E in C, O. cbn [snd] in C, O. rewrite !app_nil_r. auto.
Qed.

Lemma reports_ret (w : World) {A} (x : A) : reports w (ret x).
Proof. apply reports_pure. intros s. split; reflexivity. Qed.

Lemma reports_get (w : World) : reports w get.
Proof. apply reports_pure. intros s. split; reflexivity. Qed.

Lemma reports_throw (w : World) {A} what : reports w (@throw A what).
Proof. apply reports_pure. intros s. split; reflexivity. Qed.

Lemma reports_undefined (w : World) {A} : reports w (@undefined A).
Proof. apply reports_pure. intros s. split; reflexivity. Qed.

Lemma reports_modify (w : World) (g : App -> App) :
  (forall s, calls (g s) = calls s) -> (forall s, stdout (g s) = stdout s) ->
  reports w (modify g).
Proof. intros C O. apply reports_pure. intros s. split; [apply C | apply O]. Qed.

Lemma reports_printf (w : World) fmt xs :
  is_diagnostic (printf_call fmt xs) = false -> reports w (printf fmt xs).
Proof.
  intros D s o s' E. injection E as <- <-.
  exists [], [printf_call fmt xs]. rewrite app_nil_r.
  repeat split. cbn [filter]. now rewrite D.
Qed.

Lemma reports_vk (w : World) f xs :
  is_checked f = false -> reports w (vk f xs).
Proof.
  intros C s o s' E. injection E as <- <-.
  exists [vk_call f xs], []. rewrite app_nil_r.
  repeat split. unfold due_diagnostics. cbn [flat_map fn]. now rewrite C.
Qed.

Lemma reports_check (w : World) f xs :
  is_checked f = true -> reports w (VK_CHECK_RESULT w f xs).
Proof.
  intros C s o s' E. rewrite VK_CHECK_RESULT_cases in E.
  injection E as _ <-. unfold checked, due_diagnostics.
  destruct (vk_result w f =? VK_SUCCESS) eqn:R.
  - exists [vk_call f xs], []. rewrite app_nil_r.
    repeat split. cbn [flat_map fn]. rewrite C, R. reflexivity.
  - exists [vk_call f xs], [diagnostic w f].
    repeat split. cbn [flat_map fn]. rewrite C, R. reflexivity.
Qed.

Lemma due_diagnostics_app (w : World) (cs1 cs2 : list Call) :
  due_diagnostics w (cs1 ++ cs2)
  = due_diagnostics w cs1 ++ due_diagnostics w cs2.
Proof. apply flat_map_app. Qed.

Lemma reports_bind (w : World) {A B} (m : M A) (k : A -> M B) :
  reports w m -> (forall x, reports w (k x)) -> reports w (bind m k).
Proof.
  intros Hm Hk s o s' E. unfold bind in E.
  destruct (m s) as [o1 s1] eqn:E1.
  destruct (Hm _ _ _ E1) as (cs1 & out1 & C1 & O1 & D1).
  destruct o1 as [x|what| |];
    try (injection E as <- <-; now exists cs1, out1).
  destruct (Hk x _ _ _ E) as (cs2 & out2 & C2 & O2 & D2).
  exists (cs1 ++ cs2), (out1 ++ out2).
  rewrite C2, C1, O2, O1, !app_assoc, filter_app, due_diagnostics_app, D1, D2.
  auto.
Qed.

Lemma reports_when (w : World) (c : bool) (m : M unit) :
  reports w m -> reports w (when c m).
Proof. destruct c; [auto | intros _; apply reports_ret]. Qed.

Ltac report :=
  cbv beta;
  lazymatch goal with
  | |- reports _ (bind _ _) =>
      apply reports_bind; [report | intros ?; report]
  | |- reports _ (when _ _) => apply reports_when; report
  | |- reports _ (ret _) => apply reports_ret
  | |- reports _ get => apply reports_get
  | |- reports _ (modify _) => apply reports_modify; reflexivity
  | |- reports _ (printf _ _) => apply reports_printf; reflexivity
  | |- reports _ (throw _) => apply reports_throw
  | |- reports _ undefined => apply reports_undefined
  | |- reports _ (vk _ _) => apply reports_vk; reflexivity
  | |- reports _ (VK_CHECK_RESULT _ _ _) => apply reports_check; reflexivity
  | |- reports _ (match ?x with _ => _ end) => destruct x; report
  | |- reports _ (if ?x then _ else _) => destruct x; report
  end.

Lemma reports_Run (w : World) : reports w (Run w).
Proof.
  unfold Run, CreateInstance, FindPhysicalDevice, CreateDevice,
    GetComputeQueueFamilyIndex, CreateBuffer, FindMemoryType,
    CreateDescriptorSetLayout, CreateDescriptorSet, CreateComputePipeline,
    ReadFile, CreateCommandBuffer, RunCommandBuffer, SaveRenderedImage,
    CleanUp.
  rewrite group_count_kWidth, group_count_kHeight. cbv zeta.
  report.
Qed.

(** X18. Every failed call inside [VK_CHECK_RESULT] is reported once, and
    nothing else is reported as one: in every world the diagnostics on the
    standard output are, in order, those of the checked calls made that did
    not return [VK_SUCCESS]. The calls outside the macro ([vkMapMemory]
    among them) are never reported. *)
Theorem diagnostics_match_failed_calls :
  forall w : World,
    filter is_diagnostic (stdout (snd (main w)))
    = due_diagnostics w (calls (snd (main w))) /\
    (forall c, In c (calls (snd (main w))) -> is_checked (fn c) = false ->
       ~ In (diagnostic w (fn c)) (stdout (snd (main w)))).
Proof.
  intros w.
  assert (D : filter is_diagnostic (stdout (snd (main w)))
              = due_diagnostics w (calls (snd (main w)))).
  { unfold main. destruct (Run w initial) as [o s'] eqn:E.
    destruct (reports_Run w _ _ _ E) as (cs & out & C & O & D).
    cbn [calls stdout initial app] in C, O.
    destruct o as [[]|what| |]; cbn [snd calls stdout push_stdout];
      rewrite ?filter_app, C, O, D; cbn; now rewrite ?app_nil_r. }
  split; [exact D|].
  intros c I U J.
  assert (K : In (diagnostic w (fn c))
                 (filter is_diagnostic (stdout (snd (main w))))).
  { apply filter_In. split; [exact J | reflexivity]. }
  rewrite D in K. unfold due_diagnostics in K.
  apply in_flat_map in K as (c' & _ & K).
  destruct (is_checked (fn c')) eqn:U'; cbn [andb] in K; [|contradiction].
  destruct (negb _); [|contradiction].
  destruct K as [K|[]]. unfold diagnostic in K.
  injection K as _ F. rewrite F in U'. congruence.
Qed.
